(** * VKYC backend: connection registry, assignment table and session handlers

    A shallow embedding of [backend/main.py] (with the parts of
    [backend/models.py] and [backend/services/video_service.py] it uses):
    the [ConnectionManager] class, the start-session endpoint, the expiry
    timer and the two WebSocket receive loops, followed by the properties
    of the session-matching core. *)

From Stdlib Require Import ZArith Ascii String DecimalString DecimalPos DecimalN DecimalZ.
From stdpp Require Import gmap strings list fin_maps.

Local Open Scope Z_scope.
Local Open Scope string_scope.

(** ** Python built-ins used on session ids

    Customer connections and recorders are keyed by [str(session_id)],
    the assignment maps and the waiting set by the integer itself;
    [disconnect_user] goes back with [int(s) if s.isdigit() else None].
    Strings are byte strings here, so [isdigit] is the ASCII case. *)

Definition str (n : Z) : string := NilZero.string_of_int (Z.to_int n).

Definition is_ascii_digit (c : ascii) : bool :=
  ((48 <=? nat_of_ascii c) && (nat_of_ascii c <=? 57))%nat.

Fixpoint all_digits (s : string) : bool :=
  match s with
  | EmptyString => true
  | String c r => is_ascii_digit c && all_digits r
  end.

Definition isdigit (s : string) : bool :=
  match s with
  | EmptyString => false
  | _ => all_digits s
  end.

(** [int(s)] on a string of decimal digits. *)
Definition int (s : string) : Z :=
  match NilEmpty.uint_of_string s with
  | Some d => Z.of_N (N.of_uint d)
  | None => 0
  end.

Definition upper_ascii (c : ascii) : ascii :=
  let n := nat_of_ascii c in
  if ((97 <=? n) && (n <=? 122))%nat then ascii_of_nat (n - 32) else c.

Fixpoint upper (s : string) : string :=
  match s with
  | EmptyString => EmptyString
  | String c r => String (upper_ascii c) (upper r)
  end.

(** ** JSON values and messages *)

#[warnings="-register-all"] Inductive json :=
| JNull
| JBool (b : bool)
| JInt (n : Z)
| JStr (s : string)
| JTime (t : Z)                       (* a datetime rendered by isoformat() *)
| JList (l : list json)
| JObj (o : list (string * json)).

(** A message is a dict literal: its keys in the order they are written. *)
Definition message := list (string * json).

Fixpoint dict_get (k : string) (d : list (string * json)) : option json :=
  match d with
  | [] => None
  | (k', v) :: r => if String.eqb k k' then Some v else dict_get k r
  end.

Definition msg_type (m : message) : option json := dict_get "type" m.

(** Python truthiness of a JSON value. *)
Definition truthy (v : json) : bool :=
  match v with
  | JNull => false
  | JBool b => b
  | JInt n => negb (n =? 0)%Z
  | JStr s => negb (String.eqb s "")
  | JTime _ => true
  | JList l => match l with [] => false | _ => true end
  | JObj o => match o with [] => false | _ => true end
  end.

(** ** video_service.VideoRecorder *)

Record VideoRecorder := mkVideoRecorder {
  rec_session_id : string;
  recording : bool;
  frames : list string;
  start_time : option Z
}.

Definition new_VideoRecorder (session_id : string) : VideoRecorder :=
  mkVideoRecorder session_id false [] None.

Definition start_recording (now : Z) (r : VideoRecorder) : VideoRecorder :=
  mkVideoRecorder (rec_session_id r) true [] (Some now).

(** The file name carries a timestamp; the time is written as its number. *)
Definition video_path_of (session_id : string) (now : Z) : string :=
  "recordings/vkyc_" ++ session_id ++ "_" ++ str now ++ ".mp4".

Definition stop_recording (now : Z) (r : VideoRecorder)
  : option string * VideoRecorder :=
  if negb (recording r) then (None, r)
  else
    let r' := mkVideoRecorder (rec_session_id r) false (frames r) (start_time r) in
    match frames r with
    | [] => (None, r')
    | _ => (Some (video_path_of (rec_session_id r) now), r')
    end.

(** ** ConnectionManager: the state *)

Definition WebSocket := Z.                    (* a socket handle *)

Record Connection := mkConnection {
  websocket : WebSocket;
  last_heartbeat : Z;
  connected_at : Z
}.

Record ConnectionManager := mkManager {
  active_connections : gmap string Connection;  (* str(session_id) -> connection *)
  agent_connections : gmap string Connection;   (* employee id -> connection *)
  agent_sessions : gmap string Z;               (* employee id -> session id *)
  session_agents : gmap Z string;               (* session id -> employee id *)
  waiting_sessions : gset Z;
  recordings : gmap string VideoRecorder
}.

Definition new_ConnectionManager : ConnectionManager :=
  mkManager ∅ ∅ ∅ ∅ ∅ ∅.

Definition set_active_connections (f : gmap string Connection → gmap string Connection)
    (m : ConnectionManager) : ConnectionManager :=
  mkManager (f (active_connections m)) (agent_connections m) (agent_sessions m)
            (session_agents m) (waiting_sessions m) (recordings m).

Definition set_agent_connections (f : gmap string Connection → gmap string Connection)
    (m : ConnectionManager) : ConnectionManager :=
  mkManager (active_connections m) (f (agent_connections m)) (agent_sessions m)
            (session_agents m) (waiting_sessions m) (recordings m).

Definition set_agent_sessions (f : gmap string Z → gmap string Z)
    (m : ConnectionManager) : ConnectionManager :=
  mkManager (active_connections m) (agent_connections m) (f (agent_sessions m))
            (session_agents m) (waiting_sessions m) (recordings m).

Definition set_session_agents (f : gmap Z string → gmap Z string)
    (m : ConnectionManager) : ConnectionManager :=
  mkManager (active_connections m) (agent_connections m) (agent_sessions m)
            (f (session_agents m)) (waiting_sessions m) (recordings m).

Definition set_waiting_sessions (f : gset Z → gset Z)
    (m : ConnectionManager) : ConnectionManager :=
  mkManager (active_connections m) (agent_connections m) (agent_sessions m)
            (session_agents m) (f (waiting_sessions m)) (recordings m).

Definition set_recordings (f : gmap string VideoRecorder → gmap string VideoRecorder)
    (m : ConnectionManager) : ConnectionManager :=
  mkManager (active_connections m) (agent_connections m) (agent_sessions m)
            (session_agents m) (waiting_sessions m) (f (recordings m)).

(** ** ConnectionManager: the methods

    Each definition is the block the method runs while it holds
    [self.lock]; taking the lock itself is [with_lock] further down.
    [if k in d: del d[k]] is [delete k d], which leaves [d] alone when [k]
    is absent. *)

Definition connect_user (ws : WebSocket) (session_id : string) (now : Z)
    (m : ConnectionManager) : ConnectionManager :=
  set_recordings (insert session_id (new_VideoRecorder session_id))
    (set_active_connections (insert session_id (mkConnection ws now now)) m).

Definition connect_agent (ws : WebSocket) (employee_id : string) (now : Z)
    (m : ConnectionManager) : ConnectionManager :=
  set_agent_connections (insert employee_id (mkConnection ws now now)) m.

(** [int(session_id) if session_id.isdigit() else None] *)
Definition session_id_int (session_id : string) : option Z :=
  if isdigit session_id then Some (int session_id) else None.

Definition disconnect_user (session_id : string) (m : ConnectionManager)
    : ConnectionManager :=
  let m1 := set_active_connections (delete session_id) m in
  (* the recorder is stopped, then dropped with its dict entry *)
  let m2 := set_recordings (delete session_id) m1 in
  match session_id_int session_id with
  | Some n =>
      (* [if session_id_int and ...]: the integer 0 is falsy *)
      if negb (n =? 0)%Z then
        match session_agents m2 !! n with
        | Some agent_id =>
            set_session_agents (delete n)
              (set_agent_sessions (delete agent_id) m2)
        | None => m2
        end
      else m2
  | None => m2
  end.

Definition disconnect_agent (employee_id : string) (m : ConnectionManager)
    : ConnectionManager :=
  let m1 := set_agent_connections (delete employee_id) m in
  match agent_sessions m1 !! employee_id with
  | Some session_id =>
      set_agent_sessions (delete employee_id)
        (set_session_agents (delete session_id) m1)
  | None => m1
  end.

Definition add_waiting_session (session_id : Z) (m : ConnectionManager)
    : bool * ConnectionManager :=
  if bool_decide (session_id ∈ waiting_sessions m) then (false, m)
  else (true, set_waiting_sessions (λ w, {[session_id]} ∪ w) m).

Definition assign_agent_to_session (agent_id : string) (session_id : Z)
    (m : ConnectionManager) : bool * ConnectionManager :=
  if bool_decide (is_Some (agent_sessions m !! agent_id)) then (false, m)
  else if bool_decide (is_Some (session_agents m !! session_id)) then (false, m)
  else
    (true,
     set_waiting_sessions (λ w, w ∖ {[session_id]})
       (set_session_agents (insert session_id agent_id)
          (set_agent_sessions (insert agent_id session_id) m))).

Definition get_available_agent (m : ConnectionManager) : option string :=
  fst <$> head (filter (λ kv, agent_sessions m !! kv.1 = None)
                       (map_to_list (agent_connections m))).

(** ** The record store (models.py)

    Tables are lists of rows in insertion order.  [next_session_id] is the
    auto-increment counter of the integer primary key of [vkyc_sessions]. *)

Record Customer := mkCustomer {
  cust_id : Z;
  cust_unique_id : string;
  cust_name : string;
  cust_mobile : string;
  cust_email : string
}.

Record Agent := mkAgent {
  agent_pk : Z;                      (* Agent.id *)
  employee_id : string;
  first_name : string;
  last_name : string
}.

Record VKYCSession := mkSession {
  id : Z;
  customer_id : Z;
  agent_id : option Z;
  unique_id : string;
  status : string;
  scheduled_time : option Z;
  started_at : option Z;
  agent_assigned_at : option Z;
  completed_at : option Z;
  video_path : option string;
  error_message : option json
}.

Record VKYCLog := mkLog {
  log_session_id : Z;
  log_type : string;
  log_data : json                    (* the value handed to json.dumps *)
}.

Record Store := mkStore {
  customers : list Customer;
  agents : list Agent;
  vkyc_sessions : list VKYCSession;
  vkyc_logs : list VKYCLog;
  next_session_id : Z
}.

Definition set_status (st : string) (s : VKYCSession) : VKYCSession :=
  mkSession (id s) (customer_id s) (agent_id s) (unique_id s) st
            (scheduled_time s) (started_at s) (agent_assigned_at s)
            (completed_at s) (video_path s) (error_message s).

Definition set_started_at (t : Z) (s : VKYCSession) : VKYCSession :=
  mkSession (id s) (customer_id s) (agent_id s) (unique_id s) (status s)
            (scheduled_time s) (Some t) (agent_assigned_at s)
            (completed_at s) (video_path s) (error_message s).

Definition set_agent_id (a : option Z) (s : VKYCSession) : VKYCSession :=
  mkSession (id s) (customer_id s) a (unique_id s) (status s)
            (scheduled_time s) (started_at s) (agent_assigned_at s)
            (completed_at s) (video_path s) (error_message s).

Definition set_agent_assigned_at (t : Z) (s : VKYCSession) : VKYCSession :=
  mkSession (id s) (customer_id s) (agent_id s) (unique_id s) (status s)
            (scheduled_time s) (started_at s) (Some t)
            (completed_at s) (video_path s) (error_message s).

Definition set_completed_at (t : Z) (s : VKYCSession) : VKYCSession :=
  mkSession (id s) (customer_id s) (agent_id s) (unique_id s) (status s)
            (scheduled_time s) (started_at s) (agent_assigned_at s)
            (Some t) (video_path s) (error_message s).

Definition set_video_path (p : option string) (s : VKYCSession) : VKYCSession :=
  mkSession (id s) (customer_id s) (agent_id s) (unique_id s) (status s)
            (scheduled_time s) (started_at s) (agent_assigned_at s)
            (completed_at s) p (error_message s).

Definition set_error_message (e : json) (s : VKYCSession) : VKYCSession :=
  mkSession (id s) (customer_id s) (agent_id s) (unique_id s) (status s)
            (scheduled_time s) (started_at s) (agent_assigned_at s)
            (completed_at s) (video_path s) (Some e).

(** [db.query(VKYCSession).filter(VKYCSession.id == session_id).first()] *)
Definition find_session (session_id : Z) (d : Store) : option VKYCSession :=
  find (λ s, (id s =? session_id)%Z) (vkyc_sessions d).

(** [db.query(Customer).filter(Customer.id == customer_id).first()] *)
Definition find_customer (cid : Z) (d : Store) : option Customer :=
  find (λ c, (cust_id c =? cid)%Z) (customers d).

(** [db.query(Customer).filter(Customer.unique_id == unique_id).first()] *)
Definition find_customer_by_unique_id (uid : string) (d : Store) : option Customer :=
  find (λ c, String.eqb (cust_unique_id c) uid) (customers d).

(** [db.query(Agent).filter(Agent.employee_id == employee_id).first()] *)
Definition find_agent (eid : string) (d : Store) : option Agent :=
  find (λ a, String.eqb (employee_id a) eid) (agents d).

(** Attribute writes on the row with this id, followed by [db.commit()]. *)
Definition update_session (session_id : Z) (f : VKYCSession → VKYCSession)
    (d : Store) : Store :=
  mkStore (customers d) (agents d)
          (map (λ s, if (id s =? session_id)%Z then f s else s) (vkyc_sessions d))
          (vkyc_logs d) (next_session_id d).

(** [db.add(VKYCLog(...)); db.commit()] *)
Definition add_log (l : VKYCLog) (d : Store) : Store :=
  mkStore (customers d) (agents d) (vkyc_sessions d) (vkyc_logs d ++ [l])
          (next_session_id d).

(** [db.add(session); db.commit(); db.refresh(session)]: the row gets the
    next key. *)
Definition add_session (mk : Z → VKYCSession) (d : Store) : Z * Store :=
  let k := next_session_id d in
  (k, mkStore (customers d) (agents d) (vkyc_sessions d ++ [mk k])
              (vkyc_logs d) (k + 1)).

(** ** The world and the handler monad

    A handler runs against the store, the manager, the manager's lock, the
    transport and the clock.  [net] lists the outcomes of the coming
    [send_json] calls ([false]: the call raises; an empty list: they all
    succeed) and [outbox] collects what was delivered.  A computation
    that yields [None] is a coroutine waiting for ever: [asyncio.Lock] is
    not re-entrant, so a coroutine that asks for a lock which is never
    released does not come back, and what it did before stays done. *)

Inductive endpoint :=
| ToUser (session_id : string)
| ToAgent (employee_id : string).

Record World := mkWorld {
  db : Store;
  manager : ConnectionManager;
  lock_held : bool;
  net : list bool;
  clock : Z;
  outbox : list (endpoint * message);
  timers : list (Z * Z)              (* expiry tasks: session id, due time *)
}.

Definition M (A : Type) : Type := World → option A * World.

Definition ret {A} (a : A) : M A := λ w, (Some a, w).

Definition bind {A B} (c : M A) (k : A → M B) : M B :=
  λ w, match c w with
       | (Some a, w') => k a w'
       | (None, w') => (None, w')
       end.

Notation "'let!' x ':=' c 'in' k" := (bind c (λ x, k))
  (at level 10, x name, c at level 200, k at level 200).
Notation "'do!' c 'in' k" := (bind c (λ _, k))
  (at level 10, c at level 200, k at level 200).

Definition get_db : M Store := λ w, (Some (db w), w).
Definition get_manager : M ConnectionManager := λ w, (Some (manager w), w).
Definition now : M Z := λ w, (Some (clock w), w).

Definition modify_db (f : Store → Store) : M unit :=
  λ w, (Some tt, mkWorld (f (db w)) (manager w) (lock_held w) (net w) (clock w)
                         (outbox w) (timers w)).

Definition modify_manager (f : ConnectionManager → ConnectionManager) : M unit :=
  λ w, (Some tt, mkWorld (db w) (f (manager w)) (lock_held w) (net w) (clock w)
                         (outbox w) (timers w)).

Definition set_lock (b : bool) (w : World) : World :=
  mkWorld (db w) (manager w) b (net w) (clock w) (outbox w) (timers w).

(** [async with self.lock: body] *)
Definition with_lock {A} (body : M A) : M A :=
  λ w, if lock_held w then (None, w)
       else match body (set_lock true w) with
            | (Some a, w') => (Some a, set_lock false w')
            | (None, w') => (None, w')
            end.

(** [await websocket.send_json(message)]; [false] stands for the raised
    exception. *)
Definition send_json (to : endpoint) (msg : message) : M bool :=
  λ w, match net w with
       | false :: rest =>
           (Some false, mkWorld (db w) (manager w) (lock_held w) rest (clock w)
                                (outbox w) (timers w))
       | _ =>
           (Some true, mkWorld (db w) (manager w) (lock_held w) (tail (net w)) (clock w)
                               (outbox w ++ [(to, msg)]) (timers w))
       end.

(** [asyncio.create_task(session_expiry_timer(session_id, duration))] *)
Definition create_expiry_task (session_id : Z) (duration_seconds : Z) : M unit :=
  λ w, (Some tt, mkWorld (db w) (manager w) (lock_held w) (net w) (clock w)
                         (outbox w) (timers w ++ [(session_id, clock w + duration_seconds)%Z])).

Fixpoint for_each {A} (l : list A) (f : A → M unit) : M unit :=
  match l with
  | [] => ret tt
  | x :: r => do! f x in for_each r f
  end.

(** ** ConnectionManager: the calls, with the lock *)

Definition await_connect_user (ws : WebSocket) (session_id : string) : M unit :=
  with_lock (let! t := now in modify_manager (connect_user ws session_id t)).

Definition await_connect_agent (ws : WebSocket) (eid : string) : M unit :=
  with_lock (let! t := now in modify_manager (connect_agent ws eid t)).

Definition await_disconnect_user (session_id : string) : M unit :=
  with_lock (modify_manager (disconnect_user session_id)).

Definition await_disconnect_agent (eid : string) : M unit :=
  with_lock (modify_manager (disconnect_agent eid)).

Definition await_assign_agent_to_session (agent : string) (session_id : Z) : M bool :=
  with_lock (let! m := get_manager in
             let '(r, m') := assign_agent_to_session agent session_id m in
             do! modify_manager (λ _, m') in ret r).

Definition call_add_waiting_session (session_id : Z) : M bool :=
  let! m := get_manager in
  let '(r, m') := add_waiting_session session_id m in
  do! modify_manager (λ _, m') in ret r.

Definition touch (t : Z) (c : Connection) : Connection :=
  mkConnection (websocket c) t (connected_at c).

Definition send_to_user (msg : message) (session_id : string) : M bool :=
  let! m := get_manager in
  match active_connections m !! session_id with
  | None => ret false
  | Some connection =>
      let! ok := send_json (ToUser session_id) msg in
      if ok : bool then
        let! t := now in
        do! modify_manager (set_active_connections (alter (touch t) session_id)) in
        ret true
      else
        do! await_disconnect_user session_id in ret false
  end.

Definition send_to_agent (msg : message) (agent : string) : M bool :=
  let! m := get_manager in
  match agent_connections m !! agent with
  | None => ret false
  | Some connection =>
      let! ok := send_json (ToAgent agent) msg in
      if ok : bool then
        let! t := now in
        do! modify_manager (set_agent_connections (alter (touch t) agent)) in
        ret true
      else
        do! await_disconnect_agent agent in ret false
  end.

(** The loop over [self.agent_connections.items()]; the dict is walked in
    the order of [map_to_list]. *)
Fixpoint broadcast_loop (msg : message) (items : list (string * Connection))
    (disconnected_agents : list string) : M (list string) :=
  match items with
  | [] => ret disconnected_agents
  | (agent, _) :: rest =>
      let! ok := send_json (ToAgent agent) msg in
      if ok : bool then
        let! t := now in
        do! modify_manager (set_agent_connections (alter (touch t) agent)) in
        broadcast_loop msg rest disconnected_agents
      else
        broadcast_loop msg rest (disconnected_agents ++ [agent])%list
  end.

(** The clean-up loop sits inside the [async with] block, so each
    [disconnect_agent] asks for the lock its caller holds. *)
Definition broadcast_to_all_agents (msg : message) : M unit :=
  with_lock (let! m := get_manager in
             let! disconnected_agents := broadcast_loop msg (map_to_list (agent_connections m)) [] in
             for_each disconnected_agents await_disconnect_agent).

Definition stale (t : Z) (timeout_seconds : Z) (kv : string * Connection) : bool :=
  (timeout_seconds <? t - last_heartbeat kv.2)%Z.

Definition cleanup_stale_connections (timeout_seconds : Z) : M unit :=
  let! t := now in
  let! stale_lists := with_lock (let! m := get_manager in
      ret (fst <$> filter (λ kv, stale t timeout_seconds kv = true)
                          (map_to_list (active_connections m)),
           fst <$> filter (λ kv, stale t timeout_seconds kv = true)
                          (map_to_list (agent_connections m)))) in
  do! for_each stale_lists.1 await_disconnect_user in
  for_each stale_lists.2 await_disconnect_agent.

(** ** POST /api/vkyc/start *)

Inductive http_result :=
| HTTPException (status_code : Z) (detail : string)
| Response (body : message).

(** The statuses listed by the duplicate-session guard. *)
Definition reusable_statuses : list string :=
  ["started"; "waiting_for_agent"; "in_progress"; "disconnected"].

(** [.order_by(VKYCSession.id.desc()).first()] *)
Definition latest_by_id (l : list VKYCSession) : option VKYCSession :=
  fold_left (λ best s,
               match best with
               | None => Some s
               | Some b => if (id b <? id s)%Z then Some s else Some b
               end) l None.

Definition existing_session (cid : Z) (d : Store) : option VKYCSession :=
  latest_by_id (filter (λ s, customer_id s = cid ∧ status s ∈ reusable_statuses)
                       (vkyc_sessions d)).

Definition start_response (WS_BASE_URL : string) (session_id : Z) : message :=
  [("success", JBool true);
   ("session_id", JInt session_id);
   ("websocket_url", JStr (WS_BASE_URL ++ "/ws/vkyc/" ++ str session_id))].

Definition start_vkyc (WS_BASE_URL : string) (vkyc_start_unique_id : string)
    : M http_result :=
  let! d := get_db in
  match find_customer_by_unique_id vkyc_start_unique_id d with
  | None => ret (HTTPException 404 "Customer not found")
  | Some customer =>
      match existing_session (cust_id customer) d with
      | Some existing => ret (Response (start_response WS_BASE_URL (id existing)))
      | None =>
          let! t := now in
          let '(k, d') :=
            add_session (λ k, mkSession k (cust_id customer) None vkyc_start_unique_id
                                        "started" None (Some t) None None None None) d in
          do! modify_db (λ _, d') in
          ret (Response (start_response WS_BASE_URL k))
      end
  end.

(** ** The expiry timer (after its sleep) *)

Definition json_time (t : option Z) : json :=
  match t with Some t => JTime t | None => JNull end.

Definition session_expiry_timer (session_id : Z) : M unit :=
  let! d := get_db in
  match find_session session_id d with
  | Some session =>
      if bool_decide (status session ∈ ["waiting_for_agent"; "in_progress"]) then
        do! modify_db (update_session session_id (set_status "expired")) in
        do! send_to_user [("type", JStr "session_expired");
                          ("message", JStr "Session expired. Please retry.")]
                         (str session_id) in
        do! broadcast_to_all_agents [("type", JStr "session_expired");
                                     ("session_id", JInt session_id)] in
        await_disconnect_user (str session_id)
      else ret tt
  | None => ret tt
  end.

(** ** /ws/vkyc/{session_id}: the customer side

    Incoming JSON is typed by its [type] field.  Where a handler calls an
    outside service (OCR, DigiLocker) the message carries what the service
    answered. *)

Inductive loop_ctl := Continue | Break.

Inductive webrtc_kind := webrtc_offer | webrtc_answer | webrtc_ice_candidate.

Definition webrtc_type (k : webrtc_kind) : string :=
  match k with
  | webrtc_offer => "webrtc_offer"
  | webrtc_answer => "webrtc_answer"
  | webrtc_ice_candidate => "webrtc_ice_candidate"
  end.

Inductive customer_msg :=
| CHeartbeat
| CUserLeft
| CReadyForAgent
| CPermissionsGranted
| CDocumentCaptured (doc_type : string) (ocr : list (string * json))
| CWebrtc (k : webrtc_kind) (payload : json)
| CPanDetected (pan_info : json)
| CAadhaarDetected (aadhaar_info : json)
| CVerifyDigilocker (verification_result : list (string * json))
| CBiometricData (data : json)
| CLocationData (location : json)
| CIpAddress (ip : json)
| CKycComplete
| CError (err : option json)
| COther.

(** [recorder = manager.recordings.get(key); if recorder: recorder.stop_recording()] *)
Definition stop_recorder (key : string) : M (option string) :=
  let! m := get_manager in
  let! t := now in
  match recordings m !! key with
  | Some recorder =>
      let '(path, recorder') := stop_recording t recorder in
      do! modify_manager (set_recordings (insert key recorder')) in
      ret path
  | None => ret None
  end.

(** [if session_id in manager.session_agents: await manager.send_to_agent(msg, agent_id)] *)
Definition notify_assigned_agent (session_id : Z) (msg : message) : M unit :=
  let! m := get_manager in
  match session_agents m !! session_id with
  | Some agent => do! send_to_agent msg agent in ret tt
  | None => ret tt
  end.

Definition customer_name_of (c : option Customer) : json :=
  match c with Some c => JStr (cust_name c) | None => JStr "Unknown" end.

Definition customer_mobile_of (c : option Customer) : json :=
  match c with Some c => JStr (cust_mobile c) | None => JStr "" end.

(** One turn of the receive loop.  [session] is the row loaded before the
    loop; its key, customer and unique id never change, its other columns
    are read from and written to the store. *)
Definition websocket_vkyc_message (session : VKYCSession) (data : customer_msg)
    : M loop_ctl :=
  let session_id := id session in
  match data with
  | CHeartbeat => ret Continue

  | CUserLeft =>
      do! modify_db (update_session session_id (set_status "disconnected")) in
      do! notify_assigned_agent session_id
            [("type", JStr "user_left"); ("session_id", JInt session_id);
             ("message", JStr "User has left the VKYC session")] in
      do! stop_recorder (str session_id) in
      do! await_disconnect_user (str session_id) in
      ret Break

  | CReadyForAgent =>
      let! t := now in
      do! modify_db (update_session session_id
                       (λ s, set_started_at t (set_status "waiting_for_agent" s))) in
      let! added := call_add_waiting_session session_id in
      do! (if added : bool then
             let! d := get_db in
             let customer := find_customer (customer_id session) d in
             broadcast_to_all_agents
               [("type", JStr "new_waiting_session");
                ("session_id", JInt session_id);
                ("customer_id", JInt (customer_id session));
                ("unique_id", JStr (unique_id session));
                ("customer_name", customer_name_of customer);
                ("customer_mobile", customer_mobile_of customer);
                ("started_at", JTime t)]
           else ret tt) in
      do! send_to_user [("type", JStr "waiting_for_agent");
                        ("message", JStr "Waiting for an available agent...")]
                       (str session_id) in
      do! create_expiry_task session_id 300 in
      ret Continue

  | CPermissionsGranted => ret Continue

  | CDocumentCaptured doc_type ocr =>
      let '(ocr_result, lt) :=
        if String.eqb doc_type "pan" then (ocr, "pan_detection")
        else if String.prefix "aadhaar" doc_type then
          (ocr, if String.eqb doc_type "aadhaar_front" then "aadhaar_front_detection"
                else if String.eqb doc_type "aadhaar_back" then "aadhaar_back_detection"
                else "aadhaar_detection")
        else ([("error", JStr "Invalid document type")], "document_capture_error") in
      do! modify_db (add_log (mkLog session_id lt (JObj ocr_result))) in
      let got := default (JBool false) (dict_get "success" ocr_result) in
      let success :=
        if truthy got then got
        else JBool (negb (bool_decide (is_Some (dict_get "error" ocr_result)))) in
      do! send_to_user
            [("type", JStr "document_verification_result");
             ("doc_type", JStr doc_type);
             ("success", success);
             ("data", JObj ocr_result);
             ("message", JStr (if truthy success then upper doc_type ++ " Verified"
                               else "Verification Failed. Please try again."))]
            (str session_id) in
      do! notify_assigned_agent session_id
            [("type", JStr "document_verification_result");
             ("session_id", JInt session_id);
             ("doc_type", JStr doc_type);
             ("success", success);
             ("data", JObj ocr_result)] in
      ret Continue

  | CWebrtc k payload =>
      do! notify_assigned_agent session_id
            [("type", JStr (webrtc_type k)); ("session_id", JInt session_id);
             ("payload", payload)] in
      ret Continue

  | CPanDetected pan_info =>
      do! modify_db (add_log (mkLog session_id "pan_detection" pan_info)) in
      do! send_to_user [("type", JStr "pan_extracted"); ("data", pan_info)]
                       (str session_id) in
      ret Continue

  | CAadhaarDetected aadhaar_info =>
      do! modify_db (add_log (mkLog session_id "aadhaar_detection" aadhaar_info)) in
      do! send_to_user [("type", JStr "aadhaar_extracted"); ("data", aadhaar_info)]
                       (str session_id) in
      ret Continue

  | CVerifyDigilocker verification_result =>
      do! modify_db (add_log (mkLog session_id "digilocker_verification"
                                    (JObj verification_result))) in
      do! send_to_user
            [("type", JStr "digilocker_result");
             ("success", default (JBool false) (dict_get "success" verification_result));
             ("message", default (JStr "") (dict_get "message" verification_result))]
            (str session_id) in
      ret Continue

  | CBiometricData data =>
      do! modify_db (add_log (mkLog session_id "biometric" data)) in
      ret Continue

  | CLocationData location =>
      do! modify_db (add_log (mkLog session_id "location" location)) in
      ret Continue

  | CIpAddress ip =>
      do! modify_db (add_log (mkLog session_id "ip_address" (JObj [("ip", ip)]))) in
      ret Continue

  | CKycComplete =>
      let! t := now in
      let! m := get_manager in
      let! path := (match recordings m !! str session_id with
                    | Some _ => let! p := stop_recorder (str session_id) in ret (Some p)
                    | None => ret None
                    end) in
      do! modify_db (update_session session_id
            (λ s, let s' := set_completed_at t (set_status "completed" s) in
                  match path with
                  | Some p => set_video_path p s'
                  | None => s'
                  end)) in
      do! send_to_user [("type", JStr "kyc_completed");
                        ("message", JStr "Your KYC is complete!")]
                       (str session_id) in
      do! notify_assigned_agent session_id
            [("type", JStr "session_completed"); ("session_id", JInt session_id);
             ("message", JStr "VKYC session completed successfully")] in
      do! broadcast_to_all_agents
            [("type", JStr "session_completed"); ("session_id", JInt session_id)] in
      ret Break

  | CError err =>
      do! modify_db (update_session session_id
            (λ s, set_error_message (default (JStr "Unknown error") err)
                    (set_status "failed" s))) in
      ret Continue

  | COther => ret Continue
  end.

(** The receive timeout: a ping on the handler's own socket, then ten
    seconds for the answer; [pong] tells whether a pong came in time. *)
Definition websocket_vkyc_timeout (session : VKYCSession) (pong : bool) : M loop_ctl :=
  let! ok := send_json (ToUser (str (id session))) [("type", JStr "ping")] in
  ret (if ok && pong then Continue else Break).

(** The [finally] block behind the loop. *)
Definition websocket_vkyc_finally (session : VKYCSession) : M unit :=
  let session_id := id session in
  do! await_disconnect_user (str session_id) in
  let! d := get_db in
  match find_session session_id d with
  | Some s =>
      if String.eqb (status s) "in_progress"
      then modify_db (update_session session_id (set_status "disconnected"))
      else ret tt
  | None => ret tt
  end.

(** Everything before the loop; the answer tells whether the loop is
    entered.  A session that is not found closes the socket and returns,
    with the connection entry still registered. *)
Definition websocket_vkyc_setup (ws : WebSocket) (session_id : Z) : M bool :=
  do! await_connect_user ws (str session_id) in
  let! d := get_db in
  match find_session session_id d with
  | None => ret false
  | Some _ =>
      do! send_to_user [("type", JStr "heartbeat_interval"); ("interval", JInt 30)]
                       (str session_id) in
      ret true
  end.

(** ** /ws/agent/{employee_id}: the agent side *)

Inductive agent_msg :=
| AHeartbeat
| AAcceptSession (session_id : Z)
| ADeclineSession (session_id : Z)
| ARequestDocumentCapture (session_id : Z) (doc_type : string)
| AWebrtc (k : webrtc_kind) (session_id : Z) (payload : json)
| ACancelDocumentCapture (session_id : Z)
| ALeaveSession (session_id : Z)
| AOther.

Definition error_message_to (eid : string) (text : string) : M unit :=
  do! send_to_agent [("type", JStr "error"); ("message", JStr text)] eid in
  ret tt.

Definition agent_full_name (agent : Agent) : string :=
  first_name agent ++ " " ++ last_name agent.

(** [employee_id not in manager.agent_sessions or
     manager.agent_sessions[employee_id] != session_id] *)
Definition not_assigned_to (eid : string) (session_id : Z) (m : ConnectionManager) : bool :=
  negb (bool_decide (agent_sessions m !! eid = Some session_id)).

(** One turn of the receive loop; [agent] is the row loaded before it. *)
Definition websocket_agent_message (agent : Agent) (data : agent_msg) : M loop_ctl :=
  let eid := employee_id agent in
  match data with
  | AHeartbeat => ret Continue

  | AAcceptSession session_id =>
      let! d := get_db in
      match find_session session_id d with
      | None =>
          do! error_message_to eid "Session not found" in ret Continue
      | Some session =>
          if negb (String.eqb (status session) "waiting_for_agent") then
            do! error_message_to eid
                  "Session is not waiting for agent or already assigned" in
            ret Continue
          else
            let! m := get_manager in
            if bool_decide (is_Some (agent_sessions m !! eid)) then
              do! error_message_to eid "You are already assigned to another session" in
              ret Continue
            else
              let! assigned := await_assign_agent_to_session eid session_id in
              if negb assigned then
                do! error_message_to eid "Could not assign agent to session" in
                ret Continue
              else
                do! modify_manager (set_waiting_sessions (λ w, w ∖ {[session_id]})) in
                let! t := now in
                do! modify_db (update_session session_id
                      (λ s, set_agent_assigned_at t
                              (set_status "agent_joined"
                                 (set_agent_id (Some (agent_pk agent)) s)))) in
                let! d := get_db in
                let customer := find_customer (customer_id session) d in
                do! send_to_user
                      [("type", JStr "agent_assigned");
                       ("message", JStr "Agent has joined. Starting VKYC session...");
                       ("agent_name", JStr (agent_full_name agent))]
                      (str session_id) in
                do! send_to_agent
                      [("type", JStr "session_accepted");
                       ("session_id", JInt session_id);
                       ("customer_id", JInt (customer_id session));
                       ("unique_id", JStr (unique_id session));
                       ("customer_name", customer_name_of customer);
                       ("customer_mobile", customer_mobile_of customer)]
                      eid in
                do! broadcast_to_all_agents
                      [("type", JStr "session_taken");
                       ("session_id", JInt session_id);
                       ("agent_employee_id", JStr eid);
                       ("agent_name", JStr (agent_full_name agent))] in
                let! m := get_manager in
                let! t := now in
                do! (match recordings m !! str session_id with
                     | Some recorder =>
                         modify_manager
                           (set_recordings (insert (str session_id) (start_recording t recorder)))
                     | None => ret tt
                     end) in
                do! modify_db (update_session session_id (set_status "in_progress")) in
                do! create_expiry_task session_id 300 in
                ret Continue
      end

  | ADeclineSession session_id =>
      let! d := get_db in
      match find_session session_id d with
      | None => ret Continue
      | Some _ =>
          do! modify_manager (set_waiting_sessions (λ w, w ∖ {[session_id]})) in
          do! modify_db (update_session session_id (set_status "declined")) in
          do! broadcast_to_all_agents
                [("type", JStr "session_removed"); ("session_id", JInt session_id)] in
          do! send_to_user [("type", JStr "agent_declined");
                            ("message", JStr "Agent declined. Please retry.")]
                           (str session_id) in
          ret Continue
      end

  | ARequestDocumentCapture session_id doc_type =>
      let! m := get_manager in
      if not_assigned_to eid session_id m then
        do! error_message_to eid "You are not assigned to this session" in
        ret Continue
      else
        do! send_to_user
              [("type", JStr "request_document_capture");
               ("doc_type", JStr doc_type);
               ("message", JStr ("Please show your " ++ upper doc_type ++ " card"))]
              (str session_id) in
        do! send_to_agent
              [("type", JStr "document_capture_requested");
               ("session_id", JInt session_id);
               ("doc_type", JStr doc_type)]
              eid in
        ret Continue

  | AWebrtc k session_id payload =>
      let! m := get_manager in
      (* [if session_id and str(session_id) in manager.active_connections] *)
      if negb (session_id =? 0)%Z
         && bool_decide (is_Some (active_connections m !! str session_id)) then
        do! send_to_user
              [("type", JStr (webrtc_type k)); ("session_id", JInt session_id);
               ("payload", payload)]
              (str session_id) in
        ret Continue
      else ret Continue

  | ACancelDocumentCapture session_id =>
      let! m := get_manager in
      if not_assigned_to eid session_id m then
        do! error_message_to eid "You are not assigned to this session" in
        ret Continue
      else
        do! send_to_user [("type", JStr "cancel_document_capture");
                          ("message", JStr "Document capture cancelled")]
                         (str session_id) in
        ret Continue

  | ALeaveSession session_id =>
      let! m := get_manager in
      if not_assigned_to eid session_id m then ret Continue
      else
        let! d := get_db in
        match find_session session_id d with
        | None => ret Continue
        | Some _ =>
            do! modify_db (update_session session_id
                  (λ s, set_agent_id None (set_status "waiting_for_agent" s))) in
            do! modify_manager
                  (λ m, set_agent_sessions (delete eid)
                          (set_session_agents (delete session_id) m)) in
            do! call_add_waiting_session session_id in
            do! send_to_user [("type", JStr "agent_left");
                              ("message", JStr "Agent has left. Waiting for new agent...")]
                             (str session_id) in
            do! send_to_agent [("type", JStr "session_left");
                               ("session_id", JInt session_id);
                               ("message", JStr "You left the session")]
                              eid in
            do! broadcast_to_all_agents
                  [("type", JStr "session_available"); ("session_id", JInt session_id)] in
            ret Continue
        end

  | AOther => ret Continue
  end.

Definition websocket_agent_timeout (agent : Agent) (pong : bool) : M loop_ctl :=
  let! ok := send_json (ToAgent (employee_id agent)) [("type", JStr "ping")] in
  ret (if ok && pong then Continue else Break).

(** The [finally] block: [session_id = manager.agent_sessions.get(employee_id)],
    and [if session_id:] is false for [None] and for 0. *)
Definition websocket_agent_finally (agent : Agent) : M unit :=
  let eid := employee_id agent in
  let! m := get_manager in
  do! (match agent_sessions m !! eid with
       | Some session_id =>
           if negb (session_id =? 0)%Z
           then do! stop_recorder (str session_id) in ret tt
           else ret tt
       | None => ret tt
       end) in
  await_disconnect_agent eid.

Definition waiting_session_entry (d : Store) (s : VKYCSession) : json :=
  let customer := find_customer (customer_id s) d in
  JObj [("session_id", JInt (id s));
        ("customer_id", JInt (customer_id s));
        ("unique_id", JStr (unique_id s));
        ("customer_name", customer_name_of customer);
        ("customer_mobile", customer_mobile_of customer);
        ("started_at", json_time (started_at s))].

(** Everything before the loop.  An unknown employee id closes the socket
    and returns, with the connection entry still registered. *)
Definition websocket_agent_setup (ws : WebSocket) (eid : string) : M bool :=
  do! await_connect_agent ws eid in
  let! d := get_db in
  match find_agent eid d with
  | None => ret false
  | Some _ =>
      do! send_to_agent [("type", JStr "heartbeat_interval"); ("interval", JInt 30)] eid in
      let waiting :=
        filter (λ s, status s = "waiting_for_agent") (vkyc_sessions d) in
      do! send_to_agent [("type", JStr "waiting_sessions");
                         ("sessions", JList (map (waiting_session_entry d) waiting))]
                        eid in
      ret true
  end.

(** ** The background sweep *)

Definition cleanup_task_round : M unit := cleanup_stale_connections 60.

(** ** The server as a transition system

    One step is one handler run to its next wait for input: a request, one
    turn of a receive loop (with the [finally] block when the loop ends),
    a timer that fires, a round of the sweep.  The environment picks the
    time, which does not go back, and the outcome of every send. *)

Inductive event :=
| StartVkyc (WS_BASE_URL : string) (unique_id : string)
| UserConnects (ws : WebSocket) (session_id : Z)
| UserSends (session : VKYCSession) (data : customer_msg)
| UserSilent (session : VKYCSession) (pong : bool)
| UserCloses (session : VKYCSession)
| AgentConnects (ws : WebSocket) (eid : string)
| AgentSends (agent : Agent) (data : agent_msg)
| AgentSilent (agent : Agent) (pong : bool)
| AgentCloses (agent : Agent)
| TimerFires (session_id : Z) (due : Z)
| CleanupRound.

Definition after_loop (ctl : loop_ctl) (finally : M unit) : M unit :=
  match ctl with
  | Continue => ret tt
  | Break => finally
  end.

Fixpoint remove_timer (x : Z * Z) (l : list (Z * Z)) : list (Z * Z) :=
  match l with
  | [] => []
  | y :: r => if bool_decide (x = y) then r else y :: remove_timer x r
  end.

Definition task_done (x : Z * Z) : M unit :=
  λ w, (Some tt, mkWorld (db w) (manager w) (lock_held w) (net w) (clock w)
                         (outbox w) (remove_timer x (timers w))).

Definition run (e : event) : M unit :=
  match e with
  | StartVkyc base uid => do! start_vkyc base uid in ret tt
  | UserConnects ws session_id => do! websocket_vkyc_setup ws session_id in ret tt
  | UserSends session data =>
      let! ctl := websocket_vkyc_message session data in
      after_loop ctl (websocket_vkyc_finally session)
  | UserSilent session pong =>
      let! ctl := websocket_vkyc_timeout session pong in
      after_loop ctl (websocket_vkyc_finally session)
  | UserCloses session => websocket_vkyc_finally session
  | AgentConnects ws eid => do! websocket_agent_setup ws eid in ret tt
  | AgentSends agent data =>
      let! ctl := websocket_agent_message agent data in
      after_loop ctl (websocket_agent_finally agent)
  | AgentSilent agent pong =>
      let! ctl := websocket_agent_timeout agent pong in
      after_loop ctl (websocket_agent_finally agent)
  | AgentCloses agent => websocket_agent_finally agent
  | TimerFires session_id due =>
      do! task_done (session_id, due) in session_expiry_timer session_id
  | CleanupRound => cleanup_task_round
  end.

(** A receive loop runs for a row that its set-up found; a timer fires
    when it was scheduled and is due. *)
Definition enabled (e : event) (t : Z) (w : World) : Prop :=
  match e with
  | UserSends session _ | UserSilent session _ | UserCloses session =>
      find_session (id session) (db w) = Some session
  | AgentSends agent _ | AgentSilent agent _ | AgentCloses agent =>
      find_agent (employee_id agent) (db w) = Some agent
  | TimerFires session_id due => (session_id, due) ∈ timers w ∧ (due ≤ t)%Z
  | _ => True
  end.

Definition at_time (t : Z) (tape : list bool) (w : World) : World :=
  mkWorld (db w) (manager w) (lock_held w) tape t (outbox w) (timers w).

Inductive step : World → World → Prop :=
| step_run (e : event) (t : Z) (tape : list bool) (w : World) :
    (clock w ≤ t)%Z → enabled e t w →
    step w (run e (at_time t tape w)).2.

(** The process starts with an empty manager over whatever the store
    holds. *)
Definition initial_world (d : Store) : World :=
  mkWorld d new_ConnectionManager false [] 0 [] [].

Definition reachable (d : Store) (w : World) : Prop := rtc step (initial_world d) w.

(** ** Predicates used in the statements *)

(** The two assignment maps describe the same set of pairs. *)
Definition inverse_maps (m : ConnectionManager) : Prop :=
  ∀ a s, agent_sessions m !! a = Some s ↔ session_agents m !! s = Some a.

(** Every session id the manager tracks has a row in the store. *)
Definition tracked_have_records (d : Store) (m : ConnectionManager) : Prop :=
  ∀ s, s ∈ waiting_sessions m ∨ is_Some (session_agents m !! s) →
       is_Some (find_session s d).

Definition consistent (w : World) : Prop :=
  inverse_maps (manager w) ∧ tracked_have_records (db w) (manager w).

(** No row of [vkyc_sessions] is ever dropped. *)
Definition records_kept (w w' : World) : Prop :=
  ∀ s, is_Some (find_session s (db w)) → is_Some (find_session s (db w')).

Definition safe (w w' : World) : Prop :=
  records_kept w w' ∧ (consistent w → consistent w').

(** The statuses the specification calls active. *)
Definition active_statuses : list string :=
  ["started"; "waiting_for_agent"; "agent_joined"; "in_progress"; "disconnected"].

Definition in_waiting_set (s : Z) (w : World) : Prop :=
  s ∈ waiting_sessions (manager w).

Definition in_assignment (s : Z) (w : World) : Prop :=
  is_Some (session_agents (manager w) !! s).

Definition non_active (s : Z) (w : World) : Prop :=
  ∃ r, find_session s (db w) = Some r ∧ status r ∉ active_statuses.

(** What a handler has delivered is what its run appended to the outbox. *)
Definition delivered (w w' : World) (extra : list (endpoint * message)) : Prop :=
  outbox w' = (outbox w ++ extra)%list.

Definition has_type (ty : string) (e : endpoint * message) : Prop :=
  msg_type e.2 = Some (JStr ty).

(** Every run of [c] relates the world before to the world after. *)
Definition runs (R : World → World → Prop) {A} (c : M A) : Prop :=
  ∀ w, R w (c w).2.

(** What a relation between worlds needs for the manager's calls to
    respect it: it is a preorder, it does not look at the lock, and the
    transport and the connection book-keeping respect it.  [deliverable]
    says which messages may be sent. *)
Class Frame (R : World → World → Prop) (deliverable : message → Prop) : Prop := {
  frame_refl : ∀ w, R w w;
  frame_trans : ∀ w1 w2 w3, R w1 w2 → R w2 w3 → R w1 w3;
  frame_lock : ∀ b w, R w (set_lock b w);
  frame_send : ∀ to msg, deliverable msg → runs R (send_json to msg);
  frame_disconnect_user : ∀ k, runs R (modify_manager (disconnect_user k));
  frame_disconnect_agent : ∀ e, runs R (modify_manager (disconnect_agent e));
  frame_user_connections : ∀ g, runs R (modify_manager (set_active_connections g));
  frame_agent_connections : ∀ g, runs R (modify_manager (set_agent_connections g));
  frame_recordings : ∀ g, runs R (modify_manager (set_recordings g))
}.

(** The waiting set is left as it was. *)
Definition same_waiting (w w' : World) : Prop :=
  waiting_sessions (manager w') = waiting_sessions (manager w).

(** Everything delivered between [w] and [w'] satisfies [P]. *)
Definition delivers_only (P : endpoint * message → Prop) (w w' : World) : Prop :=
  ∃ extra, delivered w w' extra ∧ Forall P extra.

Definition not_new_waiting (e : endpoint * message) : Prop :=
  ¬ has_type "new_waiting_session" e.

Definition exactly_one (P Q R : Prop) : Prop :=
  (P ∧ ¬ Q ∧ ¬ R) ∨ (¬ P ∧ Q ∧ ¬ R) ∨ (¬ P ∧ ¬ Q ∧ R).

(** ** A run of the server

    One customer, two agents: the customer starts a session, connects and
    signals that it is ready; then either an agent accepts, or the expiry
    timer fires first. *)

Definition after (e : event) (t : Z) (tape : list bool) (w : World) : World :=
  (run e (at_time t tape w)).2.

Definition demo_store : Store :=
  mkStore [mkCustomer 1 "U1" "Asha" "9990001111" "asha@example.org"]
          [mkAgent 1 "E1" "Ravi" "Rao"; mkAgent 2 "E2" "Mira" "Sen"]
          [] [] 1.

Definition agent_E1 : Agent := mkAgent 1 "E1" "Ravi" "Rao".
Definition agent_E2 : Agent := mkAgent 2 "E2" "Mira" "Sen".

Definition demo_started : World :=
  after (StartVkyc "ws://host" "U1") 1 [] (initial_world demo_store).

Definition session_1_started : VKYCSession :=
  mkSession 1 1 None "U1" "started" None (Some 1) None None None None.

Definition demo_connected : World :=
  after (AgentConnects 9 "E2") 4 []
    (after (AgentConnects 8 "E1") 3 []
       (after (UserConnects 7 1) 2 [] demo_started)).

Definition demo_waiting : World :=
  after (UserSends session_1_started CReadyForAgent) 5 [] demo_connected.

Definition session_1_waiting : VKYCSession :=
  mkSession 1 1 None "U1" "waiting_for_agent" None (Some 5) None None None None.

Definition demo_accepted : World :=
  after (AgentSends agent_E1 (AAcceptSession 1)) 6 [] demo_waiting.

Definition demo_expired : World :=
  after (TimerFires 1 305) 305 [] demo_waiting.

Definition demo_left : World :=
  after (UserCloses session_1_waiting) 6 [] demo_waiting.

Definition demo_completed : World :=
  after (UserSends session_1_waiting CKycComplete) 6 [] demo_waiting.

(** The store as accept_session commits it when the agent has joined,
    before anyone is notified and before the status moves on. *)
Definition demo_joined : World :=
  (modify_db (update_session 1
                (λ s, set_agent_assigned_at 6
                        (set_status "agent_joined" (set_agent_id (Some 1) s))))
             (at_time 6 [] demo_waiting)).2.

(** The same accept_session with agent E2's socket broken: the broadcast
    of session_taken fails for E2. *)
Definition demo_accept_stuck : World :=
  after (AgentSends agent_E1 (AAcceptSession 1)) 6 [true; true; true; false] demo_waiting.

(** A customer with two reusable sessions, the older one disconnected. *)
Definition two_sessions_store : Store :=
  mkStore [mkCustomer 1 "U1" "Asha" "9990001111" "asha@example.org"] []
          [mkSession 1 1 None "U1" "disconnected" None (Some 1) None None None None;
           mkSession 3 1 None "U1" "started" None (Some 4) None None None None]
          [] 4.

(** Proof steps for [runs] goals: the calls every frame respects, then
    sequencing and case analysis; [extra] closes what is special to one
    relation. *)
Ltac as_runs :=
  lazymatch goal with
  | |- ?R ?w (snd (?c ?w)) =>
      let H := fresh in assert (H : runs R c); [|exact (H w)]
  end.

(** Closes a decidable goal over closed terms by evaluating its decision
    procedure. *)
Ltac by_compute :=
  unfold in_waiting_set, in_assignment in *;
  lazymatch goal with
  | |- ?P => apply (bool_decide_unpack P); vm_compute; exact I
  end.

(** ** Further vocabulary for the statements *)

Definition with_manager (m : ConnectionManager) (w : World) : World :=
  mkWorld (db w) m (lock_held w) (net w) (clock w) (outbox w) (timers w).

(** Whether the coming [send_json] goes through. *)
Definition next_send_ok (w : World) : bool :=
  match net w with
  | false :: _ => false
  | _ => true
  end.

(** The store is left as it was. *)
Definition same_db (w w' : World) : Prop := db w' = db w.

(** No assignment pair is added. *)
Definition no_new_pairs (w w' : World) : Prop :=
  (∀ a s, agent_sessions (manager w') !! a = Some s →
          agent_sessions (manager w) !! a = Some s)
  ∧ (∀ s a, session_agents (manager w') !! s = Some a →
            session_agents (manager w) !! s = Some a).

Definition status_of (s : Z) (w : World) : option string :=
  status <$> find_session s (db w).

(** The heartbeat updates of one broadcast, key by key. *)
Definition touch_all (t : Z) (keys : list string) (c : gmap string Connection)
    : gmap string Connection :=
  fold_left (λ c k, alter (touch t) k c) keys c.

(** What one broadcast of [msg] delivers. *)
Definition broadcast_of (msg : message) (c : gmap string Connection)
    : list (endpoint * message) :=
  (λ kv, (ToAgent kv.1, msg)) <$> map_to_list c.

(** Between [w] and [w'] only agents' heartbeat times, the transport and
    the outbox have changed. *)
Definition heartbeats_only (w w' : World) : Prop :=
  db w' = db w ∧ lock_held w' = lock_held w
  ∧ timers w' = timers w ∧ clock w' = clock w
  ∧ agent_sessions (manager w') = agent_sessions (manager w)
  ∧ session_agents (manager w') = session_agents (manager w)
  ∧ waiting_sessions (manager w') = waiting_sessions (manager w)
  ∧ active_connections (manager w') = active_connections (manager w)
  ∧ recordings (manager w') = recordings (manager w)
  ∧ (∀ a, is_Some (agent_connections (manager w') !! a)
          ↔ is_Some (agent_connections (manager w) !! a)).


(** Two versions of one row: the key, the customer and the unique id
    agree. *)
Definition same_identity (r r' : VKYCSession) : Prop :=
  id r' = id r ∧ customer_id r' = customer_id r ∧ unique_id r' = unique_id r.

(** The session table as the database keeps it: primary keys are unique
    and below the next key. *)
Definition store_wf (d : Store) : Prop :=
  NoDup (id <$> vkyc_sessions d)
  ∧ Forall (λ r, (id r < next_session_id d)%Z) (vkyc_sessions d).

(** How the store may change: customers and agents are not written, keys
    are handed out upwards, the table stays well formed, and a row that is
    there stays, as the same session of the same customer. *)
Definition grows (d d' : Store) : Prop :=
  customers d' = customers d
  ∧ agents d' = agents d
  ∧ (next_session_id d ≤ next_session_id d')%Z
  ∧ (store_wf d → store_wf d')
  ∧ ∀ s r, find_session s d = Some r →
           ∃ r', find_session s d' = Some r' ∧ same_identity r r'.

Definition store_grows (w w' : World) : Prop := grows (db w) (db w').

(** No recorder holds a frame ([add_frame] has no caller in the server),
    and no session row has a video path. *)
Definition no_frames (m : ConnectionManager) : Prop :=
  ∀ k r, recordings m !! k = Some r → frames r = [].

Definition no_video (d : Store) : Prop :=
  Forall (λ r, video_path r = None) (vkyc_sessions d).

Definition unrecorded (w : World) : Prop := no_frames (manager w) ∧ no_video (db w).

Definition keeps_unrecorded (w w' : World) : Prop := unrecorded w → unrecorded w'.

(** ** schemas.py: the mobile-number validator

    [CustomerCreate.validate_mobile] and [AgentCreate.validate_mobile] have
    the same body.  As above, strings are byte strings: [\d] and [isdigit]
    are the tests for the ASCII digits. *)





(** The lock is free and no send of the coming tape fails. *)
Definition calm (w : World) : Prop := lock_held w = false ∧ false ∉ net w.

(** From a calm world [c] returns, to a calm world. *)
Definition returns_calm {A} (c : M A) : Prop :=
  ∀ w, calm w → is_Some (c w).1 ∧ calm (c w).2.
(** ** Properties *)

(** *** Session ids as dictionary keys *)

Lemma all_digits_string_of_uint (d : Decimal.uint) :
  all_digits (NilEmpty.string_of_uint d) = true.
Proof. induction d; simpl; auto. Qed.

Lemma isdigit_str_nonneg (n : Z) : (0 ≤ n)%Z → isdigit (str n) = true.
Proof.
  intros Hn. unfold str, isdigit.
  destruct n as [|p|p]; [reflexivity| |lia].
  simpl. unfold NilZero.string_of_uint.
  pose proof (all_digits_string_of_uint (Pos.to_uint p)) as Hd.
  destruct (Pos.to_uint p); exact Hd.
Qed.

Lemma int_str_nonneg (n : Z) : (0 ≤ n)%Z → int (str n) = n.
Proof.
  intros Hn. unfold str, int.
  destruct n as [|p|p]; [reflexivity| |lia].
  simpl. unfold NilZero.string_of_uint.
  pose proof (Unsigned.to_uint_nonnil p) as Hnn.
  destruct (Pos.to_uint p) eqn:E; [congruence|..];
    rewrite <- E, NilEmpty.usu; unfold N.of_uint;
    rewrite DecimalPos.Unsigned.of_to; reflexivity.
Qed.

Lemma session_id_int_str (n : Z) : (0 ≤ n)%Z → session_id_int (str n) = Some n.
Proof.
  intros Hn. unfold session_id_int.
  rewrite isdigit_str_nonneg, int_str_nonneg; auto.
Qed.

(** *** The assignment table *)

Lemma assign_agent_to_session_fail (m : ConnectionManager) (a : string) (s : Z) :
  is_Some (agent_sessions m !! a) ∨ is_Some (session_agents m !! s) →
  assign_agent_to_session a s m = (false, m).
Proof.
  intros H. unfold assign_agent_to_session.
  case_bool_decide; [done|]. case_bool_decide; [done|]. tauto.
Qed.

Lemma assign_agent_to_session_ok (m : ConnectionManager) (a : string) (s : Z) :
  agent_sessions m !! a = None → session_agents m !! s = None →
  assign_agent_to_session a s m =
    (true, mkManager (active_connections m) (agent_connections m)
                     (<[a:=s]> (agent_sessions m)) (<[s:=a]> (session_agents m))
                     (waiting_sessions m ∖ {[s]}) (recordings m)).
Proof.
  intros Ha Hs. unfold assign_agent_to_session.
  rewrite Ha, Hs.
  rewrite !bool_decide_eq_false_2 by (intros [? ?]; discriminate).
  reflexivity.
Qed.

Lemma assign_agent_to_session_true (m m' : ConnectionManager) (a : string) (s : Z) :
  assign_agent_to_session a s m = (true, m') →
  agent_sessions m !! a = None ∧ session_agents m !! s = None.
Proof.
  unfold assign_agent_to_session.
  case_bool_decide as Ha; [discriminate|]. case_bool_decide as Hs; [discriminate|].
  intros _. split.
  - destruct (agent_sessions m !! a) eqn:E; [exfalso; eauto|done].
  - destruct (session_agents m !! s) eqn:E; [exfalso; eauto|done].
Qed.

Lemma assign_preserves_inverse (m : ConnectionManager) (a : string) (s : Z) :
  inverse_maps m → inverse_maps (assign_agent_to_session a s m).2.
Proof.
  intros Hinv.
  destruct (agent_sessions m !! a) as [s0|] eqn:Ha.
  { rewrite assign_agent_to_session_fail by eauto. done. }
  destruct (session_agents m !! s) as [a0|] eqn:Hs.
  { rewrite assign_agent_to_session_fail by eauto. done. }
  rewrite assign_agent_to_session_ok by done. simpl.
  intros a' s'. simpl.
  destruct (decide (a' = a)) as [->|Hna], (decide (s' = s)) as [->|Hns];
    rewrite ?lookup_insert_eq, ?lookup_insert_ne by done.
  - done.
  - split; [congruence|]. intros H. apply Hinv in H. congruence.
  - split; [|congruence]. intros H. apply Hinv in H. congruence.
  - apply Hinv.
Qed.

Lemma disconnect_agent_preserves_inverse (m : ConnectionManager) (e : string) :
  inverse_maps m → inverse_maps (disconnect_agent e m).
Proof.
  intros Hinv. unfold disconnect_agent. simpl.
  destruct (agent_sessions m !! e) as [s|] eqn:He; [|exact Hinv].
  intros a' s'. simpl.
  destruct (decide (a' = e)) as [->|Hna], (decide (s' = s)) as [->|Hns];
    rewrite ?lookup_delete_eq, ?lookup_delete_ne by done.
  - done.
  - split; [done|]. intros H. apply Hinv in H. congruence.
  - split; [|done]. intros H. apply Hinv in H.
    apply Hinv in He. congruence.
  - apply Hinv.
Qed.

Lemma release_preserves_inverse (m : ConnectionManager) (e : string) (s : Z) :
  inverse_maps m → agent_sessions m !! e = Some s →
  inverse_maps (set_agent_sessions (delete e) (set_session_agents (delete s) m)).
Proof.
  intros Hinv He a' s'. simpl.
  destruct (decide (a' = e)) as [->|Hna], (decide (s' = s)) as [->|Hns];
    rewrite ?lookup_delete_eq, ?lookup_delete_ne by done.
  - done.
  - split; [done|]. intros H. apply Hinv in H. congruence.
  - split; [|done]. intros H. apply Hinv in H.
    apply Hinv in He. congruence.
  - apply Hinv.
Qed.

Lemma disconnect_user_preserves_inverse (m : ConnectionManager) (k : string) :
  inverse_maps m → inverse_maps (disconnect_user k m).
Proof.
  intros Hinv. unfold disconnect_user. simpl.
  destruct (session_id_int k) as [n|]; [|exact Hinv].
  destruct (negb (n =? 0)%Z); [|exact Hinv].
  destruct (session_agents m !! n) as [a|] eqn:Hn; [|exact Hinv].
  intros a' s'. simpl.
  pose proof (proj2 (Hinv a n) Hn) as Hn'.
  destruct (decide (a' = a)) as [->|Hna], (decide (s' = n)) as [->|Hns];
    rewrite ?lookup_delete_eq, ?lookup_delete_ne by done.
  - done.
  - split; [done|]. intros H. apply Hinv in H. congruence.
  - split; [|done]. intros H. apply Hinv in H. congruence.
  - apply Hinv.
Qed.

Lemma disconnect_user_waiting (m : ConnectionManager) (k : string) :
  waiting_sessions (disconnect_user k m) = waiting_sessions m.
Proof.
  unfold disconnect_user. simpl.
  destruct (session_id_int k) as [n|]; [|done].
  destruct (negb (n =? 0)%Z); [|done].
  destruct (session_agents m !! n); done.
Qed.

Lemma disconnect_agent_waiting (m : ConnectionManager) (e : string) :
  waiting_sessions (disconnect_agent e m) = waiting_sessions m.
Proof.
  unfold disconnect_agent. simpl. destruct (agent_sessions m !! e); done.
Qed.

Lemma disconnect_user_session_agents (m : ConnectionManager) (k : string) (s : Z) :
  is_Some (session_agents (disconnect_user k m) !! s) → is_Some (session_agents m !! s).
Proof.
  unfold disconnect_user. simpl.
  destruct (session_id_int k) as [n|]; [|done].
  destruct (negb (n =? 0)%Z); [|done].
  destruct (session_agents m !! n); [|done]. simpl.
  intros [a Ha]. apply lookup_delete_Some in Ha as [_ Ha]. eauto.
Qed.

Lemma disconnect_agent_session_agents (m : ConnectionManager) (e : string) (s : Z) :
  is_Some (session_agents (disconnect_agent e m) !! s) → is_Some (session_agents m !! s).
Proof.
  unfold disconnect_agent. simpl.
  destruct (agent_sessions m !! e); [|done]. simpl.
  intros [a Ha]. apply lookup_delete_Some in Ha as [_ Ha]. eauto.
Qed.

(** C2. [assign_agent_to_session] returns false and changes nothing when the
    agent already holds an assignment or the session already has one;
    otherwise it returns true, records the pair in both maps and takes the
    session out of the waiting set.  Of two calls in a row for one session,
    at most one returns true. *)
Theorem assign_agent_to_session_exclusive (m : ConnectionManager) (a : string) (s : Z) :
  (is_Some (agent_sessions m !! a) ∨ is_Some (session_agents m !! s) →
     assign_agent_to_session a s m = (false, m))
  ∧ (agent_sessions m !! a = None → session_agents m !! s = None →
     ∃ m', assign_agent_to_session a s m = (true, m')
        ∧ agent_sessions m' = <[a:=s]> (agent_sessions m)
        ∧ session_agents m' = <[s:=a]> (session_agents m)
        ∧ waiting_sessions m' = waiting_sessions m ∖ {[s]}
        ∧ active_connections m' = active_connections m
        ∧ agent_connections m' = agent_connections m
        ∧ recordings m' = recordings m)
  ∧ (∀ a2, ¬ ((assign_agent_to_session a s m).1 = true
              ∧ (assign_agent_to_session a2 s (assign_agent_to_session a s m).2).1 = true)).
Proof.
  split; [apply assign_agent_to_session_fail|]. split.
  - intros Ha Hs. eexists. split; [by apply assign_agent_to_session_ok|]. done.
  - intros a2 [H1 H2].
    destruct (assign_agent_to_session a s m) as [r1 m1] eqn:E1. simpl in *. subst r1.
    pose proof (assign_agent_to_session_true _ _ _ _ E1) as [Ha Hs].
    rewrite assign_agent_to_session_ok in E1 by done. injection E1 as <-.
    rewrite assign_agent_to_session_fail in H2; [discriminate|].
    right. simpl. rewrite lookup_insert_eq. eauto.
Qed.

Lemma assign_agent_to_session_exclusive_witness :
  let taken := mkManager ∅ ∅ {["E1" := 5]} {[5 := "E1"]} ∅ ∅ in
  let free := mkManager ∅ ∅ ∅ ∅ {[5]} ∅ in
  assign_agent_to_session "E2" 5 taken = (false, taken)
  ∧ ∃ m', assign_agent_to_session "E1" 5 free = (true, m')
        ∧ agent_sessions m' = <["E1":=5]> (agent_sessions free)
        ∧ session_agents m' = <[5:="E1"]> (session_agents free)
        ∧ waiting_sessions m' = waiting_sessions free ∖ {[5]}
        ∧ active_connections m' = active_connections free
        ∧ agent_connections m' = agent_connections free
        ∧ recordings m' = recordings free.
Proof.
  intros taken free. split.
  - apply (proj1 (assign_agent_to_session_exclusive taken "E2" 5)).
    right. exists "E1". reflexivity.
  - apply (proj1 (proj2 (assign_agent_to_session_exclusive free "E1" 5)));
      reflexivity.
Defined.

(** *** Disconnecting *)

Lemma disconnect_agent_idempotent (m : ConnectionManager) (e : string) :
  disconnect_agent e (disconnect_agent e m) = disconnect_agent e m.
Proof.
  unfold disconnect_agent. simpl.
  destruct (agent_sessions m !! e) as [s|] eqn:He; simpl.
  - rewrite lookup_delete_eq. unfold set_agent_connections. simpl.
    by rewrite delete_delete_eq.
  - rewrite He. unfold set_agent_connections. simpl. by rewrite delete_delete_eq.
Qed.

Lemma disconnect_user_idempotent (m : ConnectionManager) (k : string) :
  disconnect_user k (disconnect_user k m) = disconnect_user k m.
Proof.
  unfold disconnect_user. simpl.
  destruct (session_id_int k) as [n|]; simpl.
  2:{ unfold set_recordings, set_active_connections. simpl.
      by rewrite !delete_delete_eq. }
  destruct (negb (n =? 0)%Z); simpl.
  2:{ unfold set_recordings, set_active_connections. simpl.
      by rewrite !delete_delete_eq. }
  destruct (session_agents m !! n) as [a|] eqn:Hn; simpl.
  - rewrite lookup_delete_eq.
    unfold set_recordings, set_active_connections. simpl.
    by rewrite !delete_delete_eq.
  - rewrite Hn. unfold set_recordings, set_active_connections. simpl.
    by rewrite !delete_delete_eq.
Qed.

(** The bodies of [disconnect_user] and [disconnect_agent], as they run
    once the lock is theirs: they drop the party's connection entry and
    both directions of the assignment pair the party is in, and a second
    run changes nothing.  Session ids are the positive keys of the store,
    passed as [str(session_id)]. *)
Theorem disconnect_releases_and_is_idempotent (m : ConnectionManager) :
  (∀ n : Z, (0 < n)%Z →
     let m' := disconnect_user (str n) m in
     active_connections m' !! str n = None
     ∧ recordings m' !! str n = None
     ∧ session_agents m' !! n = None
     ∧ (∀ a, session_agents m !! n = Some a → agent_sessions m' !! a = None)
     ∧ (inverse_maps m → ∀ a, agent_sessions m' !! a ≠ Some n)
     ∧ disconnect_user (str n) m' = m')
  ∧ (∀ e : string,
     let m' := disconnect_agent e m in
     agent_connections m' !! e = None
     ∧ agent_sessions m' !! e = None
     ∧ (∀ s, agent_sessions m !! e = Some s → session_agents m' !! s = None)
     ∧ (inverse_maps m → ∀ s, session_agents m' !! s ≠ Some e)
     ∧ disconnect_agent e m' = m').
Proof.
  split.
  - intros n Hn m'.
    assert (Hm' : m' = disconnect_user (str n) m) by done.
    assert (Hrel : session_agents m' !! n = None).
    { subst m'. unfold disconnect_user. rewrite session_id_int_str by lia.
      replace (n =? 0)%Z with false by (symmetry; apply Z.eqb_neq; lia). simpl.
      destruct (session_agents m !! n) eqn:E; simpl; [apply lookup_delete_eq|done]. }
    split; [|split; [|split; [done|split; [|split]]]].
    + subst m'. unfold disconnect_user. rewrite session_id_int_str by lia.
      replace (n =? 0)%Z with false by (symmetry; apply Z.eqb_neq; lia). simpl.
      destruct (session_agents m !! n); simpl; apply lookup_delete_eq.
    + subst m'. unfold disconnect_user. rewrite session_id_int_str by lia.
      replace (n =? 0)%Z with false by (symmetry; apply Z.eqb_neq; lia). simpl.
      destruct (session_agents m !! n); simpl; apply lookup_delete_eq.
    + intros a Ha. subst m'. unfold disconnect_user.
      rewrite session_id_int_str by lia.
      replace (n =? 0)%Z with false by (symmetry; apply Z.eqb_neq; lia). simpl.
      rewrite Ha. simpl. apply lookup_delete_eq.
    + intros Hinv a Ha.
      apply (disconnect_user_preserves_inverse m (str n)) in Hinv.
      rewrite <- Hm' in Hinv. apply Hinv in Ha. congruence.
    + subst m'. apply disconnect_user_idempotent.
  - intros e m'.
    assert (Hm' : m' = disconnect_agent e m) by done.
    assert (Hrel : agent_sessions m' !! e = None).
    { subst m'. unfold disconnect_agent. simpl.
      destruct (agent_sessions m !! e) eqn:E; simpl; [apply lookup_delete_eq|done]. }
    split; [|split; [done|split; [|split]]].
    + subst m'. unfold disconnect_agent. simpl.
      destruct (agent_sessions m !! e); simpl; apply lookup_delete_eq.
    + intros s Hs. subst m'. unfold disconnect_agent. simpl.
      rewrite Hs. simpl. apply lookup_delete_eq.
    + intros Hinv s Hs.
      apply (disconnect_agent_preserves_inverse m e) in Hinv.
      rewrite <- Hm' in Hinv. apply Hinv in Hs. congruence.
    + subst m'. apply disconnect_agent_idempotent.
Qed.

Lemma disconnect_releases_and_is_idempotent_witness :
  let m := mkManager {["7" := mkConnection 1 0 0]} {["E1" := mkConnection 2 0 0]}
                     {["E1" := 7]} {[7 := "E1"]} ∅ ∅ in
  (active_connections (disconnect_user (str 7) m) !! str 7 = None
   ∧ session_agents (disconnect_user (str 7) m) !! 7 = None
   ∧ agent_sessions (disconnect_user (str 7) m) !! "E1" = None
   ∧ (∀ a, agent_sessions (disconnect_user (str 7) m) !! a ≠ Some 7))
  ∧ (agent_connections (disconnect_agent "E1" m) !! "E1" = None
     ∧ session_agents (disconnect_agent "E1" m) !! 7 = None
     ∧ (∀ s, session_agents (disconnect_agent "E1" m) !! s ≠ Some "E1")).
Proof.
  intros m.
  assert (Hinv : inverse_maps m).
  { intros a s. unfold m. simpl. rewrite !lookup_singleton_Some.
    split; intros [<- <-]; done. }
  split.
  - destruct (proj1 (disconnect_releases_and_is_idempotent m) 7 ltac:(lia))
      as (H1 & _ & H3 & H4 & H5 & _).
    split; [exact H1|]. split; [exact H3|]. split; [|exact (H5 Hinv)].
    apply H4. reflexivity.
  - destruct (proj2 (disconnect_releases_and_is_idempotent m) "E1")
      as (H1 & _ & H3 & H4 & _).
    split; [exact H1|]. split; [|exact (H4 Hinv)].
    apply H3. reflexivity.
Defined.

(** *** Running handlers: what every manager call respects *)

Section Frame.
Context {R : World → World → Prop} {deliverable : message → Prop}.
Context `{!Frame R deliverable}.

Lemma runs_ret {A} (a : A) : runs R (ret a).
Proof. intros w. apply frame_refl. Qed.

Lemma runs_bind {A B} (c : M A) (k : A → M B) :
  runs R c → (∀ a, runs R (k a)) → runs R (bind c k).
Proof.
  intros Hc Hk w. unfold bind. specialize (Hc w).
  destruct (c w) as [[a|] w1]; simpl in *; [|done].
  eapply frame_trans; [exact Hc|apply Hk].
Qed.

Lemma runs_get_db : runs R get_db.
Proof. intros w. apply frame_refl. Qed.

Lemma runs_get_manager : runs R get_manager.
Proof. intros w. apply frame_refl. Qed.

Lemma runs_now : runs R now.
Proof. intros w. apply frame_refl. Qed.

Lemma runs_with_lock {A} (body : M A) : runs R body → runs R (with_lock body).
Proof.
  intros Hb w. unfold with_lock.
  destruct (lock_held w); [apply frame_refl|].
  specialize (Hb (set_lock true w)).
  destruct (body (set_lock true w)) as [[a|] w1]; simpl in *.
  - eapply frame_trans; [apply (frame_lock true)|].
    eapply frame_trans; [exact Hb|apply (frame_lock false)].
  - eapply frame_trans; [apply (frame_lock true)|exact Hb].
Qed.

Lemma runs_for_each {A} (l : list A) (f : A → M unit) :
  (∀ x, runs R (f x)) → runs R (for_each l f).
Proof.
  intros Hf. induction l as [|x l IH]; simpl.
  - apply runs_ret.
  - apply runs_bind; [apply Hf|intros _; exact IH].
Qed.

Lemma runs_await_disconnect_user k : runs R (await_disconnect_user k).
Proof. apply runs_with_lock, frame_disconnect_user. Qed.

Lemma runs_await_disconnect_agent e : runs R (await_disconnect_agent e).
Proof. apply runs_with_lock, frame_disconnect_agent. Qed.

Lemma runs_await_connect_user ws k : runs R (await_connect_user ws k).
Proof.
  apply runs_with_lock, runs_bind; [apply runs_now|]. intros t w.
  eapply frame_trans.
  - apply (frame_user_connections (insert k (mkConnection ws t t)) w).
  - exact (frame_recordings (insert k (new_VideoRecorder k))
             (modify_manager (set_active_connections
                                (insert k (mkConnection ws t t))) w).2).
Qed.

Lemma runs_await_connect_agent ws e : runs R (await_connect_agent ws e).
Proof.
  apply runs_with_lock, runs_bind; [apply runs_now|]. intros t.
  apply frame_agent_connections.
Qed.

Lemma runs_send_to_user msg k : deliverable msg → runs R (send_to_user msg k).
Proof.
  intros Hmsg. unfold send_to_user.
  apply runs_bind; [apply runs_get_manager|]. intros m.
  destruct (active_connections m !! k); [|apply runs_ret].
  apply runs_bind; [by apply frame_send|]. intros [|].
  - apply runs_bind; [apply runs_now|]. intros t.
    apply runs_bind; [apply frame_user_connections|]. intros _. apply runs_ret.
  - apply runs_bind; [apply runs_await_disconnect_user|]. intros _. apply runs_ret.
Qed.

Lemma runs_send_to_agent msg e : deliverable msg → runs R (send_to_agent msg e).
Proof.
  intros Hmsg. unfold send_to_agent.
  apply runs_bind; [apply runs_get_manager|]. intros m.
  destruct (agent_connections m !! e); [|apply runs_ret].
  apply runs_bind; [by apply frame_send|]. intros [|].
  - apply runs_bind; [apply runs_now|]. intros t.
    apply runs_bind; [apply frame_agent_connections|]. intros _. apply runs_ret.
  - apply runs_bind; [apply runs_await_disconnect_agent|]. intros _. apply runs_ret.
Qed.

Lemma runs_broadcast_loop msg items acc :
  deliverable msg → runs R (broadcast_loop msg items acc).
Proof.
  intros Hmsg. revert acc. induction items as [|[e c] items IH]; intros acc; simpl.
  - apply runs_ret.
  - apply runs_bind; [by apply frame_send|]. intros [|]; [|apply IH].
    apply runs_bind; [apply runs_now|]. intros t.
    apply runs_bind; [apply frame_agent_connections|]. intros _. apply IH.
Qed.

Lemma runs_broadcast_to_all_agents msg :
  deliverable msg → runs R (broadcast_to_all_agents msg).
Proof.
  intros Hmsg. apply runs_with_lock.
  apply runs_bind; [apply runs_get_manager|]. intros m.
  apply runs_bind; [by apply runs_broadcast_loop|]. intros l.
  apply runs_for_each, runs_await_disconnect_agent.
Qed.

Lemma runs_notify_assigned_agent s msg :
  deliverable msg → runs R (notify_assigned_agent s msg).
Proof.
  intros Hmsg. apply runs_bind; [apply runs_get_manager|]. intros m.
  destruct (session_agents m !! s); [|apply runs_ret].
  apply runs_bind; [by apply runs_send_to_agent|]. intros _. apply runs_ret.
Qed.

Lemma runs_error_message_to e text :
  deliverable [("type", JStr "error"); ("message", JStr text)] →
  runs R (error_message_to e text).
Proof.
  intros Hmsg. apply runs_bind; [by apply runs_send_to_agent|]. intros _.
  apply runs_ret.
Qed.

Lemma runs_stop_recorder k : runs R (stop_recorder k).
Proof.
  apply runs_bind; [apply runs_get_manager|]. intros m.
  apply runs_bind; [apply runs_now|]. intros t.
  destruct (recordings m !! k) as [r|]; [|apply runs_ret].
  destruct (stop_recording t r) as [path r'].
  apply runs_bind; [apply frame_recordings|]. intros _. apply runs_ret.
Qed.

Lemma runs_cleanup_stale_connections timeout : runs R (cleanup_stale_connections timeout).
Proof.
  apply runs_bind; [apply runs_now|]. intros t.
  apply runs_bind.
  - apply runs_with_lock, runs_bind; [apply runs_get_manager|]. intros m.
    apply runs_ret.
  - intros [us ags]. apply runs_bind.
    + apply runs_for_each, runs_await_disconnect_user.
    + intros _. apply runs_for_each, runs_await_disconnect_agent.
Qed.

Lemma runs_websocket_agent_finally agent : runs R (websocket_agent_finally agent).
Proof.
  apply runs_bind; [apply runs_get_manager|]. intros m.
  apply runs_bind; [|intros _; apply runs_await_disconnect_agent].
  destruct (agent_sessions m !! employee_id agent) as [s|]; [|apply runs_ret].
  destruct (negb (s =? 0)%Z); [|apply runs_ret].
  apply runs_bind; [apply runs_stop_recorder|]. intros _. apply runs_ret.
Qed.

Lemma bind_pointwise {A B} (c : M A) (k : A → M B) (w : World) :
  R w (c w).2 →
  (∀ a, (c w).1 = Some a → R (c w).2 (k a (c w).2).2) →
  R w (bind c k w).2.
Proof.
  intros Hc Hk. unfold bind.
  destruct (c w) as [[a|] w1]; simpl in *; [|done].
  eapply frame_trans; [exact Hc|by apply Hk].
Qed.

Lemma runs_after_loop ctl finally :
  runs R finally → runs R (after_loop ctl finally).
Proof. intros Hf. destruct ctl; [apply runs_ret|exact Hf]. Qed.
End Frame.

Ltac runs_step extra :=
  first
  [ apply runs_ret | apply runs_get_db | apply runs_get_manager | apply runs_now
  | apply runs_await_disconnect_user | apply runs_await_disconnect_agent
  | apply runs_await_connect_user | apply runs_await_connect_agent
  | apply runs_send_to_user | apply runs_send_to_agent
  | apply runs_broadcast_to_all_agents | apply runs_notify_assigned_agent
  | apply runs_error_message_to | apply runs_stop_recorder
  | apply runs_cleanup_stale_connections | apply runs_websocket_agent_finally
  | apply frame_send | apply frame_recordings | apply frame_user_connections
  | apply frame_agent_connections
  | extra
  | apply runs_bind; [|intros ?]
  | match goal with
    | |- runs _ (match ?x with _ => _ end) => destruct x
    end ].

Ltac runs_auto extra := repeat (runs_step extra).

(** *** The invariant of the manager and the store *)

Lemma safe_same (w w' : World) :
  db w' = db w → manager w' = manager w → safe w w'.
Proof.
  intros Hd Hm. split; [intros s; by rewrite Hd|].
  unfold consistent. by rewrite Hd, Hm.
Qed.

Lemma safe_manager (w : World) (f : ConnectionManager → ConnectionManager) :
  (inverse_maps (manager w) → inverse_maps (f (manager w))) →
  waiting_sessions (f (manager w)) ⊆ waiting_sessions (manager w) →
  (∀ s, is_Some (session_agents (f (manager w)) !! s) →
        is_Some (session_agents (manager w) !! s)) →
  safe w (modify_manager f w).2.
Proof.
  intros Hinv Hw Hs. split; [by intros ? ?|]. intros [Hi Ht]. split; simpl; [auto|].
  intros s [Hin|Hin]; apply Ht; [left; set_solver|right; auto].
Qed.

Lemma find_session_update (s k : Z) (f : VKYCSession → VKYCSession) (d : Store) :
  (∀ r, id (f r) = id r) →
  find_session s (update_session k f d) =
    (λ r, if (id r =? k)%Z then f r else r) <$> find_session s d.
Proof.
  intros Hf. unfold find_session, update_session. simpl.
  induction (vkyc_sessions d) as [|r l IH]; simpl; [done|].
  destruct (id r =? k)%Z eqn:Ek.
  - rewrite Hf. destruct (id r =? s)%Z; simpl; [by rewrite Ek|exact IH].
  - destruct (id r =? s)%Z; simpl; [by rewrite Ek|exact IH].
Qed.

Lemma safe_db (w : World) (f : Store → Store) :
  (∀ s, is_Some (find_session s (db w)) → is_Some (find_session s (f (db w)))) →
  safe w (modify_db f w).2.
Proof.
  intros Hf. split; [exact Hf|]. intros [Hi Ht]. split; simpl; [done|].
  intros s Hs. apply Hf, Ht, Hs.
Qed.

#[local] Instance safe_frame : Frame safe (λ _, True).
Proof.
  split.
  - intros w. by apply safe_same.
  - intros w1 w2 w3 [H1 H1'] [H2 H2']. split; [intros s Hs; auto|auto].
  - intros b w. by apply safe_same.
  - intros to msg _ w. unfold send_json.
    destruct (net w) as [|[|] rest]; by apply safe_same.
  - intros k w. apply safe_manager.
    + apply disconnect_user_preserves_inverse.
    + by rewrite disconnect_user_waiting.
    + apply disconnect_user_session_agents.
  - intros e w. apply safe_manager.
    + apply disconnect_agent_preserves_inverse.
    + by rewrite disconnect_agent_waiting.
    + apply disconnect_agent_session_agents.
  - intros g w. by apply safe_manager.
  - intros g w. by apply safe_manager.
  - intros g w. by apply safe_manager.
Qed.

Lemma runs_safe_update_session k f :
  (∀ r, id (f r) = id r) → runs safe (modify_db (update_session k f)).
Proof.
  intros Hf w. apply safe_db. intros s [r Hr].
  rewrite find_session_update, Hr by done. simpl. eauto.
Qed.

Lemma runs_safe_add_log l : runs safe (modify_db (add_log l)).
Proof. intros w. by apply safe_db. Qed.

Lemma runs_safe_unwait s :
  runs safe (modify_manager (set_waiting_sessions (λ w, w ∖ {[s]}))).
Proof.
  intros w. apply safe_manager; simpl; [done| |done].
  intros x Hx. by apply elem_of_difference in Hx as [? _].
Qed.

Lemma runs_safe_create_expiry_task s d : runs safe (create_expiry_task s d).
Proof. intros w. by apply safe_same. Qed.

Lemma runs_safe_task_done x : runs safe (task_done x).
Proof. intros w. by apply safe_same. Qed.

Ltac safe_extra :=
  first
  [ exact I
  | apply runs_safe_add_log | apply runs_safe_unwait
  | apply runs_safe_create_expiry_task | apply runs_safe_task_done
  | apply runs_safe_update_session; intros []; repeat case_match; reflexivity ].

Lemma safe_call_add_waiting_session (s : Z) (w : World) :
  is_Some (find_session s (db w)) → safe w (call_add_waiting_session s w).2.
Proof.
  intros Hs. unfold call_add_waiting_session, bind, get_manager, add_waiting_session.
  case_bool_decide; simpl; [by apply safe_same|].
  split; [by intros ? ?|]. intros [Hi Ht]. split; simpl; [done|].
  intros s' [Hin|Hin]; [|apply Ht; by right].
  apply elem_of_union in Hin as [Hin|Hin]; [|apply Ht; by left].
  apply elem_of_singleton in Hin. by subst.
Qed.

Lemma safe_await_assign (e : string) (s : Z) (w : World) :
  is_Some (find_session s (db w)) → safe w (await_assign_agent_to_session e s w).2.
Proof.
  intros Hs. unfold await_assign_agent_to_session, with_lock.
  destruct (lock_held w); [by apply safe_same|].
  unfold bind, get_manager. simpl.
  pose proof (assign_preserves_inverse (manager w) e s) as Hinv.
  destruct (agent_sessions (manager w) !! e) as [s0|] eqn:Ha.
  { rewrite assign_agent_to_session_fail by eauto. by apply safe_same. }
  destruct (session_agents (manager w) !! s) as [a0|] eqn:Hsa.
  { rewrite assign_agent_to_session_fail by eauto. by apply safe_same. }
  rewrite assign_agent_to_session_ok in * by done. simpl in *.
  split; [by intros ? ?|]. intros [Hi Ht]. split; simpl; [auto|].
  intros s' [Hin|Hin]; simpl in Hin.
  - apply Ht. left. by apply elem_of_difference in Hin as [? _].
  - destruct (decide (s' = s)) as [->|Hne]; [done|].
    rewrite lookup_insert_ne in Hin by done. apply Ht. by right.
Qed.

Lemma safe_websocket_vkyc_message (session : VKYCSession) (data : customer_msg) (w : World) :
  is_Some (find_session (id session) (db w)) →
  safe w (websocket_vkyc_message session data w).2.
Proof.
  intros Hs.
  destruct data;
    try (as_runs; unfold websocket_vkyc_message; runs_auto safe_extra; fail).
  (* ready_for_agent: the session goes into the waiting set *)
  unfold websocket_vkyc_message.
    apply bind_pointwise; [apply frame_refl|]. intros t _.
    apply bind_pointwise.
    { apply runs_safe_update_session. by intros []. }
    intros _ _.
    set (w1 := (modify_db _ (now w).2).2).
    assert (Hs1 : is_Some (find_session (id session) (db w1))).
    { subst w1. simpl. destruct Hs as [r Hr].
      rewrite find_session_update, Hr by (by intros []). simpl. eauto. }
  apply bind_pointwise; [by apply safe_call_add_waiting_session|].
  intros added _. as_runs. runs_auto safe_extra.
Qed.

Lemma runs_safe_websocket_vkyc_finally session : runs safe (websocket_vkyc_finally session).
Proof. unfold websocket_vkyc_finally. runs_auto safe_extra. Qed.

Lemma runs_safe_websocket_vkyc_setup ws s : runs safe (websocket_vkyc_setup ws s).
Proof. unfold websocket_vkyc_setup. runs_auto safe_extra. Qed.

Lemma runs_safe_websocket_agent_setup ws e : runs safe (websocket_agent_setup ws e).
Proof. unfold websocket_agent_setup. runs_auto safe_extra. Qed.

Lemma runs_safe_session_expiry_timer s : runs safe (session_expiry_timer s).
Proof. unfold session_expiry_timer. runs_auto safe_extra. Qed.

Lemma find_app_Some {A} (f : A → bool) (l l' : list A) (x : A) :
  find f l = Some x → find f (l ++ l') = Some x.
Proof.
  induction l as [|y l IH]; simpl; [done|]. destruct (f y); auto.
Qed.

Lemma safe_start_vkyc base uid (w : World) : safe w (start_vkyc base uid w).2.
Proof.
  unfold start_vkyc, bind, get_db. simpl.
  destruct (find_customer_by_unique_id uid (db w)) as [c|]; [|by apply safe_same].
  destruct (existing_session (cust_id c) (db w)); [by apply safe_same|].
  simpl. apply (safe_db w (λ _, _)). intros s [r Hr].
  unfold find_session in *. simpl. erewrite find_app_Some by exact Hr. eauto.
Qed.

Lemma safe_websocket_agent_message (agent : Agent) (data : agent_msg) (w : World) :
  safe w (websocket_agent_message agent data w).2.
Proof.
  destruct data as [ |session_id|session_id| | | |session_id| ];
    try (as_runs; unfold websocket_agent_message; runs_auto safe_extra; fail).
  - (* accept_session *)
    unfold websocket_agent_message.
    apply bind_pointwise; [apply frame_refl|]. intros d Hd.
    injection Hd as <-. change (get_db w).2 with w.
    destruct (find_session session_id (db w)) as [session|] eqn:Hs;
      [|as_runs; runs_auto safe_extra].
    destruct (negb (String.eqb (status session) "waiting_for_agent")).
    { as_runs. runs_auto safe_extra. }
    apply bind_pointwise; [apply frame_refl|]. intros m _.
    change (get_manager w).2 with w.
    destruct (bool_decide _).
    { as_runs. runs_auto safe_extra. }
    apply bind_pointwise; [apply safe_await_assign; eauto|].
    intros assigned _. as_runs. runs_auto safe_extra.
  - (* leave_session *)
    unfold websocket_agent_message.
    apply bind_pointwise; [apply frame_refl|]. intros m Hm.
    injection Hm as <-. change (get_manager w).2 with w.
    destruct (not_assigned_to _ _ _) eqn:Hna; [apply frame_refl|].
    apply negb_false_iff, bool_decide_eq_true in Hna.
    apply bind_pointwise; [apply frame_refl|]. intros d Hd.
    injection Hd as <-. change (get_db w).2 with w.
    destruct (find_session session_id (db w)) as [session|] eqn:Hs;
      [|apply frame_refl].
    apply bind_pointwise.
    { apply runs_safe_update_session. by intros []. }
    intros _ _.
    set (w1 := (modify_db _ w).2).
    assert (Hs1 : is_Some (find_session session_id (db w1))).
    { subst w1. simpl. rewrite find_session_update, Hs by (by intros []).
      simpl. eauto. }
    apply bind_pointwise.
    { apply safe_manager; simpl.
      - intros Hi. by apply release_preserves_inverse.
      - done.
      - intros s [a Ha]. apply lookup_delete_Some in Ha as [_ Ha]. eauto. }
    intros _ _.
    apply bind_pointwise; [by apply safe_call_add_waiting_session|].
    intros _ _. as_runs. runs_auto safe_extra.
Qed.

Lemma step_safe (w w' : World) : step w w' → safe w w'.
Proof.
  intros [e t tape w0 Ht He].
  eapply frame_trans; [apply (safe_same w0 (at_time t tape w0)); reflexivity|].
  set (w1 := at_time t tape w0).
  assert (Hdb : db w1 = db w0) by done.
  destruct e; simpl in He; unfold run.
  - apply bind_pointwise; [apply safe_start_vkyc|]. intros; apply frame_refl.
  - as_runs. apply runs_bind; [apply runs_safe_websocket_vkyc_setup|].
    intros; apply runs_ret.
  - apply bind_pointwise.
    + apply safe_websocket_vkyc_message. rewrite Hdb, He. by eexists.
    + intros ctl _. as_runs. apply runs_after_loop, runs_safe_websocket_vkyc_finally.
  - as_runs. apply runs_bind.
    + unfold websocket_vkyc_timeout. runs_auto safe_extra.
    + intros ctl. apply runs_after_loop, runs_safe_websocket_vkyc_finally.
  - as_runs. apply runs_safe_websocket_vkyc_finally.
  - as_runs. apply runs_bind; [apply runs_safe_websocket_agent_setup|].
    intros; apply runs_ret.
  - apply bind_pointwise; [apply safe_websocket_agent_message|].
    intros ctl _. as_runs. apply runs_after_loop, runs_websocket_agent_finally.
  - as_runs. apply runs_bind.
    + unfold websocket_agent_timeout. runs_auto safe_extra.
    + intros ctl. apply runs_after_loop, runs_websocket_agent_finally.
  - as_runs. apply runs_websocket_agent_finally.
  - as_runs. apply runs_bind; [apply runs_safe_task_done|].
    intros _. apply runs_safe_session_expiry_timer.
  - as_runs. apply runs_cleanup_stale_connections.
Qed.

Lemma initial_consistent (d : Store) : consistent (initial_world d).
Proof.
  unfold consistent, initial_world, new_ConnectionManager. split; simpl.
  - intros a s. simpl. by rewrite !lookup_empty.
  - intros s [Hs|[a Ha]]; simpl in *; [set_solver|by rewrite lookup_empty in Ha].
Qed.

Lemma reachable_consistent (d : Store) (w : World) : reachable d w → consistent w.
Proof.
  intros Hr. pose proof (initial_consistent d) as H0.
  unfold reachable in Hr. revert H0.
  induction Hr as [|w1 w2 w3 Hstep _ IH]; [done|].
  intros H1. apply IH. by apply (step_safe _ _ Hstep).
Qed.

Lemma reachable_after (d : Store) (w : World) (e : event) (t : Z) (tape : list bool) :
  reachable d w → (clock w ≤ t)%Z → enabled e t w → reachable d (after e t tape w).
Proof.
  intros Hr Ht He. eapply rtc_r; [exact Hr|]. by apply step_run.
Qed.

Lemma demo_waiting_reachable : reachable demo_store demo_waiting.
Proof.
  unfold demo_waiting, demo_connected, demo_started.
  repeat (apply reachable_after; [|vm_compute; congruence|vm_compute; done]).
  apply rtc_refl.
Qed.

Lemma demo_accepted_reachable : reachable demo_store demo_accepted.
Proof.
  apply reachable_after; [apply demo_waiting_reachable|vm_compute; congruence|].
  vm_compute. reflexivity.
Qed.

Lemma demo_expired_reachable : reachable demo_store demo_expired.
Proof.
  apply reachable_after; [apply demo_waiting_reachable|vm_compute; congruence|].
  split; [|lia]. replace (timers demo_waiting) with [(1, 305)%Z] by (vm_compute; reflexivity).
  apply list_elem_of_here.
Qed.

(** C10. At every reachable state the two assignment maps are inverse to
    each other, and assigning, disconnecting either party and the
    leave_session handler keep them so. *)
Theorem assignment_maps_stay_inverse (d : Store) (w : World) :
  reachable d w →
  inverse_maps (manager w)
  ∧ (∀ a s, inverse_maps (assign_agent_to_session a s (manager w)).2)
  ∧ (∀ k, inverse_maps (disconnect_user k (manager w)))
  ∧ (∀ e, inverse_maps (disconnect_agent e (manager w)))
  ∧ (∀ agent s, inverse_maps
       (manager (websocket_agent_message agent (ALeaveSession s) w).2)).
Proof.
  intros Hr. pose proof (reachable_consistent d w Hr) as [Hi Ht].
  split; [exact Hi|]. split; [|split; [|split]].
  - intros a s. by apply assign_preserves_inverse.
  - intros k. by apply disconnect_user_preserves_inverse.
  - intros e. by apply disconnect_agent_preserves_inverse.
  - intros agent s.
    apply (safe_websocket_agent_message agent (ALeaveSession s) w). by split.
Qed.

Lemma assignment_maps_stay_inverse_witness :
  inverse_maps (manager demo_accepted)
  ∧ agent_sessions (manager demo_accepted) !! "E1" = Some 1
  ∧ session_agents (manager demo_accepted) !! 1 = Some "E1".
Proof.
  assert (Hr : reachable demo_store demo_accepted).
  { apply reachable_after; [|vm_compute; congruence|vm_compute; reflexivity].
    unfold demo_waiting, demo_connected, demo_started.
    repeat (apply reachable_after; [|vm_compute; congruence|vm_compute; done]).
    apply rtc_refl. }
  split.
  - exact (proj1 (assignment_maps_stay_inverse demo_store demo_accepted Hr)).
  - split; vm_compute; reflexivity.
Defined.

(** *** Waiting set, assignment and status *)

Lemma demo_started_reachable : reachable demo_store demo_started.
Proof.
  apply reachable_after; [apply rtc_refl|vm_compute; congruence|done].
Qed.

(** C1, as stated, fails.  After [ready_for_agent] and the expiry timer the
    session is expired and still in the waiting set (two of the three
    conditions); a session that has only been started meets none of them. *)
Lemma placement_counterexample :
  (reachable demo_store demo_expired
   ∧ in_waiting_set 1 demo_expired
   ∧ non_active 1 demo_expired
   ∧ ¬ exactly_one (in_waiting_set 1 demo_expired) (in_assignment 1 demo_expired)
                   (non_active 1 demo_expired))
  ∧ (reachable demo_store demo_started
     ∧ is_Some (find_session 1 (db demo_started))
     ∧ ¬ exactly_one (in_waiting_set 1 demo_started) (in_assignment 1 demo_started)
                     (non_active 1 demo_started)).
Proof.
  assert (Hw : in_waiting_set 1 demo_expired).
  { by_compute. }
  assert (Hn : non_active 1 demo_expired).
  { eexists. split; [vm_compute; reflexivity|].
    by_compute. }
  split.
  - split; [apply demo_expired_reachable|]. split; [exact Hw|]. split; [exact Hn|].
    unfold exactly_one. tauto.
  - split; [apply demo_started_reachable|]. split; [vm_compute; eauto|].
    assert (H1 : ¬ in_waiting_set 1 demo_started).
    { by_compute. }
    assert (H2 : ¬ in_assignment 1 demo_started).
    { intros [a Ha]. vm_compute in Ha. discriminate. }
    assert (H3 : ¬ non_active 1 demo_started).
    { intros (r & Hr & Hst). vm_compute in Hr. injection Hr as <-.
      apply Hst. by_compute. }
    unfold exactly_one. tauto.
Qed.

(** C1, amended.  At every reachable state a session id in the waiting set
    or in an assignment pair has a session record, and no two agents are
    paired with one session; a successful [assign_agent_to_session] leaves
    the session in a pair and out of the waiting set; [disconnect_user]
    leaves the waiting set as it is. *)
Theorem tracked_sessions (d : Store) (w : World) :
  reachable d w →
  (∀ s, in_waiting_set s w ∨ in_assignment s w → is_Some (find_session s (db w)))
  ∧ (∀ s a1 a2, agent_sessions (manager w) !! a1 = Some s →
                agent_sessions (manager w) !! a2 = Some s → a1 = a2)
  ∧ (∀ a s m', assign_agent_to_session a s (manager w) = (true, m') →
               (s ∉ waiting_sessions m') ∧ session_agents m' !! s = Some a)
  ∧ (∀ k, waiting_sessions (disconnect_user k (manager w))
          = waiting_sessions (manager w)).
Proof.
  intros Hr. pose proof (reachable_consistent d w Hr) as [Hi Ht].
  split; [exact Ht|]. split; [|split].
  - intros s a1 a2 H1 H2. apply Hi in H1, H2. congruence.
  - intros a s m' Ha.
    pose proof (assign_agent_to_session_true _ _ _ _ Ha) as [Ha1 Ha2].
    rewrite assign_agent_to_session_ok in Ha by done. injection Ha as <-. simpl.
    split; [|apply lookup_insert_eq].
    intros Hin. apply elem_of_difference in Hin as [_ Hin].
    by apply Hin, elem_of_singleton.
  - intros k. apply disconnect_user_waiting.
Qed.

Lemma tracked_sessions_witness :
  is_Some (find_session 1 (db demo_accepted))
  ∧ (∀ a, agent_sessions (manager demo_accepted) !! a = Some 1 → a = "E1")
  ∧ waiting_sessions (disconnect_user "1" (manager demo_accepted))
    = waiting_sessions (manager demo_accepted).
Proof.
  assert (Hr : reachable demo_store demo_accepted).
  { apply reachable_after; [|vm_compute; congruence|vm_compute; reflexivity].
    unfold demo_waiting, demo_connected, demo_started.
    repeat (apply reachable_after; [|vm_compute; congruence|vm_compute; done]).
    apply rtc_refl. }
  destruct (tracked_sessions demo_store demo_accepted Hr) as (H1 & H2 & _ & H4).
  split; [|split].
  - apply H1. right. exists "E1". vm_compute. reflexivity.
  - intros a Ha. apply (H2 1 a "E1" Ha). vm_compute. reflexivity.
  - apply H4.
Defined.

(** *** The expiry timer *)

(** C6. A timer that fires for a session whose status is neither
    waiting_for_agent nor in_progress changes nothing and delivers nothing. *)
Theorem stale_timer_is_noop (session_id : Z) (w : World) (s : VKYCSession) :
  find_session session_id (db w) = Some s →
  status s ∉ ["waiting_for_agent"; "in_progress"] →
  session_expiry_timer session_id w = (Some tt, w).
Proof.
  intros Hs Hst. unfold session_expiry_timer, bind, get_db. simpl.
  rewrite Hs. by rewrite bool_decide_eq_false_2.
Qed.

Lemma stale_timer_is_noop_witness :
  session_expiry_timer 1 demo_completed = (Some tt, demo_completed).
Proof.
  apply (stale_timer_is_noop 1 demo_completed
           (mkSession 1 1 None "U1" "completed" None (Some 5) None (Some 6) None None)).
  - vm_compute. reflexivity.
  - by_compute.
Defined.

(** *** Heartbeats *)

Lemma heartbeat_changes_nothing (session : VKYCSession) (agent : Agent) (w : World) :
  websocket_vkyc_message session CHeartbeat w = (Some Continue, w)
  ∧ websocket_agent_message agent AHeartbeat w = (Some Continue, w).
Proof. split; reflexivity. Qed.

(** C4, on the code.  A heartbeat that arrives at time 50 leaves the world
    as it is: the customer's connection keeps the timestamp 2 of the last
    message sent to it, the agent's keeps 3.  The handlers say they update
    the timestamp and go on to the next message without doing so. *)
Theorem heartbeat_leaves_timestamp :
  let w := at_time 50 [] demo_connected in
  websocket_vkyc_message session_1_started CHeartbeat w = (Some Continue, w)
  ∧ last_heartbeat <$> active_connections (manager (websocket_vkyc_message
        session_1_started CHeartbeat w).2) !! "1" = Some 2
  ∧ websocket_agent_message agent_E1 AHeartbeat w = (Some Continue, w)
  ∧ last_heartbeat <$> agent_connections (manager (websocket_agent_message
        agent_E1 AHeartbeat w).2) !! "E1" = Some 3.
Proof. vm_compute. repeat split. Qed.

(** *** Agent to customer signaling *)

(** C5, on the code.  Agent E1 holds session 1; agent E2 holds nothing.
    E2's webrtc_offer for session 1 is delivered to the customer and E2
    gets no error, whereas E2's request_document_capture for the same
    session is answered with an error and reaches nobody else. *)
Theorem unassigned_webrtc_is_forwarded :
  let w := at_time 7 [] demo_accepted in
  agent_sessions (manager w) !! "E1" = Some 1
  ∧ agent_sessions (manager w) !! "E2" = None
  ∧ outbox (websocket_agent_message agent_E2 (AWebrtc webrtc_offer 1 (JStr "sdp")) w).2
    = (outbox w ++ [(ToUser "1", [("type", JStr "webrtc_offer"); ("session_id", JInt 1);
                                  ("payload", JStr "sdp")])])%list
  ∧ outbox (websocket_agent_message agent_E2 (ARequestDocumentCapture 1 "pan") w).2
    = (outbox w ++ [(ToAgent "E2", [("type", JStr "error");
                                    ("message", JStr "You are not assigned to this session")])])%list.
Proof. vm_compute. repeat split. Qed.

(** *** Unknown session ids *)

(** C7, on the code.  No session 99 exists.  accept_session for it is
    answered with an error and changes neither the store, the assignment
    maps nor the waiting set; decline_session for it changes nothing
    either, but is answered with nothing at all. *)
Theorem decline_unknown_session_is_silent :
  let w := at_time 7 [] demo_accepted in
  find_session 99 (db w) = None
  ∧ websocket_agent_message agent_E2 (ADeclineSession 99) w = (Some Continue, w)
  ∧ (let w' := (websocket_agent_message agent_E2 (AAcceptSession 99) w).2 in
     outbox w' = (outbox w ++ [(ToAgent "E2", [("type", JStr "error");
                                               ("message", JStr "Session not found")])])%list
     ∧ db w' = db w
     ∧ agent_sessions (manager w') = agent_sessions (manager w)
     ∧ session_agents (manager w') = session_agents (manager w)
     ∧ waiting_sessions (manager w') = waiting_sessions (manager w)).
Proof. vm_compute. repeat split. Qed.


(** *** Starting a session *)

Lemma latest_fold_Some (l : list VKYCSession) (b : VKYCSession) :
  ∃ r, fold_left (λ best s,
                    match best with
                    | None => Some s
                    | Some b => if (id b <? id s)%Z then Some s else Some b
                    end) l (Some b) = Some r
       ∧ (r = b ∨ r ∈ l).
Proof.
  revert b. induction l as [|x l IH]; intros b; simpl.
  - eauto.
  - destruct (id b <? id x)%Z.
    + destruct (IH x) as (r & Hr & [Heq|Hin]); exists r; (split; [exact Hr|]);
        right; [subst r; apply list_elem_of_here|by apply list_elem_of_further].
    + destruct (IH b) as (r & Hr & [Heq|Hin]); exists r; (split; [exact Hr|]);
        [by left|right; by apply list_elem_of_further].
Qed.

Lemma latest_by_id_None (l : list VKYCSession) : latest_by_id l = None → l = [].
Proof.
  destruct l as [|x l]; [done|]. unfold latest_by_id. simpl.
  destruct (latest_fold_Some l x) as (r & Hr & _). rewrite Hr. discriminate.
Qed.

Lemma latest_by_id_cons (x : VKYCSession) (l : list VKYCSession) :
  ∃ r, latest_by_id (x :: l) = Some r ∧ r ∈ x :: l.
Proof.
  unfold latest_by_id. simpl.
  destruct (latest_fold_Some l x) as (r & Hr & [Heq|Hin]); exists r;
    (split; [exact Hr|]).
  - subst r. apply list_elem_of_here.
  - by apply list_elem_of_further.
Qed.

Lemma latest_fold_max (l : list VKYCSession) (b r : VKYCSession) :
  fold_left (λ best s,
               match best with
               | None => Some s
               | Some b => if (id b <? id s)%Z then Some s else Some b
               end) l (Some b) = Some r →
  (id b ≤ id r)%Z ∧ ∀ s, s ∈ l → (id s ≤ id r)%Z.
Proof.
  revert b. induction l as [|x l IH]; intros b; simpl.
  - intros [= <-]. split; [lia|]. intros s Hs. by apply not_elem_of_nil in Hs.
  - destruct (id b <? id x)%Z eqn:E; intros H; apply IH in H as [H1 H2].
    + apply Z.ltb_lt in E. split; [lia|]. intros s Hs.
      apply elem_of_cons in Hs as [->|Hs]; [done|by apply H2].
    + apply Z.ltb_ge in E. split; [done|]. intros s Hs.
      apply elem_of_cons in Hs as [->|Hs]; [lia|by apply H2].
Qed.

(** [order_by(id.desc()).first()] is a row whose id no other row of the
    query exceeds. *)
Lemma latest_by_id_max (l : list VKYCSession) (r : VKYCSession) :
  latest_by_id l = Some r → ∀ s, s ∈ l → (id s ≤ id r)%Z.
Proof.
  destruct l as [|x l]; [discriminate|]. unfold latest_by_id. simpl.
  intros H. apply latest_fold_max in H as [H1 H2]. intros s Hs.
  apply elem_of_cons in Hs as [->|Hs]; [done|by apply H2].
Qed.

Lemma existing_session_max (cid : Z) (d : Store) (r : VKYCSession) :
  existing_session cid d = Some r →
  ∀ s, s ∈ vkyc_sessions d → customer_id s = cid → status s ∈ reusable_statuses →
       (id s ≤ id r)%Z.
Proof.
  unfold existing_session. intros Hr s Hin Hc Hst.
  apply (latest_by_id_max _ r Hr). by apply list_elem_of_filter.
Qed.

Lemma existing_session_Some (cid : Z) (d : Store) (s : VKYCSession) :
  s ∈ vkyc_sessions d → customer_id s = cid → status s ∈ reusable_statuses →
  ∃ r, existing_session cid d = Some r
       ∧ r ∈ vkyc_sessions d ∧ customer_id r = cid ∧ status r ∈ reusable_statuses.
Proof.
  intros Hin Hc Hst. unfold existing_session.
  set (P := λ s : VKYCSession, customer_id s = cid ∧ status s ∈ reusable_statuses).
  assert (Hf : s ∈ filter P (vkyc_sessions d)) by (apply list_elem_of_filter; done).
  destruct (filter P (vkyc_sessions d)) as [|x l] eqn:E; [by apply not_elem_of_nil in Hf|].
  destruct (latest_by_id_cons x l) as (r & Hr & Hrin).
  exists r. split; [exact Hr|].
  rewrite <- E in Hrin. apply list_elem_of_filter in Hrin as [[? ?] ?]. done.
Qed.

Lemma start_vkyc_existing (base uid : string) (w : World) (c : Customer) (r : VKYCSession) :
  find_customer_by_unique_id uid (db w) = Some c →
  existing_session (cust_id c) (db w) = Some r →
  start_vkyc base uid w = (Some (Response (start_response base (id r))), w).
Proof.
  intros Hc Hr. unfold start_vkyc, bind, get_db. simpl. by rewrite Hc, Hr.
Qed.

(** C3, as stated, fails for agent_joined.  The first call creates session 1
    and returns it; once accept_session has committed agent_joined, a
    second call creates session 2 and returns that. *)
Lemma start_vkyc_agent_joined_counterexample :
  (start_vkyc "ws://host" "U1" (at_time 1 [] (initial_world demo_store))).1
    = Some (Response (start_response "ws://host" 1))
  ∧ (∃ s, find_session 1 (db demo_joined) = Some s
          ∧ customer_id s = 1 ∧ status s = "agent_joined"
          ∧ status s ∈ active_statuses)
  ∧ (start_vkyc "ws://host" "U1" (at_time 7 [] demo_joined)).1
    = Some (Response (start_response "ws://host" 2))
  ∧ id <$> vkyc_sessions (db (start_vkyc "ws://host" "U1" (at_time 7 [] demo_joined)).2)
    = [1; 2].
Proof.
  split; [vm_compute; reflexivity|]. split.
  - eexists. split; [vm_compute; reflexivity|]. split; [reflexivity|].
    split; [reflexivity|]. by_compute.
  - split; vm_compute; reflexivity.
Qed.

(** With E2's socket broken the accept_session handler never gets past its
    broadcast: the session stays agent_joined at a state the server
    reaches, and the lock stays taken. *)
Lemma agent_joined_can_persist :
  reachable demo_store demo_accept_stuck
  ∧ status <$> find_session 1 (db demo_accept_stuck) = Some "agent_joined"
  ∧ lock_held demo_accept_stuck = true.
Proof.
  split; [|split; vm_compute; reflexivity].
  apply reachable_after; [apply demo_waiting_reachable|vm_compute; congruence|].
  vm_compute. reflexivity.
Qed.

(** C3, amended.  For a customer with a session whose status is started,
    waiting_for_agent, in_progress or disconnected, start_vkyc returns the
    id of such a session of that customer, the one with the greatest id
    among them, and leaves the world as it is, so a second call returns the
    same id; and for every known customer a call right after another
    returns what that one returned and adds no row. *)
Theorem start_vkyc_reuses_session (base uid : string) (w : World) (c : Customer) :
  find_customer_by_unique_id uid (db w) = Some c →
  (∀ s, s ∈ vkyc_sessions (db w) → customer_id s = cust_id c →
        status s ∈ reusable_statuses →
        ∃ r, r ∈ vkyc_sessions (db w) ∧ customer_id r = cust_id c
             ∧ status r ∈ reusable_statuses
             ∧ (∀ s', s' ∈ vkyc_sessions (db w) → customer_id s' = cust_id c →
                      status s' ∈ reusable_statuses → (id s' ≤ id r)%Z)
             ∧ start_vkyc base uid w = (Some (Response (start_response base (id r))), w))
  ∧ (∀ t tape,
       let first := start_vkyc base uid w in
       ∃ k, first.1 = Some (Response (start_response base k))
            ∧ start_vkyc base uid (at_time t tape first.2)
              = (first.1, at_time t tape first.2)).
Proof.
  intros Hc. split.
  - intros s Hin Hcs Hst.
    destruct (existing_session_Some (cust_id c) (db w) s Hin Hcs Hst)
      as (r & Hr & Hrin & Hrc & Hrs).
    exists r. split; [done|]. split; [done|]. split; [done|].
    split; [exact (existing_session_max (cust_id c) (db w) r Hr)|].
    exact (start_vkyc_existing base uid w c r Hc Hr).
  - intros t tape first.
    destruct (existing_session (cust_id c) (db w)) as [r|] eqn:Hex.
    + exists (id r). subst first.
      rewrite (start_vkyc_existing base uid w c r Hc Hex). simpl.
      split; [done|]. exact (start_vkyc_existing base uid (at_time t tape w) c r Hc Hex).
    + set (new := mkSession (next_session_id (db w)) (cust_id c) None uid "started"
                            None (Some (clock w)) None None None None).
      set (w' := mkWorld (mkStore (customers (db w)) (agents (db w))
                                  (vkyc_sessions (db w) ++ [new]) (vkyc_logs (db w))
                                  (next_session_id (db w) + 1))
                         (manager w) (lock_held w) (net w) (clock w) (outbox w)
                         (timers w)).
      assert (Hfirst : start_vkyc base uid w
                       = (Some (Response (start_response base (id new))), w')).
      { unfold start_vkyc, bind, get_db. simpl. rewrite Hc, Hex. reflexivity. }
      exists (id new). subst first. rewrite Hfirst. simpl. split; [done|].
      apply (start_vkyc_existing base uid (at_time t tape w') c new); [exact Hc|].
      unfold existing_session in *. simpl.
      apply latest_by_id_None in Hex.
      rewrite filter_app, Hex. simpl.
      rewrite filter_cons_True; [done|].
      split; [done|]. by_compute.
Qed.

Lemma start_vkyc_reuses_session_witness :
  (start_vkyc "ws://host" "U1" (initial_world two_sessions_store)).1
  = Some (Response (start_response "ws://host" 3)).
Proof.
  set (w := initial_world two_sessions_store).
  set (s1 := mkSession 1 1 None "U1" "disconnected" None (Some 1) None None None None).
  set (s3 := mkSession 3 1 None "U1" "started" None (Some 4) None None None None).
  assert (Hrows : vkyc_sessions (db w) = [s1; s3]) by reflexivity.
  assert (H3 : s3 ∈ vkyc_sessions (db w)).
  { rewrite Hrows. apply list_elem_of_further, list_elem_of_here. }
  assert (Hst : status s3 ∈ reusable_statuses) by by_compute.
  destruct (proj1 (start_vkyc_reuses_session "ws://host" "U1" w
                     (mkCustomer 1 "U1" "Asha" "9990001111" "asha@example.org")
                     eq_refl)
                  s3 H3 eq_refl Hst)
    as (r & Hin & _ & _ & Hmax & Hrun).
  rewrite Hrun. simpl. rewrite Hrows in Hin.
  apply elem_of_cons in Hin as [->|Hin].
  - specialize (Hmax s3 H3 eq_refl Hst). simpl in Hmax. lia.
  - apply list_elem_of_singleton in Hin. by subst r.
Defined.

(** *** The waiting set as de-duplication gate *)

Lemma same_waiting_manager (w w' : World) :
  waiting_sessions (manager w') = waiting_sessions (manager w) → same_waiting w w'.
Proof. done. Qed.

#[local] Instance same_waiting_frame : Frame same_waiting (λ _, True).
Proof.
  split; unfold runs, same_waiting.
  - done.
  - intros w1 w2 w3 H1 H2. by rewrite H2.
  - done.
  - intros to msg _ w. unfold send_json. by destruct (net w) as [|[|] rest].
  - intros k w. apply disconnect_user_waiting.
  - intros e w. apply disconnect_agent_waiting.
  - done.
  - done.
  - done.
Qed.

Lemma delivers_only_same (P : endpoint * message → Prop) (w w' : World) :
  outbox w' = outbox w → delivers_only P w w'.
Proof.
  intros H. exists []. split; [|constructor].
  unfold delivered. by rewrite H, app_nil_r.
Qed.

#[local] Instance delivers_only_frame (P : endpoint * message → Prop) :
  Frame (delivers_only P) (λ msg, ∀ to, P (to, msg)).
Proof.
  split; unfold runs.
  - intros w. by apply delivers_only_same.
  - intros w1 w2 w3 (e1 & H1 & F1) (e2 & H2 & F2).
    exists (e1 ++ e2)%list. split; [|by apply Forall_app].
    unfold delivered in *. by rewrite H2, H1, app_assoc.
  - intros b w. by apply delivers_only_same.
  - intros to msg Hmsg w. unfold send_json.
    destruct (net w) as [|[|] rest]; simpl;
      try (by apply delivers_only_same);
      (exists [(to, msg)]; split; [done|by repeat constructor]).
  - intros k w. by apply delivers_only_same.
  - intros e w. by apply delivers_only_same.
  - intros g w. by apply delivers_only_same.
  - intros g w. by apply delivers_only_same.
  - intros g w. by apply delivers_only_same.
Qed.

Lemma call_add_waiting_session_run (s : Z) (w : World) :
  call_add_waiting_session s w
  = (Some (add_waiting_session s (manager w)).1,
     (modify_manager (λ _, (add_waiting_session s (manager w)).2) w).2).
Proof.
  unfold call_add_waiting_session, bind, get_manager.
  by destruct (add_waiting_session s (manager w)).
Qed.

Lemma add_waiting_session_present (s : Z) (m : ConnectionManager) :
  s ∈ waiting_sessions m → add_waiting_session s m = (false, m).
Proof. intros H. unfold add_waiting_session. by rewrite bool_decide_eq_true_2. Qed.

Lemma add_waiting_session_absent (s : Z) (m : ConnectionManager) :
  s ∉ waiting_sessions m →
  add_waiting_session s m = (true, set_waiting_sessions (λ w, {[s]} ∪ w) m).
Proof. intros H. unfold add_waiting_session. by rewrite bool_decide_eq_false_2. Qed.

Lemma add_waiting_session_in (s : Z) (m : ConnectionManager) :
  s ∈ waiting_sessions (add_waiting_session s m).2.
Proof.
  unfold add_waiting_session. case_bool_decide; simpl; [done|set_solver].
Qed.

(** After the ready_for_agent turn the session is in the waiting set,
    however the sends went and even when the handler did not come back. *)
Lemma ready_for_agent_waits (session : VKYCSession) (w : World) :
  id session ∈ waiting_sessions (manager (websocket_vkyc_message session CReadyForAgent w).2).
Proof.
  unfold websocket_vkyc_message.
  unfold bind at 1. simpl. unfold bind at 1. simpl.
  unfold bind at 1. rewrite call_add_waiting_session_run.
  set (w1 := (modify_manager _ _).2).
  assert (H1 : id session ∈ waiting_sessions (manager w1))
    by (subst w1; simpl; apply add_waiting_session_in).
  match goal with
  | |- _ ∈ waiting_sessions (manager (?c w1).2) =>
      assert (Hrun : runs same_waiting c)
  end.
  { runs_auto ltac:(first [exact I | intros ?; done]). }
  specialize (Hrun w1). unfold same_waiting in Hrun. by rewrite Hrun.
Qed.

(** When the session is already in the waiting set, the turn delivers no
    new_waiting_session. *)
Lemma ready_for_agent_duplicate (session : VKYCSession) (w : World) :
  id session ∈ waiting_sessions (manager w) →
  delivers_only not_new_waiting w (websocket_vkyc_message session CReadyForAgent w).2.
Proof.
  intros Hin. unfold websocket_vkyc_message.
  unfold bind at 1. simpl. unfold bind at 1. simpl.
  unfold bind at 1. rewrite call_add_waiting_session_run.
  rewrite add_waiting_session_present by done.
  set (w1 := (modify_manager _ _).2).
  eapply frame_trans; [apply (delivers_only_same _ w w1); done|].
  as_runs.
  runs_auto ltac:(first [ intros ? Hty; vm_compute in Hty; discriminate
                        | intros ?; by apply delivers_only_same ]).
Qed.

(** C8. Of two calls of [add_waiting_session] in a row for one session the
    first returns true when the session was not waiting yet, the second
    returns false and changes nothing.  The ready_for_agent handler
    delivers new_waiting_session only when its call returned true, and a
    second ready_for_agent delivers none. *)
Theorem add_waiting_session_dedup (session : VKYCSession) (w : World) :
  let s := id session in
  let first := add_waiting_session s (manager w) in
  let w1 := (websocket_vkyc_message session CReadyForAgent w).2 in
  (s ∉ waiting_sessions (manager w) → first.1 = true)
  ∧ add_waiting_session s first.2 = (false, first.2)
  ∧ (∀ extra, delivered w w1 extra →
              Exists (has_type "new_waiting_session") extra → first.1 = true)
  ∧ (∀ t tape,
       delivers_only not_new_waiting (at_time t tape w1)
         (websocket_vkyc_message session CReadyForAgent (at_time t tape w1)).2).
Proof.
  intros s first w1. split; [|split; [|split]].
  - intros Hs. subst first. by rewrite add_waiting_session_absent.
  - apply add_waiting_session_present, add_waiting_session_in.
  - intros extra Hd Hex.
    destruct (decide (s ∈ waiting_sessions (manager w))) as [Hin|Hout].
    + exfalso.
      destruct (ready_for_agent_duplicate session w Hin) as (extra' & Hd' & Hall).
      fold w1 in Hd'. unfold delivered in *. rewrite Hd in Hd'.
      apply app_inv_head in Hd'. subst extra'.
      apply Exists_exists in Hex as (e & He & Hty).
      rewrite Forall_forall in Hall. by apply (Hall e He).
    + subst first. by rewrite add_waiting_session_absent.
  - intros t tape. apply ready_for_agent_duplicate. simpl.
    apply ready_for_agent_waits.
Qed.

Lemma add_waiting_session_dedup_witness :
  let w := at_time 5 [] demo_connected in
  let w1 := (websocket_vkyc_message session_1_started CReadyForAgent w).2 in
  let sent :=
    [(ToAgent "E1",
      [("type", JStr "new_waiting_session"); ("session_id", JInt 1);
       ("customer_id", JInt 1); ("unique_id", JStr "U1");
       ("customer_name", JStr "Asha"); ("customer_mobile", JStr "9990001111");
       ("started_at", JTime 5)]);
     (ToAgent "E2",
      [("type", JStr "new_waiting_session"); ("session_id", JInt 1);
       ("customer_id", JInt 1); ("unique_id", JStr "U1");
       ("customer_name", JStr "Asha"); ("customer_mobile", JStr "9990001111");
       ("started_at", JTime 5)]);
     (ToUser "1",
      [("type", JStr "waiting_for_agent");
       ("message", JStr "Waiting for an available agent...")])] in
  ((1 ∉ waiting_sessions (manager w)) ∧ (add_waiting_session 1 (manager w)).1 = true)
  ∧ (delivered w w1 sent ∧ (add_waiting_session 1 (manager w)).1 = true)
  ∧ delivers_only not_new_waiting (at_time 6 [] w1)
      (websocket_vkyc_message session_1_started CReadyForAgent (at_time 6 [] w1)).2.
Proof.
  intros w w1 sent.
  pose proof (add_waiting_session_dedup session_1_started w) as (H1 & _ & H3 & H4).
  assert (Hout : 1 ∉ waiting_sessions (manager w)) by by_compute.
  assert (Hd : delivered w w1 sent) by (vm_compute; reflexivity).
  split; [split; [exact Hout|exact (H1 Hout)]|].
  split; [split; [exact Hd|]|exact (H4 6 [])].
  apply (H3 sent); [exact Hd|]. apply Exists_cons_hd. reflexivity.
Defined.

(** ** Further properties of the code *)

(** *** Picking an agent *)

(** [get_available_agent] returns a connected agent that holds no
    session, and returns nothing exactly when every connected agent holds
    one. *)
Theorem get_available_agent_spec (m : ConnectionManager) :
  (∀ a, get_available_agent m = Some a →
        is_Some (agent_connections m !! a) ∧ agent_sessions m !! a = None)
  ∧ (get_available_agent m = None ↔
     ∀ a, is_Some (agent_connections m !! a) → is_Some (agent_sessions m !! a)).
Proof.
  unfold get_available_agent.
  set (free := λ kv : string * Connection, agent_sessions m !! kv.1 = None).
  split.
  - intros a Ha.
    destruct (head (filter free (map_to_list (agent_connections m)))) as [[a' c]|] eqn:Hh;
      [|discriminate].
    simpl in Ha. injection Ha as ->.
    apply head_Some_elem_of in Hh. apply list_elem_of_filter in Hh as [Hfree Hin].
    apply elem_of_map_to_list in Hin. split; [eauto|exact Hfree].
  - split.
    + intros Hn a [c Hc].
      destruct (head (filter free (map_to_list (agent_connections m)))) eqn:Hh;
        [discriminate|].
      apply head_None in Hh.
      destruct (agent_sessions m !! a) eqn:Ha; [eauto|].
      assert (Hin : (a, c) ∈ filter free (map_to_list (agent_connections m))).
      { apply list_elem_of_filter. split; [exact Ha|by apply elem_of_map_to_list]. }
      rewrite Hh in Hin. by apply not_elem_of_nil in Hin.
    + intros Hall.
      destruct (head (filter free (map_to_list (agent_connections m)))) as [[a c]|] eqn:Hh;
        [|done].
      apply head_Some_elem_of in Hh. apply list_elem_of_filter in Hh as [Hfree Hin].
      apply elem_of_map_to_list in Hin.
      destruct (Hall a ltac:(eauto)) as [s Hs]. unfold free in Hfree. simpl in Hfree.
      congruence.
Qed.

Lemma get_available_agent_spec_witness :
  is_Some (agent_connections (manager demo_accepted) !! "E2")
  ∧ agent_sessions (manager demo_accepted) !! "E2" = None.
Proof.
  apply (proj1 (get_available_agent_spec (manager demo_accepted)) "E2").
  vm_compute. reflexivity.
Defined.

(** *** Session ids that are not positive *)

Lemma isdigit_str_negative (n : Z) : (n < 0)%Z → isdigit (str n) = false.
Proof.
  intros Hn. destruct n as [|p|p]; [lia|lia|]. reflexivity.
Qed.

(** [disconnect_user] reads the session id back from its key: this gives
    the id for every id from 0 on and nothing for a negative id, and the
    release is skipped for 0 as well; so for an id that is not positive
    both assignment maps stay as they are. *)
Theorem disconnect_user_nonpositive_keeps_pair (n : Z) (m : ConnectionManager) :
  ((0 ≤ n)%Z → session_id_int (str n) = Some n)
  ∧ ((n < 0)%Z → session_id_int (str n) = None)
  ∧ ((n ≤ 0)%Z →
     agent_sessions (disconnect_user (str n) m) = agent_sessions m
     ∧ session_agents (disconnect_user (str n) m) = session_agents m).
Proof.
  split; [apply session_id_int_str|]. split.
  - intros Hn. unfold session_id_int. by rewrite isdigit_str_negative.
  - intros Hn. unfold disconnect_user.
    destruct (decide (n = 0)) as [->|Hne].
    + rewrite session_id_int_str by lia. done.
    + unfold session_id_int. rewrite isdigit_str_negative by lia. done.
Qed.

Lemma disconnect_user_nonpositive_keeps_pair_witness :
  let m := mkManager ∅ ∅ {["E1" := 0]} {[0 := "E1"]} ∅ ∅ in
  session_id_int (str 12) = Some 12
  ∧ session_id_int (str (-3)) = None
  ∧ session_agents (disconnect_user (str 0) m) = session_agents m.
Proof.
  intros m. split; [|split].
  - exact (proj1 (disconnect_user_nonpositive_keeps_pair 12 m) ltac:(lia)).
  - exact (proj1 (proj2 (disconnect_user_nonpositive_keeps_pair (-3) m)) ltac:(lia)).
  - exact (proj2 (proj2 (proj2 (disconnect_user_nonpositive_keeps_pair 0 m)) ltac:(lia))).
Defined.

(** *** Assigning and releasing *)

(** Releasing undoes assigning on the assignment maps: after a successful
    assignment, disconnecting the agent, or the customer of a session with a
    positive id, puts both maps back as they were.  The waiting set is
    not put back. *)
Theorem assign_then_release (m : ConnectionManager) (a : string) (s : Z) :
  agent_sessions m !! a = None → session_agents m !! s = None →
  let m1 := (assign_agent_to_session a s m).2 in
  (agent_sessions (disconnect_agent a m1) = agent_sessions m
   ∧ session_agents (disconnect_agent a m1) = session_agents m)
  ∧ ((0 < s)%Z →
     agent_sessions (disconnect_user (str s) m1) = agent_sessions m
     ∧ session_agents (disconnect_user (str s) m1) = session_agents m)
  ∧ waiting_sessions (disconnect_agent a m1) = waiting_sessions m ∖ {[s]}.
Proof.
  intros Ha Hs m1. subst m1. rewrite assign_agent_to_session_ok by done. simpl.
  split; [|split].
  - unfold disconnect_agent. simpl. rewrite lookup_insert_eq. simpl.
    rewrite !delete_insert_eq. by rewrite !delete_id.
  - intros Hpos. unfold disconnect_user. rewrite session_id_int_str by lia.
    replace (s =? 0)%Z with false by (symmetry; apply Z.eqb_neq; lia). simpl.
    rewrite lookup_insert_eq. simpl.
    rewrite !delete_insert_eq. by rewrite !delete_id.
  - unfold disconnect_agent. simpl. by rewrite lookup_insert_eq.
Qed.

Lemma assign_then_release_witness :
  let m := manager demo_waiting in
  agent_sessions (disconnect_agent "E1" (assign_agent_to_session "E1" 1 m).2)
  = agent_sessions m
  ∧ session_agents (disconnect_user (str 1) (assign_agent_to_session "E1" 1 m).2)
    = session_agents m.
Proof.
  intros m.
  destruct (assign_then_release m "E1" 1 ltac:(vm_compute; reflexivity)
              ltac:(vm_compute; reflexivity)) as ([H1 _] & H2 & _).
  split; [exact H1|]. apply H2. lia.
Defined.

(** *** Sending to one party *)

Lemma await_free {f : ConnectionManager → ConnectionManager} (w : World) :
  lock_held w = false →
  with_lock (modify_manager f) w
  = (Some tt, mkWorld (db w) (f (manager w)) false (net w) (clock w) (outbox w) (timers w)).
Proof. intros Hl. unfold with_lock. rewrite Hl. reflexivity. Qed.

Lemma with_lock_held {A} (body : M A) (w : World) :
  lock_held w = true → with_lock body w = (None, w).
Proof. intros Hl. unfold with_lock. by rewrite Hl. Qed.

(** [send_to_user]: without a connection entry it returns False and does
    nothing; when the send goes through it returns True, the message is
    delivered and the entry's last_heartbeat becomes the current time;
    when the send raises it returns False after [disconnect_user], with
    nothing delivered. *)
Theorem send_to_user_cases (msg : message) (k : string) (w : World) :
  (active_connections (manager w) !! k = None →
     send_to_user msg k w = (Some false, w))
  ∧ (is_Some (active_connections (manager w) !! k) → next_send_ok w = true →
     send_to_user msg k w
     = (Some true,
        mkWorld (db w)
                (set_active_connections (alter (touch (clock w)) k) (manager w))
                (lock_held w) (tail (net w)) (clock w)
                (outbox w ++ [(ToUser k, msg)]) (timers w)))
  ∧ (is_Some (active_connections (manager w) !! k) → next_send_ok w = false →
     lock_held w = false →
     send_to_user msg k w
     = (Some false,
        mkWorld (db w) (disconnect_user k (manager w)) false (tail (net w)) (clock w)
                (outbox w) (timers w))).
Proof.
  unfold send_to_user, next_send_ok, bind, get_manager, send_json. simpl.
  split; [by intros ->|]. split.
  - intros [c ->] Hok. by destruct (net w) as [|[|] rest].
  - intros [c ->] Hok Hl. destruct (net w) as [|[|] rest]; try discriminate.
    simpl. unfold await_disconnect_user, with_lock. simpl. by rewrite Hl.
Qed.

Lemma send_to_user_cases_witness :
  let msg := [("type", JStr "ping")] in
  send_to_user msg "5" demo_connected = (Some false, demo_connected)
  ∧ (send_to_user msg "1" (at_time 9 [] demo_connected)).1 = Some true
  ∧ active_connections
      (manager (send_to_user msg "1" (at_time 9 [false] demo_accepted)).2) !! "1" = None.
Proof.
  intros msg. split; [|split].
  - apply (proj1 (send_to_user_cases msg "5" demo_connected)). vm_compute. reflexivity.
  - rewrite (proj1 (proj2 (send_to_user_cases msg "1" (at_time 9 [] demo_connected))));
      [reflexivity|vm_compute; eauto|reflexivity].
  - rewrite (proj2 (proj2 (send_to_user_cases msg "1" (at_time 9 [false] demo_accepted))));
      [vm_compute; reflexivity|vm_compute; eauto|reflexivity|vm_compute; reflexivity].
Defined.

(** [send_to_agent] has the same three cases, with [disconnect_agent]. *)
Theorem send_to_agent_cases (msg : message) (e : string) (w : World) :
  (agent_connections (manager w) !! e = None →
     send_to_agent msg e w = (Some false, w))
  ∧ (is_Some (agent_connections (manager w) !! e) → next_send_ok w = true →
     send_to_agent msg e w
     = (Some true,
        mkWorld (db w)
                (set_agent_connections (alter (touch (clock w)) e) (manager w))
                (lock_held w) (tail (net w)) (clock w)
                (outbox w ++ [(ToAgent e, msg)]) (timers w)))
  ∧ (is_Some (agent_connections (manager w) !! e) → next_send_ok w = false →
     lock_held w = false →
     send_to_agent msg e w
     = (Some false,
        mkWorld (db w) (disconnect_agent e (manager w)) false (tail (net w)) (clock w)
                (outbox w) (timers w))).
Proof.
  unfold send_to_agent, next_send_ok, bind, get_manager, send_json. simpl.
  split; [by intros ->|]. split.
  - intros [c ->] Hok. by destruct (net w) as [|[|] rest].
  - intros [c ->] Hok Hl. destruct (net w) as [|[|] rest]; try discriminate.
    simpl. unfold await_disconnect_agent, with_lock. simpl. by rewrite Hl.
Qed.

Lemma send_to_agent_cases_witness :
  let msg := [("type", JStr "ping")] in
  send_to_agent msg "E9" demo_connected = (Some false, demo_connected)
  ∧ (send_to_agent msg "E1" (at_time 9 [] demo_connected)).1 = Some true
  ∧ agent_sessions
      (manager (send_to_agent msg "E1" (at_time 9 [false] demo_accepted)).2) !! "E1" = None.
Proof.
  intros msg. split; [|split].
  - apply (proj1 (send_to_agent_cases msg "E9" demo_connected)). vm_compute. reflexivity.
  - rewrite (proj1 (proj2 (send_to_agent_cases msg "E1" (at_time 9 [] demo_connected))));
      [reflexivity|vm_compute; eauto|reflexivity].
  - rewrite (proj2 (proj2 (send_to_agent_cases msg "E1" (at_time 9 [false] demo_accepted))));
      [vm_compute; reflexivity|vm_compute; eauto|reflexivity|vm_compute; reflexivity].
Defined.

(** *** Broadcasting *)

Lemma touch_all_lookup (t : Z) (keys : list string) (c : gmap string Connection) (k : string) :
  touch_all t keys c !! k
  = if decide (k ∈ keys) then touch t <$> c !! k else c !! k.
Proof.
  unfold touch_all. revert c. induction keys as [|k' keys IH]; intros c.
  - case_decide as Hin; [by apply not_elem_of_nil in Hin|done].
  - simpl. rewrite IH. destruct (decide (k = k')) as [->|Hne].
    + rewrite lookup_alter_eq.
      case_decide; case_decide as Hin'; try done.
      * by destruct (c !! k').
      * exfalso. apply Hin', list_elem_of_here.
      * exfalso. apply Hin', list_elem_of_here.
    + rewrite lookup_alter_ne by done.
      case_decide as Hin; case_decide as Hin'; try done.
      * exfalso. apply Hin'. by apply list_elem_of_further.
      * exfalso. apply elem_of_cons in Hin' as [?|?]; done.
Qed.

Lemma touch_all_map_to_list (t : Z) (c : gmap string Connection) :
  touch_all t (map_to_list c).*1 c = touch t <$> c.
Proof.
  apply map_eq. intros k. rewrite touch_all_lookup, lookup_fmap.
  destruct (decide (k ∈ (map_to_list c).*1)) as [Hin|Hout]; [done|].
  destruct (c !! k) as [x|] eqn:Hk; [|done].
  exfalso. apply Hout. apply list_elem_of_fmap. exists (k, x).
  split; [done|]. by apply elem_of_map_to_list.
Qed.

Lemma broadcast_loop_all_ok (msg : message) (items : list (string * Connection))
    (acc : list string) (w : World) :
  false ∉ take (length items) (net w) →
  broadcast_loop msg items acc w
  = (Some acc,
     mkWorld (db w)
             (set_agent_connections (touch_all (clock w) items.*1) (manager w))
             (lock_held w) (drop (length items) (net w)) (clock w)
             (outbox w ++ ((λ kv, (ToAgent kv.1, msg)) <$> items))%list (timers w)).
Proof.
  revert w. induction items as [|[e c] items IH]; intros w Hok; simpl.
  - destruct w as [d m l n t o ti], m. simpl. by rewrite app_nil_r.
  - unfold bind at 1. unfold send_json.
    destruct (net w) as [|[|] rest] eqn:Hnet; simpl in *.
    + unfold bind at 1. simpl. unfold bind at 1. simpl.
      rewrite IH by (simpl; rewrite take_nil; apply not_elem_of_nil). simpl.
      rewrite drop_nil. by rewrite <- app_assoc.
    + unfold bind at 1. simpl. unfold bind at 1. simpl.
      rewrite IH by (simpl; intros H; apply Hok; by apply list_elem_of_further). simpl.
      by rewrite <- app_assoc.
    + exfalso. apply Hok. apply list_elem_of_here.
Qed.

(** With the lock free and no send failing, [broadcast_to_all_agents]
    returns, delivers the message once to every connected agent and
    nothing else (in some order), sets every agent's last_heartbeat to the
    current time, and leaves the lock free and everything else as it
    was. *)
Theorem broadcast_reaches_every_agent (msg : message) (w : World) :
  lock_held w = false →
  false ∉ take (size (agent_connections (manager w))) (net w) →
  ∃ sent,
    broadcast_to_all_agents msg w
    = (Some tt,
       mkWorld (db w)
               (set_agent_connections (fmap (touch (clock w))) (manager w))
               false (drop (size (agent_connections (manager w))) (net w)) (clock w)
               (outbox w ++ sent)%list (timers w))
    ∧ NoDup sent
    ∧ (∀ e, e ∈ sent ↔
            ∃ a, e = (ToAgent a, msg) ∧ is_Some (agent_connections (manager w) !! a)).
Proof.
  intros Hl Hok. set (sent := broadcast_of msg (agent_connections (manager w))).
  exists sent. split; [|split].
  - unfold broadcast_to_all_agents, with_lock. rewrite Hl.
    unfold bind at 1. simpl. unfold bind at 1.
    rewrite <- length_map_to_list in Hok |- *.
    rewrite broadcast_loop_all_ok by exact Hok.
    unfold set_lock, set_agent_connections. simpl.
    by rewrite touch_all_map_to_list.
  - unfold sent, broadcast_of.
    apply (NoDup_fmap_2_strong _); [|apply NoDup_map_to_list].
    intros [a1 c1] [a2 c2] H1 H2 Heq. simpl in Heq. injection Heq as ->.
    apply elem_of_map_to_list in H1, H2. congruence.
  - intros e. unfold sent, broadcast_of. rewrite list_elem_of_fmap. split.
    + intros ([a c] & -> & Hin). simpl. exists a. split; [done|].
      apply elem_of_map_to_list in Hin. eauto.
    + intros (a & -> & [c Hc]). exists (a, c). split; [done|].
      by apply elem_of_map_to_list.
Qed.

Lemma broadcast_reaches_every_agent_witness :
  let msg := [("type", JStr "session_completed"); ("session_id", JInt 1)] in
  let w := at_time 9 [] demo_connected in
  (broadcast_to_all_agents msg w).1 = Some tt.
Proof.
  intros msg w.
  assert (Hl : lock_held w = false) by reflexivity.
  assert (Hok : false ∉ take (size (agent_connections (manager w))) (net w)).
  { simpl. rewrite take_nil. apply not_elem_of_nil. }
  destruct (broadcast_reaches_every_agent msg w Hl Hok) as (sent & H1 & _).
  by rewrite H1.
Defined.

Lemma heartbeats_only_refl (w : World) : heartbeats_only w w.
Proof. by repeat split. Qed.

Lemma heartbeats_only_trans (w1 w2 w3 : World) :
  heartbeats_only w1 w2 → heartbeats_only w2 w3 → heartbeats_only w1 w3.
Proof.
  intros (A1 & A2 & A3 & A4 & A5 & A6 & A7 & A8 & A9 & A10)
         (B1 & B2 & B3 & B4 & B5 & B6 & B7 & B8 & B9 & B10).
  repeat split; try congruence.
  - intros H. by apply A10, B10.
  - intros H. by apply B10, A10.
Qed.

Lemma broadcast_loop_run (msg : message) (items : list (string * Connection))
    (acc : list string) (w : World) :
  ∃ failed w',
    broadcast_loop msg items acc w = (Some (acc ++ failed)%list, w')
    ∧ heartbeats_only w w'
    ∧ (failed = [] ↔ false ∉ take (length items) (net w)).
Proof.
  revert acc w. induction items as [|[e c] items IH]; intros acc w; simpl.
  - exists [], w. rewrite app_nil_r. split; [done|]. split; [apply heartbeats_only_refl|].
    split; [intros _; apply not_elem_of_nil|done].
  - unfold bind at 1. unfold send_json.
    destruct (net w) as [|[|] rest] eqn:Hnet; simpl.
    + unfold bind at 1. simpl. unfold bind at 1. simpl.
      match goal with |- context [broadcast_loop msg items acc ?w1] =>
        destruct (IH acc w1) as (failed & w' & Hrun & Hh & Hf); set (v := w1) in * end.
      exists failed, w'. split; [exact Hrun|]. split.
      * eapply heartbeats_only_trans; [|exact Hh]. subst v.
        repeat split; simpl; try done; rewrite lookup_alter_is_Some; done.
      * rewrite Hf. subst v. simpl. rewrite !take_nil. done.
    + unfold bind at 1. simpl. unfold bind at 1. simpl.
      match goal with |- context [broadcast_loop msg items acc ?w1] =>
        destruct (IH acc w1) as (failed & w' & Hrun & Hh & Hf); set (v := w1) in * end.
      exists failed, w'. split; [exact Hrun|]. split.
      * eapply heartbeats_only_trans; [|exact Hh]. subst v.
        repeat split; simpl; try done; rewrite lookup_alter_is_Some; done.
      * rewrite Hf. subst v. simpl. rewrite not_elem_of_cons.
        split; [intros HA; split; [discriminate|exact HA]|intros [_ HA]; exact HA].
    + match goal with |- context [broadcast_loop msg items ?acc1 ?w1] =>
        destruct (IH acc1 w1) as (failed & w' & Hrun & Hh & Hf); set (v := w1) in * end.
      exists (e :: failed), w'. split.
      { rewrite Hrun. by rewrite <- app_assoc. }
      split.
      * eapply heartbeats_only_trans; [|exact Hh]. subst v. by repeat split.
      * split; [discriminate|]. intros Hno. exfalso. apply Hno, list_elem_of_here.
Qed.

(** When a send fails during a broadcast, the clean-up that follows asks
    for the manager's lock while the broadcast still holds it: the call does
    not return, the lock stays taken, no agent has been disconnected and no
    assignment released; and from then on no call that takes the lock
    returns. *)
Theorem broadcast_failure_blocks (msg : message) (w : World) :
  lock_held w = false →
  false ∈ take (size (agent_connections (manager w))) (net w) →
  let r := broadcast_to_all_agents msg w in
  r.1 = None
  ∧ lock_held r.2 = true
  ∧ (∀ a, is_Some (agent_connections (manager r.2) !! a)
          ↔ is_Some (agent_connections (manager w) !! a))
  ∧ agent_sessions (manager r.2) = agent_sessions (manager w)
  ∧ session_agents (manager r.2) = session_agents (manager w)
  ∧ (∀ k e s ws,
       await_disconnect_user k r.2 = (None, r.2)
       ∧ await_disconnect_agent e r.2 = (None, r.2)
       ∧ await_assign_agent_to_session e s r.2 = (None, r.2)
       ∧ await_connect_user ws k r.2 = (None, r.2)
       ∧ await_connect_agent ws e r.2 = (None, r.2)).
Proof.
  intros Hl Hfail r.
  assert (Hrun : ∃ w', broadcast_to_all_agents msg w = (None, w')
                       ∧ heartbeats_only (set_lock true w) w').
  { unfold broadcast_to_all_agents, with_lock. rewrite Hl.
    unfold bind at 1. simpl. unfold bind at 1.
    destruct (broadcast_loop_run msg (map_to_list (agent_connections (manager w))) []
                (set_lock true w)) as (failed & w' & Hrun & Hh & Hf).
    simpl in Hrun. rewrite Hrun.
    destruct failed as [|x failed].
    { exfalso. rewrite length_map_to_list in Hf. by apply (proj1 Hf). }
    simpl. unfold bind at 1. unfold await_disconnect_agent at 1.
    rewrite with_lock_held by (by rewrite (proj1 (proj2 Hh))).
    exists w'. by split. }
  destruct Hrun as (w' & Hrun & B1 & B2 & B3 & B4 & B5 & B6 & B7 & B8 & B9 & B10).
  subst r. rewrite Hrun. simpl in *.
  split; [done|]. split; [done|]. split; [exact B10|].
  split; [done|]. split; [done|].
  intros k e s ws.
  unfold await_disconnect_user, await_disconnect_agent, await_assign_agent_to_session,
    await_connect_user, await_connect_agent.
  by rewrite !with_lock_held.
Qed.

Lemma broadcast_failure_blocks_witness :
  let msg := [("type", JStr "session_completed"); ("session_id", JInt 1)] in
  let w := at_time 9 [true; false] demo_accepted in
  (broadcast_to_all_agents msg w).1 = None
  ∧ lock_held (broadcast_to_all_agents msg w).2 = true
  ∧ agent_sessions (manager (broadcast_to_all_agents msg w).2) !! "E1" = Some 1.
Proof.
  intros msg w.
  assert (Hl : lock_held w = false) by (vm_compute; reflexivity).
  assert (Hf : false ∈ take (size (agent_connections (manager w))) (net w)).
  { replace (size (agent_connections (manager w))) with 2%nat by (vm_compute; reflexivity).
    simpl. apply list_elem_of_further, list_elem_of_here. }
  destruct (broadcast_failure_blocks msg w Hl Hf) as (H1 & H2 & _ & H4 & _).
  split; [exact H1|]. split; [exact H2|]. rewrite H4. vm_compute. reflexivity.
Defined.

(** *** The sweep *)

Lemma disconnect_user_fields (k : string) (m : ConnectionManager) :
  active_connections (disconnect_user k m) = delete k (active_connections m)
  ∧ agent_connections (disconnect_user k m) = agent_connections m.
Proof.
  unfold disconnect_user. simpl.
  destruct (session_id_int k) as [n|]; [|done].
  destruct (negb (n =? 0)%Z); [|done].
  by destruct (session_agents m !! n).
Qed.

Lemma disconnect_agent_fields (e : string) (m : ConnectionManager) :
  active_connections (disconnect_agent e m) = active_connections m
  ∧ agent_connections (disconnect_agent e m) = delete e (agent_connections m).
Proof.
  unfold disconnect_agent. simpl. by destruct (agent_sessions m !! e).
Qed.

Lemma disconnect_user_no_new_pair (k : string) (m : ConnectionManager) :
  (∀ s, session_agents m !! s = None → session_agents (disconnect_user k m) !! s = None)
  ∧ (∀ a, agent_sessions m !! a = None → agent_sessions (disconnect_user k m) !! a = None).
Proof.
  unfold disconnect_user. simpl.
  destruct (session_id_int k) as [n|]; [|done].
  destruct (negb (n =? 0)%Z); [|done].
  destruct (session_agents m !! n); [|done]. simpl.
  split; intros x Hx; apply lookup_delete_None; by right.
Qed.

Lemma disconnect_agent_no_new_pair (e : string) (m : ConnectionManager) :
  (∀ s, session_agents m !! s = None → session_agents (disconnect_agent e m) !! s = None)
  ∧ (∀ a, agent_sessions m !! a = None → agent_sessions (disconnect_agent e m) !! a = None).
Proof.
  unfold disconnect_agent. simpl.
  destruct (agent_sessions m !! e); [|done]. simpl.
  split; intros x Hx; apply lookup_delete_None; by right.
Qed.

Lemma for_each_disconnect_user (ks : list string) (w : World) :
  lock_held w = false →
  for_each ks await_disconnect_user w
  = (Some tt, mkWorld (db w) (fold_left (λ m k, disconnect_user k m) ks (manager w))
                      false (net w) (clock w) (outbox w) (timers w)).
Proof.
  revert w. induction ks as [|k ks IH]; intros w Hl; simpl.
  - destruct w. simpl in *. by subst.
  - unfold bind, await_disconnect_user. rewrite await_free by done.
    by rewrite IH.
Qed.

Lemma for_each_disconnect_agent (es : list string) (w : World) :
  lock_held w = false →
  for_each es await_disconnect_agent w
  = (Some tt, mkWorld (db w) (fold_left (λ m e, disconnect_agent e m) es (manager w))
                      false (net w) (clock w) (outbox w) (timers w)).
Proof.
  revert w. induction es as [|e es IH]; intros w Hl; simpl.
  - destruct w. simpl in *. by subst.
  - unfold bind, await_disconnect_agent. rewrite await_free by done.
    by rewrite IH.
Qed.

Lemma disconnect_user_releases (m : ConnectionManager) (n : Z) :
  (0 < n)%Z →
  session_agents (disconnect_user (str n) m) !! n = None
  ∧ (∀ a, session_agents m !! n = Some a →
          agent_sessions (disconnect_user (str n) m) !! a = None).
Proof.
  intros Hn. unfold disconnect_user. rewrite session_id_int_str by lia.
  replace (n =? 0)%Z with false by (symmetry; apply Z.eqb_neq; lia). simpl.
  destruct (session_agents m !! n) as [a|] eqn:E; simpl.
  - split; [apply lookup_delete_eq|]. intros a' [= <-]. apply lookup_delete_eq.
  - split; [done|]. intros a' Ha. discriminate.
Qed.

Lemma fold_disconnect_user (ks : list string) (m : ConnectionManager) :
  let m' := fold_left (λ m k, disconnect_user k m) ks m in
  (∀ k, active_connections m' !! k
        = if decide (k ∈ ks) then None else active_connections m !! k)
  ∧ agent_connections m' = agent_connections m
  ∧ waiting_sessions m' = waiting_sessions m
  ∧ (inverse_maps m → inverse_maps m')
  ∧ (∀ s, session_agents m !! s = None → session_agents m' !! s = None)
  ∧ (∀ a, agent_sessions m !! a = None → agent_sessions m' !! a = None)
  ∧ (∀ n, (0 < n)%Z → str n ∈ ks → session_agents m' !! n = None).
Proof.
  revert m. induction ks as [|k0 ks IH]; intros m; cbn [fold_left].
  - do 6 (split; [done|]). intros n _ Hin. by apply not_elem_of_nil in Hin.
  - destruct (IH (disconnect_user k0 m)) as (I1 & I2 & I3 & I4 & I5 & I6 & I7).
    destruct (disconnect_user_fields k0 m) as [F1 F2].
    destruct (disconnect_user_no_new_pair k0 m) as [N1 N2].
    split; [|split; [|split; [|split; [|split; [|split]]]]].
    + intros k. rewrite I1, F1. destruct (decide (k = k0)) as [->|Hne].
      * rewrite lookup_delete_eq.
        rewrite (decide_True _ _ (list_elem_of_here k0 ks)). by case_decide.
      * rewrite lookup_delete_ne by done.
        case_decide as Hin; case_decide as Hin'; try done.
        -- exfalso. apply Hin'. by apply list_elem_of_further.
        -- exfalso. apply elem_of_cons in Hin' as [?|?]; done.
    + by rewrite I2, F2.
    + by rewrite I3, disconnect_user_waiting.
    + intros Hi. by apply I4, disconnect_user_preserves_inverse.
    + intros s Hs. by apply I5, N1.
    + intros a Ha. by apply I6, N2.
    + intros n Hn Hin. apply elem_of_cons in Hin as [Heq|Hin]; [|by apply I7].
      apply I5. rewrite <- Heq.
      by apply (proj1 (disconnect_user_releases m n Hn)).
Qed.

Lemma disconnect_agent_releases (m : ConnectionManager) (e : string) :
  agent_sessions (disconnect_agent e m) !! e = None.
Proof.
  unfold disconnect_agent. simpl.
  destruct (agent_sessions m !! e) eqn:E; simpl; [apply lookup_delete_eq|done].
Qed.

Lemma fold_disconnect_agent (es : list string) (m : ConnectionManager) :
  let m' := fold_left (λ m e, disconnect_agent e m) es m in
  (∀ e, agent_connections m' !! e
        = if decide (e ∈ es) then None else agent_connections m !! e)
  ∧ active_connections m' = active_connections m
  ∧ waiting_sessions m' = waiting_sessions m
  ∧ (inverse_maps m → inverse_maps m')
  ∧ (∀ s, session_agents m !! s = None → session_agents m' !! s = None)
  ∧ (∀ a, agent_sessions m !! a = None → agent_sessions m' !! a = None)
  ∧ (∀ e, e ∈ es → agent_sessions m' !! e = None).
Proof.
  revert m. induction es as [|e0 es IH]; intros m; cbn [fold_left].
  - do 6 (split; [done|]). intros n Hin. by apply not_elem_of_nil in Hin.
  - destruct (IH (disconnect_agent e0 m)) as (I1 & I2 & I3 & I4 & I5 & I6 & I7).
    destruct (disconnect_agent_fields e0 m) as [F1 F2].
    destruct (disconnect_agent_no_new_pair e0 m) as [N1 N2].
    split; [|split; [|split; [|split; [|split; [|split]]]]].
    + intros e. rewrite I1, F2. destruct (decide (e = e0)) as [->|Hne].
      * rewrite lookup_delete_eq.
        rewrite (decide_True _ _ (list_elem_of_here e0 es)). by case_decide.
      * rewrite lookup_delete_ne by done.
        case_decide as Hin; case_decide as Hin'; try done.
        -- exfalso. apply Hin'. by apply list_elem_of_further.
        -- exfalso. apply elem_of_cons in Hin' as [?|?]; done.
    + by rewrite I2, F1.
    + by rewrite I3, disconnect_agent_waiting.
    + intros Hi. by apply I4, disconnect_agent_preserves_inverse.
    + intros s Hs. by apply I5, N1.
    + intros a Ha. by apply I6, N2.
    + intros e Hin. apply elem_of_cons in Hin as [->|Hin]; [|by apply I7].
      apply I6, disconnect_agent_releases.
Qed.

Lemma stale_keys (t timeout : Z) (c : gmap string Connection) (k : string) :
  k ∈ (filter (λ kv, stale t timeout kv = true) (map_to_list c)).*1
  ↔ ∃ x, c !! k = Some x ∧ (timeout < t - last_heartbeat x)%Z.
Proof.
  rewrite list_elem_of_fmap. split.
  - intros ([k' x] & -> & Hin). apply list_elem_of_filter in Hin as [Hst Hin].
    apply elem_of_map_to_list in Hin. exists x. split; [done|].
    unfold stale in Hst. simpl in *. lia.
  - intros (x & Hx & Hlt). exists (k, x). split; [done|].
    apply list_elem_of_filter. split; [|by apply elem_of_map_to_list].
    unfold stale. simpl. by apply Z.ltb_lt.
Qed.

(** With the lock free, one round of [cleanup_stale_connections] removes
    exactly the connections whose last_heartbeat is more than the timeout
    ago (an age equal to the timeout stays), releases the assignment of
    every evicted agent and of every evicted customer with a positive
    session id, keeps the maps inverse, and touches neither the store, the
    waiting set nor the outbox. *)
Theorem cleanup_evicts_the_stale (timeout : Z) (w : World) :
  lock_held w = false →
  ∃ m',
    cleanup_stale_connections timeout w
    = (Some tt, mkWorld (db w) m' false (net w) (clock w) (outbox w) (timers w))
    ∧ (∀ k, active_connections m' !! k
            = match active_connections (manager w) !! k with
              | Some c => if (timeout <? clock w - last_heartbeat c)%Z
                          then None else Some c
              | None => None
              end)
    ∧ (∀ e, agent_connections m' !! e
            = match agent_connections (manager w) !! e with
              | Some c => if (timeout <? clock w - last_heartbeat c)%Z
                          then None else Some c
              | None => None
              end)
    ∧ (∀ e c, agent_connections (manager w) !! e = Some c →
              (timeout < clock w - last_heartbeat c)%Z →
              agent_sessions m' !! e = None)
    ∧ (∀ n c, (0 < n)%Z → active_connections (manager w) !! str n = Some c →
              (timeout < clock w - last_heartbeat c)%Z →
              session_agents m' !! n = None)
    ∧ waiting_sessions m' = waiting_sessions (manager w)
    ∧ (inverse_maps (manager w) → inverse_maps m').
Proof.
  intros Hl.
  set (t := clock w).
  set (users := (filter (λ kv, stale t timeout kv = true)
                        (map_to_list (active_connections (manager w)))).*1).
  set (ags := (filter (λ kv, stale t timeout kv = true)
                      (map_to_list (agent_connections (manager w)))).*1).
  set (m1 := fold_left (λ m k, disconnect_user k m) users (manager w)).
  set (m' := fold_left (λ m e, disconnect_agent e m) ags m1).
  exists m'.
  destruct (fold_disconnect_user users (manager w))
    as (U1 & U2 & U3 & U4 & U5 & U6 & U7).
  destruct (fold_disconnect_agent ags m1) as (G1 & G2 & G3 & G4 & G5 & G6 & G7).
  fold m1 in U1, U2, U3, U4, U5, U6, U7. fold m' in G1, G2, G3, G4, G5, G6, G7.
  split; [|split; [|split; [|split; [|split; [|split]]]]].
  - unfold cleanup_stale_connections.
    unfold bind at 1. simpl. unfold bind at 1.
    unfold with_lock. rewrite Hl. simpl.
    unfold bind at 1.
    rewrite for_each_disconnect_user by done. simpl.
    by rewrite for_each_disconnect_agent.
  - intros k. rewrite G2, U1.
    destruct (active_connections (manager w) !! k) as [c|] eqn:Hk.
    + destruct (timeout <? t - last_heartbeat c)%Z eqn:Hst.
      * rewrite decide_True; [done|]. apply stale_keys. exists c. split; [done|].
        by apply Z.ltb_lt.
      * rewrite decide_False; [done|]. intros Hin. apply stale_keys in Hin as (x & Hx & Hlt).
        apply Z.ltb_ge in Hst. simplify_eq. lia.
    + by case_decide.
  - intros e. rewrite G1, U2.
    destruct (agent_connections (manager w) !! e) as [c|] eqn:He.
    + destruct (timeout <? t - last_heartbeat c)%Z eqn:Hst.
      * rewrite decide_True; [done|]. apply stale_keys. exists c. split; [done|].
        by apply Z.ltb_lt.
      * rewrite decide_False; [done|]. intros Hin. apply stale_keys in Hin as (x & Hx & Hlt).
        apply Z.ltb_ge in Hst. simplify_eq. lia.
    + by case_decide.
  - intros e c He Hlt. apply G7, stale_keys. eauto.
  - intros n c Hn Hk Hlt. apply G5, U7; [done|]. apply stale_keys. eauto.
  - by rewrite G3, U3.
  - intros Hi. by apply G4, U4.
Qed.

Lemma cleanup_evicts_the_stale_witness :
  let w := at_time 70 [] demo_accepted in
  (cleanup_stale_connections 60 w).1 = Some tt
  ∧ active_connections (manager (cleanup_stale_connections 60 w).2) !! "1" = None
  ∧ session_agents (manager (cleanup_stale_connections 60 w).2) !! 1 = None.
Proof.
  intros w.
  destruct (cleanup_evicts_the_stale 60 w ltac:(vm_compute; reflexivity))
    as (m' & Hrun & H1 & _ & _ & H4 & _).
  rewrite Hrun. simpl. split; [done|]. split.
  - rewrite H1. vm_compute. reflexivity.
  - apply (H4 1 (mkConnection 7 6 2)); [lia|vm_compute; reflexivity|vm_compute; reflexivity].
Defined.

(** *** Stepping through a handler *)

Lemma bind_ret {A B} (a : A) (k : A → M B) (w : World) : bind (ret a) k w = k a w.
Proof. reflexivity. Qed.

Lemma bind_get_manager {B} (k : ConnectionManager → M B) (w : World) :
  bind get_manager k w = k (manager w) w.
Proof. reflexivity. Qed.

Lemma bind_get_db {B} (k : Store → M B) (w : World) : bind get_db k w = k (db w) w.
Proof. reflexivity. Qed.

Lemma bind_now {B} (k : Z → M B) (w : World) : bind now k w = k (clock w) w.
Proof. reflexivity. Qed.

Lemma bind_modify_db {B} (f : Store → Store) (k : unit → M B) (w : World) :
  bind (modify_db f) k w
  = k tt (mkWorld (f (db w)) (manager w) (lock_held w) (net w) (clock w) (outbox w)
                  (timers w)).
Proof. reflexivity. Qed.

Lemma bind_modify_manager {B} (f : ConnectionManager → ConnectionManager)
    (k : unit → M B) (w : World) :
  bind (modify_manager f) k w = k tt (with_manager (f (manager w)) w).
Proof. reflexivity. Qed.

Lemma bind_call_add_waiting_session {B} (s : Z) (k : bool → M B) (w : World) :
  bind (call_add_waiting_session s) k w
  = k (add_waiting_session s (manager w)).1
      (with_manager (add_waiting_session s (manager w)).2 w).
Proof. unfold bind at 1. by rewrite call_add_waiting_session_run. Qed.

#[local] Instance same_db_frame : Frame same_db (λ _, True).
Proof.
  split; unfold runs, same_db; try done.
  - intros w1 w2 w3 H1 H2. by rewrite H2.
  - intros to msg _ w. unfold send_json. by destruct (net w) as [|[|] rest].
Qed.

Lemma disconnect_user_pairs (k : string) (m : ConnectionManager) :
  (∀ a s, agent_sessions (disconnect_user k m) !! a = Some s →
          agent_sessions m !! a = Some s)
  ∧ (∀ s a, session_agents (disconnect_user k m) !! s = Some a →
            session_agents m !! s = Some a).
Proof.
  unfold disconnect_user. simpl.
  destruct (session_id_int k) as [n|]; [|done].
  destruct (negb (n =? 0)%Z); [|done].
  destruct (session_agents m !! n); [|done]. simpl.
  split; intros x y Hxy; by apply lookup_delete_Some in Hxy as [_ ?].
Qed.

Lemma disconnect_agent_pairs (e : string) (m : ConnectionManager) :
  (∀ a s, agent_sessions (disconnect_agent e m) !! a = Some s →
          agent_sessions m !! a = Some s)
  ∧ (∀ s a, session_agents (disconnect_agent e m) !! s = Some a →
            session_agents m !! s = Some a).
Proof.
  unfold disconnect_agent. simpl.
  destruct (agent_sessions m !! e); [|done]. simpl.
  split; intros x y Hxy; by apply lookup_delete_Some in Hxy as [_ ?].
Qed.

#[local] Instance no_new_pairs_frame : Frame no_new_pairs (λ _, True).
Proof.
  split; unfold runs, no_new_pairs; try done.
  - intros w1 w2 w3 [H1 H1'] [H2 H2']. split; eauto.
  - intros to msg _ w. unfold send_json. by destruct (net w) as [|[|] rest].
  - intros k w. apply disconnect_user_pairs.
  - intros e w. apply disconnect_agent_pairs.
Qed.

Lemma runs_create_expiry_task_same_db s d : runs same_db (create_expiry_task s d).
Proof. done. Qed.

Lemma runs_create_expiry_task_same_waiting s d : runs same_waiting (create_expiry_task s d).
Proof. done. Qed.

Lemma runs_create_expiry_task_no_new_pairs s d : runs no_new_pairs (create_expiry_task s d).
Proof. done. Qed.

Lemma runs_modify_db_same_waiting f : runs same_waiting (modify_db f).
Proof. done. Qed.

Lemma runs_modify_db_no_new_pairs f : runs no_new_pairs (modify_db f).
Proof. done. Qed.

Ltac quiet_extra :=
  first
  [ exact I
  | apply runs_create_expiry_task_same_db
  | apply runs_create_expiry_task_same_waiting
  | apply runs_create_expiry_task_no_new_pairs
  | apply runs_modify_db_same_waiting
  | apply runs_modify_db_no_new_pairs ].

(** What the rest of a handler, from world [w] on, cannot change. *)
Ltac tail_facts w Hdb Hwait Hpairs :=
  lazymatch goal with
  | |- context [snd (?c w)] =>
      assert (Hdb : same_db w (snd (c w)))
        by (as_runs; runs_auto quiet_extra);
      assert (Hwait : same_waiting w (snd (c w)))
        by (as_runs; runs_auto quiet_extra);
      assert (Hpairs : no_new_pairs w (snd (c w)))
        by (as_runs; runs_auto quiet_extra)
  end.

(** *** leave_session *)

(** An agent that leaves the session it holds, whatever happens to the
    messages: the session is in the waiting set and the pair is gone from
    both maps.  A leave_session for any other session does nothing at
    all. *)
Theorem leave_session_requeues (agent : Agent) (s : Z) (w : World) :
  (agent_sessions (manager w) !! employee_id agent = Some s →
   is_Some (find_session s (db w)) →
   let w' := (websocket_agent_message agent (ALeaveSession s) w).2 in
   s ∈ waiting_sessions (manager w')
   ∧ agent_sessions (manager w') !! employee_id agent = None
   ∧ session_agents (manager w') !! s = None)
  ∧ (agent_sessions (manager w) !! employee_id agent ≠ Some s →
     websocket_agent_message agent (ALeaveSession s) w = (Some Continue, w)).
Proof.
  split.
  - intros Ha [r Hr] w'. subst w'.
    unfold websocket_agent_message.
    rewrite bind_get_manager. unfold not_assigned_to.
    rewrite bool_decide_eq_true_2 by done. cbn [negb].
    rewrite bind_get_db, Hr.
    rewrite bind_modify_db, bind_modify_manager, bind_call_add_waiting_session.
    match goal with |- context [snd (_ ?v)] => set (w3 := v) end.
    tail_facts w3 Hdb Hwait Hpairs.
    unfold same_waiting in Hwait. destruct Hpairs as [Hp1 Hp2].
    rewrite Hwait.
    split; [apply add_waiting_session_in|].
    split.
    + destruct (agent_sessions (manager (snd _)) !! employee_id agent) as [x|] eqn:E;
        [|done].
      apply Hp1 in E. subst w3. unfold add_waiting_session in E.
      case_bool_decide; simpl in E; by rewrite lookup_delete_eq in E.
    + destruct (session_agents (manager (snd _)) !! s) as [x|] eqn:E; [|done].
      apply Hp2 in E. subst w3. unfold add_waiting_session in E.
      case_bool_decide; simpl in E; by rewrite lookup_delete_eq in E.
  - intros Hna. unfold websocket_agent_message.
    rewrite bind_get_manager. unfold not_assigned_to.
    by rewrite bool_decide_eq_false_2.
Qed.

Lemma leave_session_requeues_witness :
  let w := at_time 9 [false; false] demo_accepted in
  1 ∈ waiting_sessions (manager (websocket_agent_message agent_E1 (ALeaveSession 1) w).2)
  ∧ websocket_agent_message agent_E2 (ALeaveSession 1) w = (Some Continue, w).
Proof.
  intros w.
  destruct (proj1 (leave_session_requeues agent_E1 1 w)
              ltac:(vm_compute; reflexivity) ltac:(vm_compute; eauto))
    as (H1 & _).
  split; [exact H1|].
  apply (proj2 (leave_session_requeues agent_E2 1 w)). vm_compute. discriminate.
Defined.

(** *** Requests that are turned down *)

Lemma await_assign_cases (e : string) (s : Z) (w : World) :
  (lock_held w = true → await_assign_agent_to_session e s w = (None, w))
  ∧ (lock_held w = false →
     await_assign_agent_to_session e s w
     = (Some (assign_agent_to_session e s (manager w)).1,
        mkWorld (db w) (assign_agent_to_session e s (manager w)).2 false (net w)
                (clock w) (outbox w) (timers w))).
Proof.
  unfold await_assign_agent_to_session. split; intros Hl.
  - by apply with_lock_held.
  - unfold with_lock. rewrite Hl. unfold bind, get_manager. simpl.
    by destruct (assign_agent_to_session e s (manager w)).
Qed.

Ltac only_errors :=
  first [ intros ?; reflexivity
        | intros ?; by apply delivers_only_same ].

Lemma rejected_tail {A} (c : M A) (w : World) :
  runs (delivers_only (has_type "error")) c → runs same_db c →
  runs same_waiting c → runs no_new_pairs c →
  delivers_only (has_type "error") w (c w).2
  ∧ db (c w).2 = db w
  ∧ waiting_sessions (manager (c w).2) = waiting_sessions (manager w)
  ∧ no_new_pairs w (c w).2.
Proof. intros H1 H2 H3 H4. repeat split; [apply H1|apply H2|apply H3|apply H4..]. Qed.

(** accept_session never gives an agent a second session and never takes
    a session that has an agent: when the session does not exist, or the
    agent already holds a session, or the session already has an agent,
    all it can deliver is an error message; the store and the waiting set
    stay as they are and no pair is added. *)
Theorem accept_session_rejects (agent : Agent) (s : Z) (w : World) :
  find_session s (db w) = None
  ∨ is_Some (agent_sessions (manager w) !! employee_id agent)
  ∨ is_Some (session_agents (manager w) !! s) →
  let w' := (websocket_agent_message agent (AAcceptSession s) w).2 in
  delivers_only (has_type "error") w w'
  ∧ db w' = db w
  ∧ waiting_sessions (manager w') = waiting_sessions (manager w)
  ∧ no_new_pairs w w'.
Proof.
  intros Hcase w'.
  assert (Hno : ¬ (∃ r, find_session s (db w) = Some r ∧ status r = "waiting_for_agent"
                        ∧ agent_sessions (manager w) !! employee_id agent = None
                        ∧ session_agents (manager w) !! s = None)).
  { intros (r & Hr & _ & Ha & Hs).
    destruct Hcase as [Hn|[[x Hx]|[x Hx]]]; congruence. }
  clear Hcase. subst w'. unfold websocket_agent_message.
  rewrite bind_get_db.
  destruct (find_session s (db w)) as [r|] eqn:Hr.
  2:{ apply rejected_tail; runs_auto ltac:(first [quiet_extra | only_errors]). }
  destruct (String.eqb (status r) "waiting_for_agent") eqn:Hst; cbn [negb].
  2:{ apply rejected_tail; runs_auto ltac:(first [quiet_extra | only_errors]). }
  apply String.eqb_eq in Hst.
  rewrite bind_get_manager. case_bool_decide as Hag.
  { apply rejected_tail; runs_auto ltac:(first [quiet_extra | only_errors]). }
  assert (Ha : agent_sessions (manager w) !! employee_id agent = None).
  { destruct (agent_sessions (manager w) !! employee_id agent) eqn:E; [|done].
    exfalso. apply Hag. eauto. }
  destruct (session_agents (manager w) !! s) as [a0|] eqn:Hsa.
  2:{ exfalso. apply Hno. eauto 10. }
  match goal with |- context [snd ?t] => remember t as res eqn:Hres end.
  unfold bind at 1 in Hres. destruct (lock_held w) eqn:Hl.
  - rewrite (proj1 (await_assign_cases _ _ _) Hl) in Hres. subst res. simpl.
    repeat split; try done. by apply delivers_only_same.
  - rewrite (proj2 (await_assign_cases _ _ _) Hl) in Hres.
    rewrite assign_agent_to_session_fail in Hres by eauto. cbn [fst snd negb] in Hres.
    replace (mkWorld (db w) (manager w) false (net w) (clock w) (outbox w) (timers w))
      with w in Hres by (destruct w; simpl in *; by subst).
    subst res.
    apply rejected_tail; runs_auto ltac:(first [quiet_extra | only_errors]).
Qed.

Lemma accept_session_rejects_witness :
  let w := at_time 9 [] demo_accepted in
  let w' := (websocket_agent_message agent_E2 (AAcceptSession 1) w).2 in
  delivers_only (has_type "error") w w' ∧ db w' = db w.
Proof.
  intros w w'.
  assert (Hcase : find_session 1 (db w) = None
                  ∨ is_Some (agent_sessions (manager w) !! employee_id agent_E2)
                  ∨ is_Some (session_agents (manager w) !! 1)).
  { right. right. vm_compute. eauto. }
  destruct (accept_session_rejects agent_E2 1 w Hcase) as (H1 & H2 & _).
  by split.
Defined.

(** *** decline_session and the expiry timer *)

Lemma find_session_updated (s : Z) (f : VKYCSession → VKYCSession) (d : Store)
    (r : VKYCSession) :
  (∀ x, id (f x) = id x) → find_session s d = Some r →
  find_session s (update_session s f d) = Some (f r).
Proof.
  intros Hf Hr. rewrite find_session_update, Hr by done. simpl.
  unfold find_session in Hr. apply find_some in Hr as [_ Hid]. by rewrite Hid.
Qed.

(** decline_session asks neither who holds the session nor what its
    status is: for every session that exists, whoever sends it, the
    session is out of the waiting set afterwards, whatever happens to the
    messages; no pair is added. *)
Theorem decline_session_declines (agent : Agent) (s : Z) (w : World) :
  is_Some (find_session s (db w)) →
  let w' := (websocket_agent_message agent (ADeclineSession s) w).2 in
  (s ∉ waiting_sessions (manager w'))
  ∧ no_new_pairs w w'.
Proof.
  intros [r Hr] w'. subst w'. unfold websocket_agent_message.
  rewrite bind_get_db, Hr.
  rewrite bind_modify_manager, bind_modify_db.
  match goal with |- context [snd (_ ?v)] => set (w2 := v) end.
  tail_facts w2 Hdb Hwait Hpairs.
  unfold same_waiting in Hwait. rewrite Hwait.
  split.
  - subst w2. simpl. intros Hin. apply elem_of_difference in Hin as [_ Hin].
    by apply Hin, elem_of_singleton.
  - destruct Hpairs as [H1 H2]. split; intros x y Hxy; [by apply H1 in Hxy|by apply H2 in Hxy].
Qed.

Lemma decline_session_declines_witness :
  let w := at_time 9 [false] demo_waiting in
  1 ∉ waiting_sessions (manager (websocket_agent_message agent_E2 (ADeclineSession 1) w).2).
Proof.
  intros w.
  exact (proj1 (decline_session_declines agent_E2 1 w ltac:(vm_compute; eauto))).
Defined.

(** A timer that fires for a session that is waiting_for_agent or
    in_progress makes it expired, whatever happens to the messages, and
    delivers nothing but session_expired notices. *)
Theorem expiry_timer_expires (s : Z) (w : World) (r : VKYCSession) :
  find_session s (db w) = Some r →
  status r ∈ ["waiting_for_agent"; "in_progress"] →
  let w' := (session_expiry_timer s w).2 in
  status_of s w' = Some "expired"
  ∧ delivers_only (has_type "session_expired") w w'.
Proof.
  intros Hr Hst w'. subst w'. unfold session_expiry_timer.
  rewrite bind_get_db, Hr. rewrite bool_decide_eq_true_2 by done.
  rewrite bind_modify_db.
  match goal with |- context [snd (_ ?v)] => set (w1 := v) end.
  split.
  - assert (Hdb : same_db w1 (snd ((do! send_to_user
                [("type", JStr "session_expired");
                 ("message", JStr "Session expired. Please retry.")] (str s)
              in do! broadcast_to_all_agents
                       [("type", JStr "session_expired"); ("session_id", JInt s)]
                 in await_disconnect_user (str s)) w1)))
      by (as_runs; runs_auto quiet_extra).
    unfold status_of. unfold same_db in Hdb. rewrite Hdb. subst w1. simpl.
    by rewrite (find_session_updated s _ _ r) by (done || by intros []).
  - eapply frame_trans; [apply (delivers_only_same _ w w1); done|].
    as_runs. runs_auto ltac:(first [intros ?; reflexivity]).
Qed.

Lemma expiry_timer_expires_witness :
  let w := at_time 305 [true; false] demo_waiting in
  status_of 1 (session_expiry_timer 1 w).2 = Some "expired".
Proof.
  intros w.
  refine (proj1 (expiry_timer_expires 1 w session_1_waiting _ _)).
  - vm_compute. reflexivity.
  - by_compute.
Defined.

(** *** The end of a customer connection *)

Lemma websocket_vkyc_finally_run (session : VKYCSession) (w : World) (r : VKYCSession) :
  lock_held w = false → find_session (id session) (db w) = Some r →
  let w1 := mkWorld (db w) (disconnect_user (str (id session)) (manager w)) false
                    (net w) (clock w) (outbox w) (timers w) in
  websocket_vkyc_finally session w
  = if String.eqb (status r) "in_progress"
    then modify_db (update_session (id session) (set_status "disconnected")) w1
    else (Some tt, w1).
Proof.
  intros Hl Hr w1. unfold websocket_vkyc_finally. cbv zeta.
  unfold bind at 1. unfold await_disconnect_user. rewrite await_free by done.
  fold w1. rewrite bind_get_db.
  replace (db w1) with (db w) by done. rewrite Hr. by destruct (String.eqb _ _).
Qed.

(** The [finally] block of the customer loop, with the lock free: the
    connection entry and the recorder are dropped as by [disconnect_user];
    the waiting set and the outbox are not touched, so a customer who drops
    while waiting stays in the waiting set.  With the lock taken the block
    does not return and changes nothing. *)
Theorem websocket_vkyc_finally_effect (session : VKYCSession) (w : World) (r : VKYCSession) :
  find_session (id session) (db w) = Some r →
  (lock_held w = false →
   let res := websocket_vkyc_finally session w in
   res.1 = Some tt
   ∧ manager res.2 = disconnect_user (str (id session)) (manager w)
   ∧ waiting_sessions (manager res.2) = waiting_sessions (manager w)
   ∧ outbox res.2 = outbox w)
  ∧ (lock_held w = true → websocket_vkyc_finally session w = (None, w)).
Proof.
  intros Hr. split.
  - intros Hl res.
    set (w1 := mkWorld (db w) (disconnect_user (str (id session)) (manager w)) false
                       (net w) (clock w) (outbox w) (timers w)).
    assert (Heq : res = if String.eqb (status r) "in_progress"
                        then modify_db (update_session (id session)
                                          (set_status "disconnected")) w1
                        else (Some tt, w1))
      by (by apply websocket_vkyc_finally_run).
    rewrite Heq. clear Heq res.
    destruct (String.eqb (status r) "in_progress"); simpl;
      (split; [done|]; split; [done|]; split; [apply disconnect_user_waiting|done]).
  - intros Hl. unfold websocket_vkyc_finally, bind, await_disconnect_user.
    by rewrite with_lock_held.
Qed.

Lemma websocket_vkyc_finally_effect_witness :
  waiting_sessions (manager (websocket_vkyc_finally session_1_waiting
                               (at_time 9 [] demo_waiting)).2)
  = waiting_sessions (manager (at_time 9 [] demo_waiting)).
Proof.
  refine (proj1 (proj2 (proj2 (proj1
            (websocket_vkyc_finally_effect session_1_waiting (at_time 9 [] demo_waiting)
               session_1_waiting _) _)))); [vm_compute; reflexivity|reflexivity].
Defined.

(** *** Creating a session *)

(** [start_vkyc] for an unknown unique id answers 404 and changes
    nothing.  For a customer with no session in one of the four reusable
    statuses it appends one row (status started, started now, the next key
    of the table), advances the key counter by one, returns that key, and
    touches nothing else. *)
Theorem start_vkyc_creates (base uid : string) (w : World) :
  (find_customer_by_unique_id uid (db w) = None →
   start_vkyc base uid w = (Some (HTTPException 404 "Customer not found"), w))
  ∧ (∀ c, find_customer_by_unique_id uid (db w) = Some c →
          (∀ s, s ∈ vkyc_sessions (db w) → customer_id s = cust_id c →
                status s ∉ reusable_statuses) →
          let k := next_session_id (db w) in
          start_vkyc base uid w
          = (Some (Response (start_response base k)),
             mkWorld (mkStore (customers (db w)) (agents (db w))
                              (vkyc_sessions (db w)
                               ++ [mkSession k (cust_id c) None uid "started" None
                                             (Some (clock w)) None None None None])
                              (vkyc_logs (db w)) (k + 1))
                     (manager w) (lock_held w) (net w) (clock w) (outbox w) (timers w))).
Proof.
  split.
  - intros Hc. unfold start_vkyc. rewrite bind_get_db. by rewrite Hc.
  - intros c Hc Hnone k. unfold start_vkyc. rewrite bind_get_db, Hc.
    assert (Hex : existing_session (cust_id c) (db w) = None).
    { unfold existing_session.
      assert (Hnil : filter (λ s, customer_id s = cust_id c ∧ status s ∈ reusable_statuses)
                            (vkyc_sessions (db w)) = []).
      { apply elem_of_nil_inv. intros s Hin.
        apply list_elem_of_filter in Hin as [[Hcs Hst] Hin]. by apply (Hnone s). }
      by rewrite Hnil. }
    rewrite Hex. reflexivity.
Qed.

Lemma start_vkyc_creates_witness :
  (start_vkyc "ws://host" "nobody" demo_accepted).1
  = Some (HTTPException 404 "Customer not found")
  ∧ (start_vkyc "ws://host" "U1" (at_time 400 [] demo_expired)).1
    = Some (Response (start_response "ws://host" 2)).
Proof.
  split.
  - rewrite (proj1 (start_vkyc_creates "ws://host" "nobody" demo_accepted));
      [reflexivity|vm_compute; reflexivity].
  - rewrite (proj2 (start_vkyc_creates "ws://host" "U1" (at_time 400 [] demo_expired))
               (mkCustomer 1 "U1" "Asha" "9990001111" "asha@example.org")).
    + vm_compute. reflexivity.
    + vm_compute. reflexivity.
    + intros s Hin Hc.
      replace (vkyc_sessions (db (at_time 400 [] demo_expired)))
        with [mkSession 1 1 None "U1" "expired" None (Some 5) None None None None] in Hin
        by (vm_compute; reflexivity).
      apply list_elem_of_singleton in Hin. subst s. by_compute.
Defined.

(** *** The session table over a run *)

Lemma grows_refl (d : Store) : grows d d.
Proof. do 4 (split; [done|]). intros s r Hr. by exists r. Qed.

Lemma grows_trans (d1 d2 d3 : Store) : grows d1 d2 → grows d2 d3 → grows d1 d3.
Proof.
  intros (Hc1 & Ha1 & Hn1 & Hw1 & Hf1) (Hc2 & Ha2 & Hn2 & Hw2 & Hf2).
  split; [congruence|]. split; [congruence|]. split; [lia|]. split; [auto|].
  intros s r Hr. destruct (Hf1 s r Hr) as (r1 & Hr1 & Hi1 & Hj1 & Hk1).
  destruct (Hf2 s r1 Hr1) as (r2 & Hr2 & Hi2 & Hj2 & Hk2).
  exists r2. split; [done|]. repeat split; congruence.
Qed.

Lemma grows_update_session (k : Z) (f : VKYCSession → VKYCSession) (d : Store) :
  (∀ r, same_identity r (f r)) → grows d (update_session k f d).
Proof.
  intros Hf. split; [done|]. split; [done|]. split; [simpl; lia|]. split.
  - intros [Hnd Hlt]. split; simpl.
    + replace (id <$> map (λ s, if (id s =? k)%Z then f s else s) (vkyc_sessions d))
        with (id <$> vkyc_sessions d); [done|].
      clear Hnd Hlt. induction (vkyc_sessions d) as [|r l IH]; simpl; [done|].
      f_equal; [|exact IH]. destruct (id r =? k)%Z; [by destruct (Hf r)|done].
    + clear Hnd. induction Hlt as [|r l Hr Hl IH]; simpl; constructor; [|exact IH].
      destruct (id r =? k)%Z; [|done]. destruct (Hf r) as [-> _]. done.
  - intros s r Hr. rewrite find_session_update, Hr by (intros r0; by destruct (Hf r0)).
    simpl. eexists; split; [done|]. destruct (id r =? k)%Z; [apply Hf|done].
Qed.

Lemma grows_add_session (mk : Z → VKYCSession) (d : Store) :
  (∀ k, id (mk k) = k) → grows d (add_session mk d).2.
Proof.
  intros Hmk. split; [done|]. split; [done|]. split; [simpl; lia|]. split.
  - intros [Hnd Hlt]. split; simpl.
    + rewrite fmap_app. simpl. rewrite Hmk. apply NoDup_app. split; [done|].
      split; [|apply NoDup_singleton].
      intros x Hx Hx'. apply list_elem_of_singleton in Hx'. subst x.
      apply list_elem_of_fmap in Hx as (r & Hr & Hin).
      rewrite Forall_forall in Hlt. specialize (Hlt r Hin). lia.
    + apply Forall_app. split.
      * eapply Forall_impl; [exact Hlt|]. simpl. intros; lia.
      * constructor; [|constructor]. rewrite Hmk. lia.
  - intros s r Hr. exists r. split; [|done].
    unfold find_session in *. simpl. by apply find_app_Some.
Qed.

Lemma store_grows_same (w w' : World) : db w' = db w → store_grows w w'.
Proof. unfold store_grows. intros ->. apply grows_refl. Qed.

#[local] Instance store_grows_frame : Frame store_grows (λ _, True).
Proof.
  split; unfold runs; try (intros; by apply store_grows_same).
  - intros w1 w2 w3. apply grows_trans.
  - intros to msg _ w. apply store_grows_same. unfold send_json.
    by destruct (net w) as [|[|] rest].
Qed.

Lemma runs_grows_modify_manager f : runs store_grows (modify_manager f).
Proof. intros w. by apply store_grows_same. Qed.

Lemma runs_grows_call_add_waiting_session s :
  runs store_grows (call_add_waiting_session s).
Proof. intros w. apply store_grows_same. by rewrite call_add_waiting_session_run. Qed.

Lemma runs_grows_await_assign e s :
  runs store_grows (await_assign_agent_to_session e s).
Proof.
  intros w. apply store_grows_same.
  unfold await_assign_agent_to_session, with_lock.
  destruct (lock_held w); [done|]. unfold bind, get_manager. simpl.
  by destruct (assign_agent_to_session e s (manager w)) as [[|] m].
Qed.

Lemma runs_grows_create_expiry_task s d : runs store_grows (create_expiry_task s d).
Proof. intros w. by apply store_grows_same. Qed.

Lemma runs_grows_task_done x : runs store_grows (task_done x).
Proof. intros w. by apply store_grows_same. Qed.

Lemma runs_grows_add_log l : runs store_grows (modify_db (add_log l)).
Proof.
  intros w. unfold store_grows. simpl. do 2 (split; [done|]).
  split; [simpl; lia|]. split; [done|]. intros s r Hr. by exists r.
Qed.

Lemma runs_grows_update_session k f :
  (∀ r, same_identity r (f r)) → runs store_grows (modify_db (update_session k f)).
Proof. intros Hf w. by apply grows_update_session. Qed.

Ltac grows_extra :=
  first
  [ exact I
  | apply runs_grows_add_log | apply runs_grows_modify_manager
  | apply runs_grows_call_add_waiting_session | apply runs_grows_await_assign
  | apply runs_grows_create_expiry_task | apply runs_grows_task_done
  | apply runs_grows_update_session; intros []; repeat case_match; done ].

Lemma grows_start_vkyc base uid (w : World) : store_grows w (start_vkyc base uid w).2.
Proof.
  unfold start_vkyc, bind, get_db. simpl.
  destruct (find_customer_by_unique_id uid (db w)) as [c|]; [|by apply store_grows_same].
  destruct (existing_session (cust_id c) (db w)); [by apply store_grows_same|].
  simpl. unfold store_grows. simpl.
  by apply (grows_add_session (λ k, mkSession k _ _ _ _ _ _ _ _ _ _)).
Qed.

Lemma runs_grows_websocket_vkyc_message session data :
  runs store_grows (websocket_vkyc_message session data).
Proof. destruct data; unfold websocket_vkyc_message; runs_auto grows_extra. Qed.

Lemma runs_grows_websocket_agent_message agent data :
  runs store_grows (websocket_agent_message agent data).
Proof. destruct data; unfold websocket_agent_message; runs_auto grows_extra. Qed.

Lemma runs_grows_websocket_vkyc_finally session :
  runs store_grows (websocket_vkyc_finally session).
Proof. unfold websocket_vkyc_finally. runs_auto grows_extra. Qed.

Lemma step_grows (w w' : World) : step w w' → store_grows w w'.
Proof.
  intros [e t tape w0 Ht He].
  eapply frame_trans; [apply (store_grows_same w0 (at_time t tape w0)); reflexivity|].
  destruct e; unfold run.
  - apply bind_pointwise; [apply grows_start_vkyc|]. intros; apply frame_refl.
  - as_runs. unfold websocket_vkyc_setup. runs_auto grows_extra.
  - as_runs. apply runs_bind; [apply runs_grows_websocket_vkyc_message|].
    intros ctl. apply runs_after_loop, runs_grows_websocket_vkyc_finally.
  - as_runs. apply runs_bind.
    + unfold websocket_vkyc_timeout. runs_auto grows_extra.
    + intros ctl. apply runs_after_loop, runs_grows_websocket_vkyc_finally.
  - as_runs. apply runs_grows_websocket_vkyc_finally.
  - as_runs. unfold websocket_agent_setup. runs_auto grows_extra.
  - as_runs. apply runs_bind; [apply runs_grows_websocket_agent_message|].
    intros ctl. apply runs_after_loop, runs_websocket_agent_finally.
  - as_runs. apply runs_bind.
    + unfold websocket_agent_timeout. runs_auto grows_extra.
    + intros ctl. apply runs_after_loop, runs_websocket_agent_finally.
  - as_runs. apply runs_websocket_agent_finally.
  - as_runs. apply runs_bind; [apply runs_grows_task_done|].
    intros _. unfold session_expiry_timer. runs_auto grows_extra.
  - as_runs. apply runs_cleanup_stale_connections.
Qed.

Lemma steps_after (w0 w : World) (e : event) (t : Z) (tape : list bool) :
  rtc step w0 w → (clock w ≤ t)%Z → enabled e t w → rtc step w0 (after e t tape w).
Proof.
  intros Hr Ht He. eapply rtc_r; [exact Hr|]. by apply step_run.
Qed.

(** Over any number of steps of the session machinery (start_vkyc, the
    two socket handlers with their set-up and [finally] blocks, the expiry
    timer, the sweep), from any state: customers and agents are not
    written; session keys are handed out upwards; if the keys of the
    session table were unique and below the next key they still are; and
    every session row that existed still exists under its key, for the
    same customer and with the same unique id.  None of these steps
    deletes a row or moves a session to another customer. *)
Theorem session_rows_persist (w w' : World) :
  rtc step w w' →
  customers (db w') = customers (db w)
  ∧ agents (db w') = agents (db w)
  ∧ (next_session_id (db w) ≤ next_session_id (db w'))%Z
  ∧ (store_wf (db w) → store_wf (db w'))
  ∧ ∀ s r, find_session s (db w) = Some r →
           ∃ r', find_session s (db w') = Some r' ∧ same_identity r r'.
Proof.
  intros Hsteps. change (store_grows w w').
  induction Hsteps as [w|w1 w2 w3 Hstep _ IH]; [apply grows_refl|].
  eapply grows_trans; [exact (step_grows _ _ Hstep)|exact IH].
Qed.

Lemma session_rows_persist_witness :
  store_wf (db demo_waiting)
  ∧ ∃ r', find_session 1 (db demo_waiting) = Some r'
          ∧ same_identity session_1_started r'.
Proof.
  assert (Hsteps : rtc step (initial_world demo_store) demo_waiting)
    by exact demo_waiting_reachable.
  assert (Hstep : rtc step demo_started demo_waiting).
  { unfold demo_waiting, demo_connected.
    do 4 (apply steps_after; [|vm_compute; congruence|vm_compute; done]).
    apply rtc_refl. }
  split.
  - apply (proj1 (proj2 (proj2 (proj2 (session_rows_persist _ _ Hsteps))))).
    split; [constructor|constructor].
  - apply (proj2 (proj2 (proj2 (proj2 (session_rows_persist _ _ Hstep)))) 1).
    vm_compute. reflexivity.
Defined.

(** *** Sends that go through *)

Lemma send_to_user_quiet (msg : message) (k : string) (w : World) :
  is_Some (active_connections (manager w) !! k) → net w = [] →
  send_to_user msg k w
  = (Some true,
     mkWorld (db w) (set_active_connections (alter (touch (clock w)) k) (manager w))
             (lock_held w) [] (clock w) (outbox w ++ [(ToUser k, msg)]) (timers w)).
Proof.
  intros [c Hc] Hnet. unfold send_to_user, bind, get_manager, send_json. simpl.
  by rewrite Hc, Hnet.
Qed.

Lemma send_to_agent_quiet (msg : message) (a : string) (w : World) :
  is_Some (agent_connections (manager w) !! a) → net w = [] →
  send_to_agent msg a w
  = (Some true,
     mkWorld (db w) (set_agent_connections (alter (touch (clock w)) a) (manager w))
             (lock_held w) [] (clock w) (outbox w ++ [(ToAgent a, msg)]) (timers w)).
Proof.
  intros [c Hc] Hnet. unfold send_to_agent, bind, get_manager, send_json. simpl.
  by rewrite Hc, Hnet.
Qed.

(** *** Recorders over a run *)

Lemma ku_same (w w' : World) :
  recordings (manager w') = recordings (manager w) → db w' = db w →
  keeps_unrecorded w w'.
Proof. unfold keeps_unrecorded, unrecorded, no_frames. by intros -> ->. Qed.

Lemma ku_trans (w1 w2 w3 : World) :
  keeps_unrecorded w1 w2 → keeps_unrecorded w2 w3 → keeps_unrecorded w1 w3.
Proof. unfold keeps_unrecorded. auto. Qed.

Lemma ku_ret {A} (a : A) : runs keeps_unrecorded (ret a).
Proof. intros w Hw. exact Hw. Qed.

Lemma ku_bind {A B} (c : M A) (k : A → M B) :
  runs keeps_unrecorded c → (∀ a, runs keeps_unrecorded (k a)) →
  runs keeps_unrecorded (bind c k).
Proof.
  intros Hc Hk w. unfold bind. specialize (Hc w).
  destruct (c w) as [[a|] w1]; simpl in *; [|done].
  eapply ku_trans; [exact Hc|apply Hk].
Qed.

Lemma ku_get_db : runs keeps_unrecorded get_db.
Proof. intros w Hw. exact Hw. Qed.

Lemma ku_get_manager : runs keeps_unrecorded get_manager.
Proof. intros w Hw. exact Hw. Qed.

Lemma ku_now : runs keeps_unrecorded now.
Proof. intros w Hw. exact Hw. Qed.

Lemma ku_send_json to msg : runs keeps_unrecorded (send_json to msg).
Proof. intros w. unfold send_json. destruct (net w) as [|[|] rest]; by apply ku_same. Qed.

Lemma ku_create_expiry_task s d : runs keeps_unrecorded (create_expiry_task s d).
Proof. intros w. by apply ku_same. Qed.

Lemma ku_task_done x : runs keeps_unrecorded (task_done x).
Proof. intros w. by apply ku_same. Qed.

Lemma ku_add_log l : runs keeps_unrecorded (modify_db (add_log l)).
Proof. intros w [Hf Hv]. by split. Qed.

Lemma ku_manager (g : ConnectionManager → ConnectionManager) :
  (∀ m, recordings (g m) = recordings m) → runs keeps_unrecorded (modify_manager g).
Proof. intros Hg w. by apply ku_same; [apply Hg|]. Qed.

Lemma ku_recordings (g : gmap string VideoRecorder → gmap string VideoRecorder) :
  (∀ c, (∀ k r, c !! k = Some r → frames r = []) →
        ∀ k r, g c !! k = Some r → frames r = []) →
  runs keeps_unrecorded (modify_manager (set_recordings g)).
Proof. intros Hg w [Hf Hv]. split; [|done]. intros k r. simpl. by apply Hg. Qed.

Lemma ku_update_session k f :
  (∀ r, video_path r = None → video_path (f r) = None) →
  runs keeps_unrecorded (modify_db (update_session k f)).
Proof.
  intros Hf w [Hfr Hv]. split; [done|]. unfold no_video in *. simpl.
  induction Hv as [|r l Hr Hl IH]; simpl; constructor; [|exact IH].
  destruct (id r =? k)%Z; auto.
Qed.

Lemma ku_call_add_waiting_session s : runs keeps_unrecorded (call_add_waiting_session s).
Proof.
  intros w. rewrite call_add_waiting_session_run. apply ku_same; [|done].
  unfold add_waiting_session. simpl. by case_bool_decide.
Qed.

Lemma ku_with_lock {A} (body : M A) :
  runs keeps_unrecorded body → runs keeps_unrecorded (with_lock body).
Proof.
  intros Hb w. unfold with_lock. destruct (lock_held w); [intros Hw; exact Hw|].
  specialize (Hb (set_lock true w)).
  destruct (body (set_lock true w)) as [[a|] w1]; exact Hb.
Qed.

Lemma ku_await_assign e s : runs keeps_unrecorded (await_assign_agent_to_session e s).
Proof.
  intros w. destruct (lock_held w) eqn:Hl.
  - rewrite (proj1 (await_assign_cases e s w) Hl). intros Hw. exact Hw.
  - rewrite (proj2 (await_assign_cases e s w) Hl). apply ku_same; [|done]. simpl.
    unfold assign_agent_to_session. by repeat case_bool_decide.
Qed.

Lemma ku_for_each {A} (l : list A) (f : A → M unit) :
  (∀ x, runs keeps_unrecorded (f x)) → runs keeps_unrecorded (for_each l f).
Proof.
  intros Hf. induction l as [|x l IH]; simpl; [apply ku_ret|].
  apply ku_bind; [apply Hf|intros _; exact IH].
Qed.

Lemma disconnect_user_recordings (k : string) (m : ConnectionManager) :
  recordings (disconnect_user k m) = delete k (recordings m).
Proof.
  unfold disconnect_user. simpl.
  destruct (session_id_int k) as [n|]; [|done].
  destruct (negb (n =? 0)%Z); [|done].
  by destruct (session_agents m !! n).
Qed.

Lemma ku_await_disconnect_user k : runs keeps_unrecorded (await_disconnect_user k).
Proof.
  apply ku_with_lock. intros w [Hf Hv]. split; [|done]. intros k' r. simpl.
  rewrite disconnect_user_recordings. intros Hk.
  apply lookup_delete_Some in Hk as [_ Hk]. by apply (Hf k').
Qed.

Lemma ku_await_disconnect_agent e : runs keeps_unrecorded (await_disconnect_agent e).
Proof.
  apply ku_with_lock, ku_manager. intros m. unfold disconnect_agent. simpl.
  by destruct (agent_sessions m !! e).
Qed.

Lemma ku_await_connect_user ws k : runs keeps_unrecorded (await_connect_user ws k).
Proof.
  apply ku_with_lock, ku_bind; [apply ku_now|]. intros t w [Hf Hv].
  split; [|done]. intros k' r. simpl.
  destruct (decide (k = k')) as [<-|Hne].
  - rewrite lookup_insert_eq. by intros [= <-].
  - rewrite lookup_insert_ne by done. apply Hf.
Qed.

Lemma ku_await_connect_agent ws e : runs keeps_unrecorded (await_connect_agent ws e).
Proof. apply ku_with_lock, ku_bind; [apply ku_now|]. intros t. by apply ku_manager. Qed.

Lemma ku_send_to_user msg k : runs keeps_unrecorded (send_to_user msg k).
Proof.
  unfold send_to_user. apply ku_bind; [apply ku_get_manager|]. intros m.
  destruct (active_connections m !! k); [|apply ku_ret].
  apply ku_bind; [apply ku_send_json|]. intros [|].
  - apply ku_bind; [apply ku_now|]. intros t.
    apply ku_bind; [by apply ku_manager|]. intros _. apply ku_ret.
  - apply ku_bind; [apply ku_await_disconnect_user|]. intros _. apply ku_ret.
Qed.

Lemma ku_send_to_agent msg e : runs keeps_unrecorded (send_to_agent msg e).
Proof.
  unfold send_to_agent. apply ku_bind; [apply ku_get_manager|]. intros m.
  destruct (agent_connections m !! e); [|apply ku_ret].
  apply ku_bind; [apply ku_send_json|]. intros [|].
  - apply ku_bind; [apply ku_now|]. intros t.
    apply ku_bind; [by apply ku_manager|]. intros _. apply ku_ret.
  - apply ku_bind; [apply ku_await_disconnect_agent|]. intros _. apply ku_ret.
Qed.

Lemma ku_broadcast_loop msg items acc : runs keeps_unrecorded (broadcast_loop msg items acc).
Proof.
  revert acc. induction items as [|[e c] items IH]; intros acc; simpl; [apply ku_ret|].
  apply ku_bind; [apply ku_send_json|]. intros [|]; [|apply IH].
  apply ku_bind; [apply ku_now|]. intros t.
  apply ku_bind; [by apply ku_manager|]. intros _. apply IH.
Qed.

Lemma ku_broadcast_to_all_agents msg : runs keeps_unrecorded (broadcast_to_all_agents msg).
Proof.
  apply ku_with_lock, ku_bind; [apply ku_get_manager|]. intros m.
  apply ku_bind; [apply ku_broadcast_loop|]. intros l.
  apply ku_for_each, ku_await_disconnect_agent.
Qed.

Lemma ku_notify_assigned_agent s msg : runs keeps_unrecorded (notify_assigned_agent s msg).
Proof.
  apply ku_bind; [apply ku_get_manager|]. intros m.
  destruct (session_agents m !! s); [|apply ku_ret].
  apply ku_bind; [apply ku_send_to_agent|]. intros _. apply ku_ret.
Qed.

Lemma ku_error_message_to e text : runs keeps_unrecorded (error_message_to e text).
Proof. apply ku_bind; [apply ku_send_to_agent|]. intros _. apply ku_ret. Qed.

(** Stopping a recorder that has no frame yields no path. *)
Lemma stop_recorder_none (k : string) (w : World) :
  unrecorded w →
  (stop_recorder k w).1 = Some None ∧ unrecorded (stop_recorder k w).2.
Proof.
  intros [Hf Hv]. unfold stop_recorder. rewrite bind_get_manager, bind_now.
  destruct (recordings (manager w) !! k) as [r|] eqn:Hk; [|done].
  pose proof (Hf k r Hk) as Hr. unfold stop_recording. rewrite Hr.
  destruct (recording r); simpl.
  - split; [done|]. split; [|done]. intros k' r'. simpl.
    destruct (decide (k = k')) as [<-|Hne].
    + rewrite lookup_insert_eq. intros [= <-]. done.
    + rewrite lookup_insert_ne by done. apply Hf.
  - split; [done|]. split; [|done]. intros k' r'. simpl.
    destruct (decide (k = k')) as [<-|Hne].
    + rewrite lookup_insert_eq. by intros [= <-].
    + rewrite lookup_insert_ne by done. apply Hf.
Qed.

Lemma ku_stop_recorder k : runs keeps_unrecorded (stop_recorder k).
Proof. intros w Hw. by apply stop_recorder_none. Qed.

Lemma ku_cleanup_stale_connections timeout :
  runs keeps_unrecorded (cleanup_stale_connections timeout).
Proof.
  apply ku_bind; [apply ku_now|]. intros t. apply ku_bind.
  - apply ku_with_lock, ku_bind; [apply ku_get_manager|]. intros m. apply ku_ret.
  - intros [us ags]. apply ku_bind.
    + apply ku_for_each, ku_await_disconnect_user.
    + intros _. apply ku_for_each, ku_await_disconnect_agent.
Qed.

Lemma ku_after_loop ctl finally :
  runs keeps_unrecorded finally → runs keeps_unrecorded (after_loop ctl finally).
Proof. intros Hf. destruct ctl; [apply ku_ret|exact Hf]. Qed.

Ltac ku_step :=
  first
  [ apply ku_ret | apply ku_get_db | apply ku_get_manager | apply ku_now
  | apply ku_send_json | apply ku_create_expiry_task | apply ku_task_done
  | apply ku_add_log | apply ku_call_add_waiting_session | apply ku_await_assign
  | apply ku_await_disconnect_user | apply ku_await_disconnect_agent
  | apply ku_await_connect_user | apply ku_await_connect_agent
  | apply ku_send_to_user | apply ku_send_to_agent
  | apply ku_broadcast_to_all_agents | apply ku_notify_assigned_agent
  | apply ku_error_message_to | apply ku_stop_recorder
  | apply ku_cleanup_stale_connections
  | apply ku_manager; intros ?; reflexivity
  | apply ku_update_session; intros []; simpl; congruence
  | apply ku_bind; [|intros ?]
  | match goal with
    | |- runs _ (match ?x with _ => _ end) => destruct x
    end ].

Lemma ku_websocket_agent_finally agent : runs keeps_unrecorded (websocket_agent_finally agent).
Proof. unfold websocket_agent_finally. repeat ku_step. Qed.

Lemma ku_websocket_vkyc_finally session : runs keeps_unrecorded (websocket_vkyc_finally session).
Proof. unfold websocket_vkyc_finally. repeat ku_step. Qed.

Lemma ku_start_vkyc base uid : runs keeps_unrecorded (start_vkyc base uid).
Proof.
  intros w [Hf Hv]. unfold start_vkyc, bind, get_db. simpl.
  destruct (find_customer_by_unique_id uid (db w)) as [c|]; [|done].
  destruct (existing_session (cust_id c) (db w)); [done|].
  simpl. split; [done|]. unfold no_video. simpl.
  apply Forall_app. split; [done|]. by constructor.
Qed.

Lemma ku_websocket_vkyc_message session data :
  runs keeps_unrecorded (websocket_vkyc_message session data).
Proof.
  destruct data; try (unfold websocket_vkyc_message; repeat ku_step; fail).
  (* kyc_complete: the path stored is what stop_recording returned *)
  intros w Hw. unfold websocket_vkyc_message. cbv zeta.
  rewrite bind_now, bind_get_manager.
  assert (Htail : ∀ path,
            (path = None ∨ path = Some None) →
            runs keeps_unrecorded
              (do! modify_db (update_session (id session)
                     (λ s, let s' := set_completed_at (clock w) (set_status "completed" s) in
                           match path with
                           | Some p => set_video_path p s'
                           | None => s'
                           end)) in
               do! send_to_user [("type", JStr "kyc_completed");
                                 ("message", JStr "Your KYC is complete!")]
                                (str (id session)) in
               do! notify_assigned_agent (id session)
                     [("type", JStr "session_completed"); ("session_id", JInt (id session));
                      ("message", JStr "VKYC session completed successfully")] in
               do! broadcast_to_all_agents
                     [("type", JStr "session_completed");
                      ("session_id", JInt (id session))] in
               ret Break)).
  { intros path [-> | ->]; repeat ku_step. }
  destruct (recordings (manager w) !! str (id session)) as [r|].
  - destruct (stop_recorder_none (str (id session)) w Hw) as [Hres Hw1].
    unfold bind at 1. unfold bind at 1.
    destruct (stop_recorder (str (id session)) w) as [res w1]. simpl in Hres, Hw1.
    subst res. simpl. apply (Htail (Some None)); [by right|exact Hw1].
  - unfold bind at 1. simpl. apply (Htail None); [by left|exact Hw].
Qed.

Lemma ku_websocket_agent_message agent data :
  runs keeps_unrecorded (websocket_agent_message agent data).
Proof.
  destruct data; try (unfold websocket_agent_message; repeat ku_step; fail).
  unfold websocket_agent_message.
  repeat first
    [ ku_step
    | apply ku_recordings; intros c Hc k r;
      match goal with
      | |- <[?k0 := _]> _ !! _ = _ → _ =>
          destruct (decide (k0 = k)) as [<-|Hne];
          [rewrite lookup_insert_eq; by intros [= <-]
          |rewrite lookup_insert_ne by done; apply Hc]
      end ].
Qed.

Lemma step_keeps_unrecorded (w w' : World) : step w w' → keeps_unrecorded w w'.
Proof.
  intros [e t tape w0 Ht He].
  eapply ku_trans; [apply (ku_same w0 (at_time t tape w0)); reflexivity|].
  as_runs. destruct e; unfold run.
  - apply ku_bind; [apply ku_start_vkyc|]. intros; apply ku_ret.
  - unfold websocket_vkyc_setup. repeat ku_step.
  - apply ku_bind; [apply ku_websocket_vkyc_message|].
    intros ctl. apply ku_after_loop, ku_websocket_vkyc_finally.
  - apply ku_bind.
    + unfold websocket_vkyc_timeout. repeat ku_step.
    + intros ctl. apply ku_after_loop, ku_websocket_vkyc_finally.
  - apply ku_websocket_vkyc_finally.
  - unfold websocket_agent_setup. repeat ku_step.
  - apply ku_bind; [apply ku_websocket_agent_message|].
    intros ctl. apply ku_after_loop, ku_websocket_agent_finally.
  - apply ku_bind.
    + unfold websocket_agent_timeout. repeat ku_step.
    + intros ctl. apply ku_after_loop, ku_websocket_agent_finally.
  - apply ku_websocket_agent_finally.
  - apply ku_bind; [apply ku_task_done|].
    intros _. unfold session_expiry_timer. repeat ku_step.
  - apply ku_cleanup_stale_connections.
Qed.

(** Nothing in the server calls [add_frame], so no recorder ever holds a
    frame.  In every state reached from a store whose sessions have no
    video path: stopping any recorder, at any time, returns no path, and
    still no session has a video path.  In particular kyc_complete, which
    stores what [stop_recording] returned, stores None. *)
Theorem no_recording_is_saved (d : Store) (w : World) :
  no_video d → reachable d w →
  (∀ k r t, recordings (manager w) !! k = Some r → (stop_recording t r).1 = None)
  ∧ ∀ r, r ∈ vkyc_sessions (db w) → video_path r = None.
Proof.
  intros Hd Hr.
  assert (Hw : unrecorded w).
  { assert (H0 : unrecorded (initial_world d)).
    { split; [|exact Hd]. intros k r. simpl. by rewrite lookup_empty. }
    unfold reachable in Hr. revert H0.
    induction Hr as [w|w1 w2 w3 Hstep _ IH]; [done|].
    intros H1. apply IH. by apply (step_keeps_unrecorded _ _ Hstep). }
  destruct Hw as [Hf Hv]. split.
  - intros k r t Hk. unfold stop_recording. rewrite (Hf k r Hk).
    by destruct (recording r).
  - intros r Hin. unfold no_video in Hv. rewrite Forall_forall in Hv. by apply Hv.
Qed.

Lemma no_recording_is_saved_witness :
  no_video demo_store ∧ no_video (db demo_completed).
Proof.
  assert (Hd : no_video demo_store) by constructor.
  assert (Hr : reachable demo_store demo_completed).
  { apply reachable_after; [apply demo_waiting_reachable|vm_compute; congruence|].
    vm_compute. reflexivity. }
  split; [exact Hd|]. apply Forall_forall.
  exact (proj2 (no_recording_is_saved demo_store demo_completed Hd Hr)).
Defined.

(** *** Connecting under an unknown id *)

(** A socket opened for a session id, or an employee id, that the store
    does not know is registered first and looked up afterwards: the
    handler returns without entering the loop and without the [finally]
    block, so the connection entry (and, for a customer, a recorder) stays
    in the manager; nothing is sent and the store is not touched. *)
Theorem unknown_id_stays_registered (ws : WebSocket) (w : World) :
  lock_held w = false →
  (∀ s, find_session s (db w) = None →
        let res := websocket_vkyc_setup ws s w in
        res.1 = Some false
        ∧ active_connections (manager res.2) !! str s
          = Some (mkConnection ws (clock w) (clock w))
        ∧ recordings (manager res.2) !! str s = Some (new_VideoRecorder (str s))
        ∧ outbox res.2 = outbox w ∧ db res.2 = db w)
  ∧ (∀ e, find_agent e (db w) = None →
          let res := websocket_agent_setup ws e w in
          res.1 = Some false
          ∧ agent_connections (manager res.2) !! e
            = Some (mkConnection ws (clock w) (clock w))
          ∧ outbox res.2 = outbox w ∧ db res.2 = db w).
Proof.
  intros Hl. split.
  - intros s Hs.
    assert (Heq : websocket_vkyc_setup ws s w
                  = (Some false,
                     mkWorld (db w) (connect_user ws (str s) (clock w) (manager w)) false
                             (net w) (clock w) (outbox w) (timers w))).
    { unfold websocket_vkyc_setup, await_connect_user, with_lock.
      unfold bind at 1. rewrite Hl. simpl. rewrite bind_get_db. simpl. by rewrite Hs. }
    rewrite Heq. simpl. by rewrite !lookup_insert_eq.
  - intros e He.
    assert (Heq : websocket_agent_setup ws e w
                  = (Some false,
                     mkWorld (db w) (connect_agent ws e (clock w) (manager w)) false
                             (net w) (clock w) (outbox w) (timers w))).
    { unfold websocket_agent_setup, await_connect_agent, with_lock.
      unfold bind at 1. rewrite Hl. simpl. rewrite bind_get_db. simpl. by rewrite He. }
    rewrite Heq. simpl. by rewrite lookup_insert_eq.
Qed.

Lemma unknown_id_stays_registered_witness :
  active_connections (manager (websocket_vkyc_setup 11 42 demo_waiting).2) !! str 42
  = Some (mkConnection 11 (clock demo_waiting) (clock demo_waiting))
  ∧ (websocket_agent_setup 12 "E9" demo_waiting).1 = Some false.
Proof.
  split.
  - refine (proj1 (proj2 (proj1 (unknown_id_stays_registered 11 demo_waiting _) 42 _)));
      vm_compute; reflexivity.
  - refine (proj1 (proj2 (unknown_id_stays_registered 12 demo_waiting _) "E9" _));
      vm_compute; reflexivity.
Defined.

(** *** The mobile-number validator *)









(** *** Document capture *)

(** request_document_capture and cancel_document_capture are for the
    agent that holds the session.  From any other agent all that can be
    delivered is an error message, and neither the store, the waiting set
    nor the assignment gains anything.  From the agent that holds the
    session, with both sockets connected and no send failing, the customer
    is sent the request and the agent the confirmation, in that order. *)
Theorem document_capture_needs_assignment (agent : Agent) (s : Z) (doc_type : string)
    (w : World) :
  (agent_sessions (manager w) !! employee_id agent ≠ Some s →
   ∀ data, data = ARequestDocumentCapture s doc_type ∨ data = ACancelDocumentCapture s →
           let w' := (websocket_agent_message agent data w).2 in
           delivers_only (has_type "error") w w'
           ∧ db w' = db w
           ∧ waiting_sessions (manager w') = waiting_sessions (manager w)
           ∧ no_new_pairs w w')
  ∧ (agent_sessions (manager w) !! employee_id agent = Some s →
     net w = [] →
     is_Some (active_connections (manager w) !! str s) →
     is_Some (agent_connections (manager w) !! employee_id agent) →
     outbox (websocket_agent_message agent (ARequestDocumentCapture s doc_type) w).2
     = (outbox w
        ++ [(ToUser (str s),
             [("type", JStr "request_document_capture");
              ("doc_type", JStr doc_type);
              ("message", JStr ("Please show your " ++ upper doc_type ++ " card"))]);
            (ToAgent (employee_id agent),
             [("type", JStr "document_capture_requested");
              ("session_id", JInt s);
              ("doc_type", JStr doc_type)])])%list).
Proof.
  split.
  - intros Hna data [-> | ->] w'; subst w'; unfold websocket_agent_message;
      rewrite bind_get_manager; unfold not_assigned_to;
      rewrite bool_decide_eq_false_2 by done; cbn [negb];
      apply rejected_tail; runs_auto ltac:(first [quiet_extra | only_errors]).
  - intros Ha Hnet Hcu Hca. unfold websocket_agent_message.
    rewrite bind_get_manager. unfold not_assigned_to.
    rewrite bool_decide_eq_true_2 by done. cbn [negb].
    unfold bind at 1. rewrite send_to_user_quiet by done.
    unfold bind at 1. rewrite send_to_agent_quiet by done.
    simpl. by rewrite <- app_assoc.
Qed.

Lemma document_capture_needs_assignment_witness :
  let w := at_time 9 [] demo_accepted in
  db (websocket_agent_message agent_E2 (ACancelDocumentCapture 1) w).2 = db w
  ∧ outbox (websocket_agent_message agent_E1 (ARequestDocumentCapture 1 "pan") w).2
    = (outbox w
       ++ [(ToUser (str 1),
            [("type", JStr "request_document_capture");
             ("doc_type", JStr "pan");
             ("message", JStr ("Please show your " ++ upper "pan" ++ " card"))]);
           (ToAgent (employee_id agent_E1),
            [("type", JStr "document_capture_requested");
             ("session_id", JInt 1);
             ("doc_type", JStr "pan")])])%list.
Proof.
  intros w. split.
  - refine (proj1 (proj2 (proj1 (document_capture_needs_assignment agent_E2 1 "pan" w)
                            _ (ACancelDocumentCapture 1) (or_intror eq_refl)))).
    vm_compute. discriminate.
  - refine (proj2 (document_capture_needs_assignment agent_E1 1 "pan" w) _ _ _ _);
      vm_compute; eauto.
Defined.

(** *** Handlers return when no send fails *)

Lemma not_in_take_drop {A} (x : A) (n : nat) (l : list A) :
  x ∉ l → (x ∉ take n l) ∧ (x ∉ drop n l).
Proof. intros H. rewrite <- (take_drop n l), elem_of_app in H. tauto. Qed.

Lemma rc_ret {A} (a : A) : returns_calm (ret a).
Proof. intros w Hw. split; [by eexists|exact Hw]. Qed.

Lemma rc_bind {A B} (c : M A) (k : A → M B) :
  returns_calm c → (∀ a, returns_calm (k a)) → returns_calm (bind c k).
Proof.
  intros Hc Hk w Hw. unfold bind. destruct (Hc w Hw) as [[a Ha] Hw1].
  destruct (c w) as [[a'|] w1]; simpl in *; [|discriminate]. by apply Hk.
Qed.

Lemma rc_get_db : returns_calm get_db.
Proof. intros w Hw. split; [by eexists|exact Hw]. Qed.

Lemma rc_get_manager : returns_calm get_manager.
Proof. intros w Hw. split; [by eexists|exact Hw]. Qed.

Lemma rc_now : returns_calm now.
Proof. intros w Hw. split; [by eexists|exact Hw]. Qed.

Lemma rc_modify_db f : returns_calm (modify_db f).
Proof. intros w Hw. split; [by eexists|exact Hw]. Qed.

Lemma rc_modify_manager f : returns_calm (modify_manager f).
Proof. intros w Hw. split; [by eexists|exact Hw]. Qed.

Lemma rc_create_expiry_task s d : returns_calm (create_expiry_task s d).
Proof. intros w Hw. split; [by eexists|exact Hw]. Qed.

Lemma rc_task_done x : returns_calm (task_done x).
Proof. intros w Hw. split; [by eexists|exact Hw]. Qed.

Lemma rc_send_json to msg : returns_calm (send_json to msg).
Proof.
  intros w [Hl Hn]. unfold send_json.
  destruct (net w) as [|[|] rest] eqn:Hnet; simpl.
  - split; [by eexists|]. split; [done|]. simpl. apply not_elem_of_nil.
  - split; [by eexists|]. split; [done|]. simpl.
    intros Hin. apply Hn. by apply list_elem_of_further.
  - exfalso. apply Hn. apply list_elem_of_here.
Qed.

Lemma rc_await (f : ConnectionManager → ConnectionManager) :
  returns_calm (with_lock (modify_manager f)).
Proof.
  intros w [Hl Hn]. rewrite await_free by done. split; [by eexists|]. by split.
Qed.

Lemma rc_await_connect_user ws k : returns_calm (await_connect_user ws k).
Proof.
  intros w [Hl Hn]. unfold await_connect_user, with_lock. rewrite Hl. simpl.
  split; [by eexists|]. by split.
Qed.

Lemma rc_await_connect_agent ws e : returns_calm (await_connect_agent ws e).
Proof.
  intros w [Hl Hn]. unfold await_connect_agent, with_lock. rewrite Hl. simpl.
  split; [by eexists|]. by split.
Qed.

Lemma rc_await_assign e s : returns_calm (await_assign_agent_to_session e s).
Proof.
  intros w [Hl Hn]. rewrite (proj2 (await_assign_cases e s w) Hl).
  split; [by eexists|]. by split.
Qed.

Lemma rc_call_add_waiting_session s : returns_calm (call_add_waiting_session s).
Proof.
  intros w Hw. rewrite call_add_waiting_session_run. split; [by eexists|exact Hw].
Qed.

Lemma rc_for_each {A} (l : list A) (f : A → M unit) :
  (∀ x, returns_calm (f x)) → returns_calm (for_each l f).
Proof.
  intros Hf. induction l as [|x l IH]; simpl; [apply rc_ret|].
  apply rc_bind; [apply Hf|intros _; exact IH].
Qed.

Lemma rc_broadcast_to_all_agents msg : returns_calm (broadcast_to_all_agents msg).
Proof.
  intros w [Hl Hn].
  assert (Heq : broadcast_to_all_agents msg w
                = (Some tt,
                   mkWorld (db w)
                     (set_agent_connections (fmap (touch (clock w))) (manager w))
                     false (drop (size (agent_connections (manager w))) (net w)) (clock w)
                     (outbox w ++ broadcast_of msg (agent_connections (manager w)))%list
                     (timers w))).
  { unfold broadcast_to_all_agents, with_lock. rewrite Hl.
    unfold bind at 1. simpl. unfold bind at 1.
    rewrite <- length_map_to_list.
    rewrite broadcast_loop_all_ok by (simpl; by apply not_in_take_drop).
    unfold set_lock, set_agent_connections. simpl.
    by rewrite touch_all_map_to_list. }
  rewrite Heq. split; [by eexists|]. split; [done|]. simpl. by apply not_in_take_drop.
Qed.

Lemma rc_cleanup_stale_connections timeout :
  returns_calm (cleanup_stale_connections timeout).
Proof.
  apply rc_bind; [apply rc_now|]. intros t. apply rc_bind.
  - intros w [Hl Hn]. unfold with_lock. rewrite Hl. simpl.
    split; [by eexists|]. by split.
  - intros [us ags]. apply rc_bind.
    + apply rc_for_each. intros k. apply rc_await.
    + intros _. apply rc_for_each. intros k. apply rc_await.
Qed.

Ltac rc_step :=
  first
  [ apply rc_ret | apply rc_get_db | apply rc_get_manager | apply rc_now
  | apply rc_modify_db | apply rc_modify_manager | apply rc_create_expiry_task
  | apply rc_task_done | apply rc_send_json | apply rc_await
  | apply rc_await_connect_user | apply rc_await_connect_agent
  | apply rc_await_assign | apply rc_call_add_waiting_session
  | apply rc_broadcast_to_all_agents | apply rc_cleanup_stale_connections
  | apply rc_bind; [|intros ?]
  | match goal with
    | |- returns_calm (match ?x with _ => _ end) => destruct x
    | |- returns_calm (let '(_, _) := ?x in _) => destruct x
    end ].

Ltac rc_auto :=
  unfold send_to_user, send_to_agent, notify_assigned_agent, error_message_to,
    stop_recorder, await_disconnect_user, await_disconnect_agent, after_loop;
  repeat rc_step.

Lemma rc_websocket_vkyc_message session data :
  returns_calm (websocket_vkyc_message session data).
Proof. destruct data; unfold websocket_vkyc_message; rc_auto. Qed.

Lemma rc_run (e : event) : returns_calm (run e).
Proof.
  destruct e as [base uid|ws s|session data|session pong|session|ws eid|agent data
                |agent pong|agent|s due| ]; unfold run.
  - apply rc_bind; [|intros; apply rc_ret]. unfold start_vkyc. rc_auto.
  - unfold websocket_vkyc_setup. rc_auto.
  - apply rc_bind; [apply rc_websocket_vkyc_message|]. intros ctl.
    unfold websocket_vkyc_finally. rc_auto.
  - unfold websocket_vkyc_timeout, websocket_vkyc_finally. rc_auto.
  - unfold websocket_vkyc_finally. rc_auto.
  - unfold websocket_agent_setup. rc_auto.
  - destruct data; unfold websocket_agent_message, websocket_agent_finally; rc_auto.
  - unfold websocket_agent_timeout, websocket_agent_finally. rc_auto.
  - unfold websocket_agent_finally. rc_auto.
  - unfold session_expiry_timer. rc_auto.
  - unfold cleanup_task_round. rc_auto.
Qed.

(** With the lock free and no send failing, every step of the server
    returns and leaves the lock free: a request, either set-up, any message
    of a customer or an agent with the [finally] block behind it, a
    time-out, a timer, a round of the sweep.  Blocking needs a failed
    send. *)
Theorem handlers_return_when_sends_succeed (e : event) (t : Z) (tape : list bool)
    (w : World) :
  lock_held w = false → false ∉ tape →
  (run e (at_time t tape w)).1 = Some tt
  ∧ lock_held (run e (at_time t tape w)).2 = false.
Proof.
  intros Hl Hn. pose proof (rc_run e) as Hrc.
  destruct (Hrc (at_time t tape w)) as [[[] Hres] [Hl' _]]; [by split|].
  by split.
Qed.

Lemma handlers_return_when_sends_succeed_witness :
  (run (AgentSends agent_E1 (AAcceptSession 1)) (at_time 6 [true; true] demo_waiting)).1
  = Some tt.
Proof.
  refine (proj1 (handlers_return_when_sends_succeed
                   (AgentSends agent_E1 (AAcceptSession 1)) 6 [true; true] demo_waiting _ _)).
  - reflexivity.
  - intros Hin. by repeat (apply elem_of_cons in Hin as [Hin|Hin]; [discriminate|]);
      apply elem_of_nil in Hin.
Defined.

(** *** The disconnect methods with the lock free *)

(** Called with the lock free, [disconnect_user] (for a positive session
    id) and [disconnect_agent] return, leave the lock free, drop the
    party's connection entry and both directions of its pair, and touch
    neither the store nor the outbox; a second call returns and changes
    nothing. *)
Theorem disconnect_methods_when_lock_free (w : World) :
  lock_held w = false →
  (∀ n : Z, (0 < n)%Z →
     let res := await_disconnect_user (str n) w in
     res.1 = Some tt
     ∧ lock_held res.2 = false ∧ db res.2 = db w ∧ outbox res.2 = outbox w
     ∧ active_connections (manager res.2) !! str n = None
     ∧ recordings (manager res.2) !! str n = None
     ∧ session_agents (manager res.2) !! n = None
     ∧ (∀ a, session_agents (manager w) !! n = Some a →
             agent_sessions (manager res.2) !! a = None)
     ∧ await_disconnect_user (str n) res.2 = (Some tt, res.2))
  ∧ (∀ e : string,
     let res := await_disconnect_agent e w in
     res.1 = Some tt
     ∧ lock_held res.2 = false ∧ db res.2 = db w ∧ outbox res.2 = outbox w
     ∧ agent_connections (manager res.2) !! e = None
     ∧ agent_sessions (manager res.2) !! e = None
     ∧ (∀ s, agent_sessions (manager w) !! e = Some s →
             session_agents (manager res.2) !! s = None)
     ∧ await_disconnect_agent e res.2 = (Some tt, res.2)).
Proof.
  intros Hl. split.
  - intros n Hn. cbv zeta. unfold await_disconnect_user.
    rewrite !await_free by done. simpl.
    destruct (proj1 (disconnect_releases_and_is_idempotent (manager w)) n Hn)
      as (H1 & H2 & H3 & H4 & _ & H6).
    do 4 (split; [done|]). split; [exact H1|]. split; [exact H2|].
    split; [exact H3|]. split; [exact H4|].
    simpl in H6. by rewrite H6.
  - intros e. cbv zeta. unfold await_disconnect_agent.
    rewrite !await_free by done. simpl.
    destruct (proj2 (disconnect_releases_and_is_idempotent (manager w)) e)
      as (H1 & H2 & H3 & _ & H5).
    do 4 (split; [done|]). split; [exact H1|]. split; [exact H2|].
    split; [exact H3|].
    simpl in H5. by rewrite H5.
Qed.

Lemma disconnect_methods_when_lock_free_witness :
  let w := at_time 9 [] demo_accepted in
  session_agents (manager (await_disconnect_user (str 1) w).2) !! 1 = None
  ∧ agent_connections (manager (await_disconnect_agent "E1" w).2) !! "E1" = None.
Proof.
  intros w.
  destruct (disconnect_methods_when_lock_free w eq_refl) as [Hu Ha].
  assert (H01 : (0 < 1)%Z) by lia.
  destruct (Hu 1 H01) as (_ & _ & _ & _ & _ & _ & H7 & _).
  destruct (Ha "E1") as (_ & _ & _ & _ & H5 & _).
  split; [exact H7|exact H5].
Defined.
